(** * Data Analyst Agent: cleaning, statistics and chart encoding

    A shallow embedding of the computational core of the repository:

    - [src/src/utils/data_processor.py]   (class [DataProcessor])
    - [src/chart_generator.py]            (class [ChartGenerator], [_fig_to_base64])
    - [src/backend/src/agents/data_analyst.py] (class [DataAnalystAgent])
    - [src/backend/app.py]                (the request handler's use of the above)

    Conventions of the embedding.

    - A pandas [DataFrame] is a row index together with an ordered list of
      named, typed columns.  Missing markers ([NaN], [None], [NaT]) are [None].
    - Floating point numbers are idealised as rationals ([Q]); the one place
      that needs a square root (Pearson correlation) produces a real.
      Comparisons of a ratio of two counts against a float literal
      ([n / m > 0.8], [n / m > 0.5]) are written on the integers
      ([5 n > 4 m], [2 n > m]).
    - Where the outcome turns on rounding (a value on a bound of the outlier
      interval, the standard deviation or the correlation of a column whose
      values are all equal) the computation is followed in IEEE 754 binary64
      (module [F64]); a cell [q] then stands for the binary64 nearest to [q].
    - Library functions whose code is not part of the repository
      ([pd.to_numeric], [pd.to_datetime], the datetime median, [json.loads],
      [Figure.savefig], [StandardScaler]) are Section variables.
    - Python objects that are mutated or copied ([DataFrame]s) live in a
      store when a claim is about aliasing; exceptions are an explicit
      result. *)

From Stdlib Require Import QArith Qround Qreals Reals Lra Lia ZArith List Ascii String.
From Stdlib Require Import SpecFloat.
From Stdlib Require Sorted.
From stdpp Require Import base gmap strings list.

Local Open Scope string_scope.
Local Open Scope list_scope.

(** * Exceptions *)

Inductive exn :=
| KeyError (key : string)
| TypeError (msg : string)
| ValueError (msg : string)
| AttributeError (msg : string).

Inductive res (A : Type) :=
| Ok (a : A)
| Raise (e : exn).
Arguments Ok {A} a.
Arguments Raise {A} e.

#[global] Instance res_ret : MRet res := fun _ a => Ok a.
#[global] Instance res_bind : MBind res := fun _ _ f m =>
  match m with Ok a => f a | Raise e => Raise e end.

(** * Numbers *)

Definition Qsum (l : list Q) : Q := foldr Qplus 0%Q l.

Definition Qlen {A} (l : list A) : Q := inject_Z (Z.of_nat (length l)).

Definition mean (l : list Q) : Q := (Qsum l / Qlen l)%Q.

Fixpoint insert_sorted (x : Q) (l : list Q) : list Q :=
  match l with
  | [] => [x]
  | y :: l' => if Qle_bool x y then x :: l else y :: insert_sorted x l'
  end.

Definition sort_values (l : list Q) : list Q := foldr insert_sorted [] l.

(** [Series.dropna()]: the non-missing values in order. *)
Definition dropna {A} (l : list (option A)) : list A := omap (fun o => o) l.

Definition notna {A} (o : option A) : bool :=
  match o with Some _ => true | None => false end.

(** [Series.isnull().sum()] *)
Definition isnull_sum {A} (l : list (option A)) : nat :=
  length (List.filter (fun o => negb (notna o)) l).

(** [Series.fillna(v)] *)
Definition fillna {A} (v : A) (l : list (option A)) : list (option A) :=
  map (fun o => match o with Some x => Some x | None => Some v end) l.

(** [Series.fillna(method='ffill')]: the last valid value is carried forward;
    leading missing cells stay missing. *)
Fixpoint ffill_from {A} (last : option A) (l : list (option A)) : list (option A) :=
  match l with
  | [] => []
  | Some x :: l' => Some x :: ffill_from (Some x) l'
  | None :: l' => last :: ffill_from last l'
  end.
Definition ffill {A} (l : list (option A)) : list (option A) := ffill_from None l.

(** [Series.fillna(method='bfill')]: the next valid value is carried backward. *)
Definition bfill {A} (l : list (option A)) : list (option A) :=
  rev (ffill (rev l)).

(** The quantile of the sorted non-missing values by linear interpolation,
    in exact arithmetic: the quartiles of the specification.  ([F64.quantile]
    below is [Series.quantile] as the code computes it.)  [None] when there
    is no value. *)
Definition quantile (q : Q) (col : list (option Q)) : option Q :=
  let v := sort_values (dropna col) in
  match v with
  | [] => None
  | x0 :: _ =>
      let h := (inject_Z (Z.of_nat (length v) - 1) * q)%Q in
      let j := Qfloor h in
      let g := (h - inject_Z j)%Q in
      let lo := nth (Z.to_nat j) v x0 in
      let hi := nth (Z.to_nat (j + 1)) v lo in
      Some (lo + g * (hi - lo))%Q
  end.

(** [Series.median()]: middle value of the sorted non-missing values, the
    mean of the two middle ones when their number is even. *)
Definition median (col : list (option Q)) : option Q :=
  let v := sort_values (dropna col) in
  match v with
  | [] => None
  | x0 :: _ =>
      let n := length v in
      if Nat.even n
      then Some ((nth (n / 2 - 1) v x0 + nth (n / 2) v x0) / 2)%Q
      else Some (nth (n / 2) v x0)
  end.

(** * Binary64

    IEEE 754 binary64 with the Standard Library's [SpecFloat]: every
    operation rounds to nearest, ties to even, and overflows to an infinity.
    The numpy routines below follow numpy's order of operations. *)

Module F64.

Definition prec : Z := 53.
Definition emax : Z := 1024.

Definition nan : spec_float := S754_nan.
Definition zero : spec_float := S754_zero false.

Definition add : spec_float -> spec_float -> spec_float := SFadd prec emax.
Definition sub : spec_float -> spec_float -> spec_float := SFsub prec emax.
Definition mul : spec_float -> spec_float -> spec_float := SFmul prec emax.
Definition div : spec_float -> spec_float -> spec_float := SFdiv prec emax.
Definition sqrt : spec_float -> spec_float := SFsqrt prec emax.
Definition abs : spec_float -> spec_float := SFabs.

(** [x <= y] and [x < y]: false when either side is NaN. *)
Definition leb : spec_float -> spec_float -> bool := SFleb.
Definition ltb : spec_float -> spec_float -> bool := SFltb.

Definition is_nan (x : spec_float) : bool :=
  match x with S754_nan => true | _ => false end.

Definition is_zero (x : spec_float) : bool :=
  match x with S754_zero _ => true | _ => false end.

Definition is_zero_or_nan (x : spec_float) : bool := is_zero x || is_nan x.

(** The binary64 nearest to an integer. *)
Definition of_Z (z : Z) : spec_float := binary_normalize prec emax z 0 false.

Definition of_nat (n : nat) : spec_float := of_Z (Z.of_nat n).

(** The binary64 nearest to a rational: the correctly rounded quotient of
    the numerator by the denominator. *)
Definition of_Q (q : Q) : spec_float :=
  match Qnum q with
  | Z0 => zero
  | Zpos n =>
      let '(m, e, l) := SFdiv_core_binary prec emax (Zpos n) 0 (Zpos (Qden q)) 0 in
      binary_round_aux prec emax false m e l
  | Zneg n =>
      let '(m, e, l) := SFdiv_core_binary prec emax (Zpos n) 0 (Zpos (Qden q)) 0 in
      binary_round_aux prec emax true m e l
  end.

(** The rational a finite binary64 is; [None] for NaN and the infinities. *)
Definition to_Q (x : spec_float) : option Q :=
  match x with
  | S754_zero _ => Some 0%Q
  | S754_finite s m e =>
      let v := match e with
               | Z0 => inject_Z (Zpos m)
               | Zpos p => inject_Z (Zpos m * 2 ^ Zpos p)
               | Zneg p => Qmake (Zpos m) (2 ^ p)
               end in
      Some (if s then Qopp v else v)
  | _ => None
  end.

(** [np.floor] of a finite number, as an integer. *)
Definition floor (x : spec_float) : Z :=
  match to_Q x with Some v => Qfloor v | None => 0%Z end.

(** ** Sums

    [np.add.reduce] on a contiguous array is numpy's pairwise summation:
    fewer than eight numbers are added from left to right; up to 128 are
    added in eight interleaved accumulators that are then combined, the
    remainder being added last; a longer array is split in two. *)

Fixpoint blocks (fuel : nat) (r l : list spec_float) : list spec_float * list spec_float :=
  match fuel with
  | O => (r, l)
  | S fuel' =>
      if (8 <=? length l)%nat
      then blocks fuel' (zip_with add r (take 8 l)) (drop 8 l)
      else (r, l)
  end.

Definition unrolled_sum (l : list spec_float) : spec_float :=
  let '(r, rest) := blocks (length l) (take 8 l) (drop 8 l) in
  match r with
  | [r0; r1; r2; r3; r4; r5; r6; r7] =>
      foldl add (add (add (add r0 r1) (add r2 r3)) (add (add r4 r5) (add r6 r7))) rest
  | _ => nan
  end.

Fixpoint pairwise_sum (fuel : nat) (l : list spec_float) : spec_float :=
  let n := length l in
  if (n <? 8)%nat then foldl add (S754_zero true) l
  else if (n <=? 128)%nat then unrolled_sum l
  else
    match fuel with
    | O => nan
    | S fuel' =>
        let n2 := (n / 2)%nat in
        let n2 := (n2 - n2 mod 8)%nat in
        add (pairwise_sum fuel' (take n2 l)) (pairwise_sum fuel' (drop n2 l))
    end.

(** [np.sum]: the reduction starts from [0.0]. *)
Definition sum (l : list spec_float) : spec_float :=
  add zero (pairwise_sum (length l) l).

(** [np.mean] *)
Definition mean (l : list spec_float) : spec_float :=
  div (sum l) (of_nat (length l)).

(** [x - x.mean()], element by element. *)
Definition deviations (l : list spec_float) : list spec_float :=
  map (fun x => sub x (mean l)) l.

(** [np.dot] of two vectors.  The products are rounded and added from left
    to right; a BLAS may add them in another order or fuse a product with
    its addition, which moves the last bits of the result. *)
Definition dot (u v : list spec_float) : spec_float :=
  foldl add zero (zip_with mul u v).

(** [np.clip(x, -1, 1)]; NaN stays NaN. *)
Definition clip (x : spec_float) : spec_float :=
  if ltb x (of_Z (-1)) then of_Z (-1)
  else if ltb (of_Z 1) x then of_Z 1
  else x.

(** [np.corrcoef(x, y)[0, 1]]: [np.cov] subtracts the means, takes the dot
    products and multiplies them by [1 / (n - 1)] (by [1 / 0.0] for a single
    row); the covariance is then divided by the standard deviation of [x],
    then by that of [y], and clipped. *)
Definition corrcoef (x y : list spec_float) : spec_float :=
  let X := deviations x in
  let Y := deviations y in
  let fact := if (length x <=? 1)%nat then zero else of_nat (length x - 1) in
  let w := div (of_Z 1) fact in
  let c_xy := mul (dot X Y) w in
  let c_xx := mul (dot X X) w in
  let c_yy := mul (dot Y Y) w in
  clip (div (div c_xy (sqrt c_xx)) (sqrt c_yy)).

(** ** Quantiles *)

(** numpy's [_lerp(a, b, t)] *)
Definition lerp (a b t : spec_float) : spec_float :=
  let diff_b_a := sub b a in
  if leb (of_Q (1 # 2)) t
  then sub b (mul diff_b_a (sub (of_Z 1) t))
  else add a (mul diff_b_a t).

(** [Series.quantile(q)]: [np.percentile] with linear interpolation over the
    sorted non-missing values, NaN when there is none.  The virtual index is
    [(n - 1) * q]; at or above [n - 1] numpy takes the last value on both
    sides.  (pandas hands numpy [q * 100.0], which numpy divides by 100: the
    quantiles of the code, 0.25 and 0.75, come back as they are.) *)
Definition quantile (q : Q) (col : list (option Q)) : spec_float :=
  let arr := map of_Q (sort_values (dropna col)) in
  let n := Z.of_nat (length arr) in
  match arr with
  | [] => nan
  | x0 :: _ =>
      let virtual_index := mul (of_Z (n - 1)) (of_Q q) in
      if leb (of_Z (n - 1)) virtual_index
      then
        let last := nth (Z.to_nat (n - 1)) arr x0 in
        lerp last last (sub virtual_index (of_Z (-1)))
      else
        let previous_index := floor virtual_index in
        let gamma := sub virtual_index (of_Z previous_index) in
        lerp (nth (Z.to_nat previous_index) arr x0)
             (nth (Z.to_nat (previous_index + 1)) arr x0)
             gamma
  end.

End F64.

Arguments F64.add : simpl never.
Arguments F64.sub : simpl never.
Arguments F64.mul : simpl never.
Arguments F64.div : simpl never.
Arguments F64.sqrt : simpl never.
Arguments F64.leb : simpl never.
Arguments F64.ltb : simpl never.
Arguments F64.of_Z : simpl never.
Arguments F64.of_Q : simpl never.
Arguments F64.to_Q : simpl never.
Arguments F64.sum : simpl never.
Arguments F64.mean : simpl never.
Arguments F64.corrcoef : simpl never.
Arguments F64.quantile : simpl never.

(** * Text *)

Definition is_digit (c : ascii) : bool :=
  (48 <=? nat_of_ascii c)%nat && (nat_of_ascii c <=? 57)%nat.

(** [n] digits at the head of [s]; the rest of the string on success. *)
Fixpoint eat_digits (n : nat) (s : string) : option string :=
  match n with
  | O => Some s
  | S n' =>
      match s with
      | String c s' => if is_digit c then eat_digits n' s' else None
      | EmptyString => None
      end
  end.

Definition eat_char (c : ascii) (s : string) : option string :=
  match s with
  | String c' s' => if Ascii.eqb c c' then Some s' else None
  | EmptyString => None
  end.

(** [re.match(r'\d{a}<sep>\d{b}<sep>\d{c}', s)]: a match anchored at the
    start of [s], anything may follow. *)
Definition match_date_pattern (a : nat) (sep : ascii) (b c : nat) (s : string) : bool :=
  notna (s1 ← eat_digits a s; s2 ← eat_char sep s1; s3 ← eat_digits b s2;
         s4 ← eat_char sep s3; eat_digits c s4).

(** The three patterns of [_is_date_column], in the source's order. *)
Definition date_patterns : list (string -> bool) :=
  [ match_date_pattern 4 "-" 2 2      (* YYYY-MM-DD *)
  ; match_date_pattern 2 "/" 2 4      (* MM/DD/YYYY *)
  ; match_date_pattern 2 "-" 2 4 ].   (* MM-DD-YYYY *)

(** [str.replace(r'[,$%]', '', regex=True)] *)
Fixpoint strip_formatting (s : string) : string :=
  match s with
  | EmptyString => EmptyString
  | String c s' =>
      if Ascii.eqb c "," || Ascii.eqb c "$" || Ascii.eqb c "%"
      then strip_formatting s'
      else String c (strip_formatting s')
  end.

(** [astype(str)] on a cell of an object column: the text itself, and the
    text of the missing marker for a missing cell.  The marker is taken to
    be NaN, which [read_csv] leaves for an empty field and which reads
    "nan"; a Python [None] placed in a frame would read "None". *)
Definition astype_str (o : option string) : string :=
  match o with Some s => s | None => "nan" end.

(** * DataFrames *)

(** A column ([pd.Series]) with its dtype.  An object column holds text
    (the [str] of its cells); [None] is the missing marker. *)
Inductive column :=
| ObjCol (cells : list (option string))   (* dtype object *)
| NumCol (cells : list (option Q))        (* dtype int64 / float64 *)
| DateCol (cells : list (option Z))       (* dtype datetime64[ns] *)
| BoolCol (cells : list bool).            (* dtype bool *)

Record DataFrame := mkDataFrame
  { index : list Z                        (* row labels *)
  ; columns : list (string * column) }.   (* columns, in order *)

(** A single cell, for comparing whole rows. *)
Inductive cell :=
| CNA
| CStr (s : string)
| CNum (q : Q)
| CDate (z : Z)
| CBool (b : bool).

Definition cell_eqb (a b : cell) : bool :=
  match a, b with
  | CNA, CNA => true
  | CStr s, CStr s' => String.eqb s s'
  | CNum q, CNum q' => Qeq_bool q q'
  | CDate z, CDate z' => Z.eqb z z'
  | CBool x, CBool y => Bool.eqb x y
  | _, _ => false
  end.

Definition opt_cell {A} (f : A -> cell) (o : option A) : cell :=
  match o with Some a => f a | None => CNA end.

Definition col_cells (c : column) : list cell :=
  match c with
  | ObjCol l => map (opt_cell CStr) l
  | NumCol l => map (opt_cell CNum) l
  | DateCol l => map (opt_cell CDate) l
  | BoolCol l => map CBool l
  end.

(** [series.notna()] *)
Definition col_notna (c : column) : list bool :=
  match c with
  | ObjCol l => map notna l
  | NumCol l => map notna l
  | DateCol l => map notna l
  | BoolCol l => map (fun _ => true) l
  end.

(** [series.isnull().sum()] *)
Definition col_isnull_sum (c : column) : nat :=
  match c with
  | ObjCol l => isnull_sum l
  | NumCol l => isnull_sum l
  | DateCol l => isnull_sum l
  | BoolCol _ => 0
  end.

(** Boolean indexing [xs[mask]]: the positions where the mask holds. *)
Fixpoint take_mask {A} (mask : list bool) (xs : list A) : list A :=
  match mask, xs with
  | b :: mask', x :: xs' => if b then x :: take_mask mask' xs' else take_mask mask' xs'
  | _, _ => []
  end.

Definition col_take (mask : list bool) (c : column) : column :=
  match c with
  | ObjCol l => ObjCol (take_mask mask l)
  | NumCol l => NumCol (take_mask mask l)
  | DateCol l => DateCol (take_mask mask l)
  | BoolCol l => BoolCol (take_mask mask l)
  end.

(** [len(df)] *)
Definition len (df : DataFrame) : nat := length (index df).

(** [df.columns] *)
Definition column_names (df : DataFrame) : list string := (columns df).*1.

Fixpoint assoc {A} (name : string) (cols : list (string * A)) : option A :=
  match cols with
  | [] => None
  | (n, c) :: cols' => if String.eqb n name then Some c else assoc name cols'
  end.

(** [df[name]]: the column of that name, a [KeyError] when there is none.
    Column names are distinct in the data model; among repeated names the
    first column is read. *)
Definition getitem (df : DataFrame) (name : string) : res column :=
  match assoc name (columns df) with
  | Some c => Ok c
  | None => Raise (KeyError name)
  end.

Fixpoint assoc_set {A} (name : string) (c : A) (cols : list (string * A)) : list (string * A) :=
  match cols with
  | [] => [(name, c)]
  | (n, c') :: cols' =>
      if String.eqb n name then (n, c) :: cols' else (n, c') :: assoc_set name c cols'
  end.

(** [df[name] = c]: replaces the column in place, appends a new one. *)
Definition setitem (name : string) (c : column) (df : DataFrame) : DataFrame :=
  mkDataFrame (index df) (assoc_set name c (columns df)).

(** [df.drop(columns=[name])] *)
Definition drop_column (name : string) (df : DataFrame) : DataFrame :=
  mkDataFrame (index df)
    (List.filter (fun nc => negb (String.eqb nc.1 name)) (columns df)).

(** [df[mask]]: the rows where the mask holds, labels kept. *)
Definition take_rows (mask : list bool) (df : DataFrame) : DataFrame :=
  mkDataFrame (take_mask mask (index df))
    (map (fun nc => (nc.1, col_take mask nc.2)) (columns df)).

(** [df.dropna(subset=[name])] for a column [c = df[name]] *)
Definition dropna_subset (c : column) (df : DataFrame) : DataFrame :=
  take_rows (col_notna c) df.

(** Row [i] of the frame, one cell per column. *)
Definition row (df : DataFrame) (i : nat) : list cell :=
  map (fun nc => nth i (col_cells nc.2) CNA) (columns df).

Definition rows (df : DataFrame) : list (list cell) :=
  map (row df) (seq 0 (len df)).

Fixpoint row_eqb (r r' : list cell) : bool :=
  match r, r' with
  | [], [] => true
  | a :: r1, b :: r1' => cell_eqb a b && row_eqb r1 r1'
  | _, _ => false
  end.

(** [df.dropna(how='all')]: a row is kept when some cell of it is present
    ([notna(df).any(axis=1)]; no row of a frame without columns is). *)
Definition dropna_rows_all (df : DataFrame) : DataFrame :=
  take_rows (map (existsb (fun c => negb (cell_eqb c CNA))) (rows df)) df.

(** [df.dropna(axis=1, how='all')]: a column is kept when some cell of it is
    present. *)
Definition dropna_columns_all (df : DataFrame) : DataFrame :=
  mkDataFrame (index df)
    (List.filter (fun nc => existsb (fun b => b) (col_notna nc.2)) (columns df)).

(** The mask [~df.duplicated()]: a row is kept unless an earlier row equals
    it (missing markers compare equal). *)
Fixpoint first_occurrences (seen : list (list cell)) (rs : list (list cell)) : list bool :=
  match rs with
  | [] => []
  | r :: rs' =>
      if existsb (row_eqb r) seen
      then false :: first_occurrences seen rs'
      else true :: first_occurrences (r :: seen) rs'
  end.

(** [df.drop_duplicates()]; pandas returns a copy of an empty frame (no row
    or no column) as it is. *)
Definition drop_duplicates (df : DataFrame) : DataFrame :=
  match index df, columns df with
  | [], _ | _, [] => df
  | _, _ => take_rows (first_occurrences [] (rows df)) df
  end.

(** [df.select_dtypes(include=[np.number]).columns] *)
Definition numeric_columns (df : DataFrame) : list string :=
  omap (fun nc => match nc.2 with NumCol _ => Some nc.1 | _ => None end) (columns df).

(** [df.select_dtypes(include=['object', 'category']).columns] *)
Definition categorical_columns (df : DataFrame) : list string :=
  omap (fun nc => match nc.2 with ObjCol _ => Some nc.1 | _ => None end) (columns df).

(** [series.notna().sum()] *)
Definition notna_sum {A} (l : list (option A)) : nat :=
  length (List.filter notna l).

(** ** The mode of a text column *)

Definition occurrences (s : string) (l : list string) : nat :=
  length (List.filter (String.eqb s) l).

Definition max_occurrences (l : list string) : nat :=
  foldr Nat.max 0 (map (fun s => occurrences s l) l).

Fixpoint insert_string (x : string) (l : list string) : list string :=
  match l with
  | [] => [x]
  | y :: l' => if String.leb x y then x :: l else y :: insert_string x l'
  end.

Definition sort_strings (l : list string) : list string := foldr insert_string [] l.

(** [Series.mode()]: the most frequent non-missing values, each once, sorted. *)
Definition mode (col : list (option string)) : list string :=
  let v := dropna col in
  sort_strings
    (remove_dups (List.filter (fun s => occurrences s v =? max_occurrences v)%nat v)).

(** ** Loops that may raise *)

(** [for x in xs: s = body(s, x)], stopping at the first exception. *)
Fixpoint for_each {S A} (body : S -> A -> res S) (s : S) (xs : list A) : res S :=
  match xs with
  | [] => Ok s
  | x :: xs' => s' ← body s x; for_each body s' xs'
  end.

(** * A store of DataFrame objects

    Python variables hold references.  [df.copy()], [df.dropna(...)],
    [df.drop(...)], [df.drop_duplicates()] and [df[mask]] build a new object;
    [df[column] = ...] updates the object [df] refers to.  A computation in
    [M] runs on the store, may allocate and update, and ends with a value or
    an exception; the store reached is kept in both cases. *)

Definition loc := nat.

Definition M (A : Type) : Type := gmap loc DataFrame -> res A * gmap loc DataFrame.

#[global] Instance M_ret : MRet M := fun _ a σ => (Ok a, σ).
#[global] Instance M_bind : MBind M := fun _ _ f m σ =>
  match m σ with
  | (Ok a, σ') => f a σ'
  | (Raise e, σ') => (Raise e, σ')
  end.

(** An exception or value computed without touching the store. *)
Definition lift {A} (r : res A) : M A := fun σ => (r, σ).

(** The frame a reference points to.  Python has no dangling reference;
    the second branch only makes the function total. *)
Definition deref (l : loc) : M DataFrame := fun σ =>
  match σ !! l with
  | Some df => (Ok df, σ)
  | None => (Raise (ValueError "dangling reference"), σ)
  end.

(** A new object. *)
Definition alloc (df : DataFrame) : M loc := fun σ =>
  let l := fresh (dom σ) in (Ok l, <[l := df]> σ).

(** [df.copy()] *)
Definition copy (l : loc) : M loc := df ← deref l; alloc df.

(** A pandas call on [l] that returns a new frame. *)
Definition derive (f : DataFrame -> DataFrame) (l : loc) : M loc :=
  df ← deref l; alloc (f df).

(** [df[name] = c], in place. *)
Definition setitem_inplace (l : loc) (name : string) (c : column) : M unit := fun σ =>
  match σ !! l with
  | Some df => (Ok (), <[l := setitem name c df]> σ)
  | None => (Raise (ValueError "dangling reference"), σ)
  end.

Fixpoint for_each_M {S A} (body : S -> A -> M S) (s : S) (xs : list A) : M S :=
  match xs with
  | [] => mret s
  | x :: xs' => s' ← body s x; for_each_M body s' xs'
  end.

(** * DataProcessor: the cleaning methods as functions of the local frame

    Each method works on its local [df_copy]; here that local variable is
    threaded through the loop, whether the source re-binds it
    ([df_copy = df_copy.drop(...)]) or updates it in place
    ([df_copy[column] = ...]).  The store-level reading of the same methods,
    which tells the two apart, is [Store] below. *)

Record Options := mkOptions
  { missing_strategy : option string     (* options.get('missing_strategy', 'auto') *)
  ; remove_duplicates : option bool      (* options.get('remove_duplicates', True) *)
  ; remove_outliers : option bool }.     (* options.get('remove_outliers', False) *)

Definition no_options : Options := mkOptions None None None.

Section DataProcessor.

(** [pd.to_numeric(text, errors='coerce')] on one cell: [None] is [NaN]. *)
Variable to_numeric : string -> option Q.
(** [pd.to_datetime(text, errors='coerce')] on one cell: [None] is [NaT].
    With [errors='coerce'] neither call raises, so the [except] branches of
    [_convert_data_types] are not taken. *)
Variable to_datetime : string -> option Z.
(** [Series.median()] of a datetime column. *)
Variable median_datetime : list (option Z) -> option Z.

(** [_is_date_column]: some value among the first ten non-missing ones
    starts with one of the date patterns. *)
Definition _is_date_column (series : list (option string)) : bool :=
  existsb (fun value_str => existsb (fun pattern => pattern value_str) date_patterns)
    (take 10 (dropna series)).

(** The ['auto'] fill of a column that is kept. *)
Definition fill_auto (c : column) : column :=
  match c with
  | ObjCol l =>
      match mode l with
      | mode_value0 :: _ => ObjCol (fillna mode_value0 l)
      | [] => ObjCol (fillna "Unknown" l)
      end
  | NumCol l => NumCol (match median l with Some m => fillna m l | None => l end)
  | DateCol l => DateCol (match median_datetime l with Some m => fillna m l | None => l end)
  | BoolCol l => BoolCol l
  end.

Definition col_ffill (c : column) : column :=
  match c with
  | ObjCol l => ObjCol (ffill l)
  | NumCol l => NumCol (ffill l)
  | DateCol l => DateCol (ffill l)
  | BoolCol l => BoolCol l
  end.

Definition col_bfill (c : column) : column :=
  match c with
  | ObjCol l => ObjCol (bfill l)
  | NumCol l => NumCol (bfill l)
  | DateCol l => DateCol (bfill l)
  | BoolCol l => BoolCol l
  end.

(** One iteration of the loop of [_handle_missing_values].
    [missing_pct > 0.5] is [2 * nulls > len(df_copy)]. *)
Definition handle_missing_step (strategy : string)
    (df_copy : DataFrame) (column : string) : res DataFrame :=
  c ← getitem df_copy column;
  if (col_isnull_sum c =? 0)%nat then Ok df_copy
  else if String.eqb strategy "auto" then
    if (len df_copy <? 2 * col_isnull_sum c)%nat
    then Ok (drop_column column df_copy)
    else Ok (setitem column (fill_auto c) df_copy)
  else if String.eqb strategy "drop" then Ok (dropna_subset c df_copy)
  else if String.eqb strategy "forward_fill" then Ok (setitem column (col_ffill c) df_copy)
  else if String.eqb strategy "backward_fill" then Ok (setitem column (col_bfill c) df_copy)
  else Ok df_copy.

Definition _handle_missing_values (df : DataFrame) (strategy : string) : res DataFrame :=
  for_each (handle_missing_step strategy) df (column_names df).

(** The numeric reading of a text column:
    [pd.to_numeric(col.astype(str).str.replace(r'[,$%]', ''), errors='coerce')]. *)
Definition numeric_series (cells : list (option string)) : list (option Q) :=
  map (fun o => to_numeric (strip_formatting (astype_str o))) cells.

(** [numeric_series.notna().sum() / len(numeric_series) > 0.8] *)
Definition mostly_numeric (numeric : list (option Q)) : bool :=
  (4 * length numeric <? 5 * notna_sum numeric)%nat.

(** One iteration of the loop of [_convert_data_types]. *)
Definition convert_step (df_copy : DataFrame) (column : string) : res DataFrame :=
  c ← getitem df_copy column;
  match c with
  | ObjCol cells =>
      if _is_date_column cells
      then Ok (setitem column (DateCol (map (fun o => o ≫= to_datetime) cells)) df_copy)
      else if mostly_numeric (numeric_series cells)
      then Ok (setitem column (NumCol (numeric_series cells)) df_copy)
      else Ok df_copy
  | _ => Ok df_copy
  end.

Definition _convert_data_types (df : DataFrame) : res DataFrame :=
  for_each convert_step df (column_names df).

(** The row mask [(col >= lower_bound) & (col <= upper_bound)], in
    binary64; a comparison with a missing cell, or with a bound that is NaN,
    is false. *)
Definition within (lower_bound upper_bound : spec_float) (o : option Q) : bool :=
  match o with
  | Some v => F64.leb lower_bound (F64.of_Q v) && F64.leb (F64.of_Q v) upper_bound
  | None => false
  end.

(** [Q1 - 1.5 * IQR] and [Q3 + 1.5 * IQR], as the code computes them. *)
Definition iqr_bounds (cells : list (option Q)) : spec_float * spec_float :=
  let Q1 := F64.quantile (1 # 4) cells in
  let Q3 := F64.quantile (3 # 4) cells in
  let IQR := F64.sub Q3 Q1 in
  ( F64.sub Q1 (F64.mul (F64.of_Q (3 # 2)) IQR)
  , F64.add Q3 (F64.mul (F64.of_Q (3 # 2)) IQR) ).

Definition iqr_mask (cells : list (option Q)) : list bool :=
  map (within (iqr_bounds cells).1 (iqr_bounds cells).2) cells.

(** The row mask [abs((col - col.mean()) / col.std()) < 3], in binary64.
    pandas takes the mean as the sum of the values, a missing one counting
    as [0.0], over the number of present ones, and the standard deviation
    from the sum of the squared deviations from that mean over one less
    than that number (NaN with fewer than two values); this is pandas' own
    computation, without the optional bottleneck package.  A comparison
    with NaN, or with a missing cell, is false. *)
Definition zscore_mask (cells : list (option Q)) : list bool :=
  let count := length (dropna cells) in
  let values := map (fun o => match o with Some x => F64.of_Q x | None => F64.zero end) cells in
  let mean := F64.div (F64.sum values) (F64.of_nat count) in
  let sqr :=
    map (fun o => match o with
                  | Some x => F64.mul (F64.sub mean (F64.of_Q x)) (F64.sub mean (F64.of_Q x))
                  | None => F64.zero
                  end) cells in
  let var := if (count <=? 1)%nat then F64.nan
             else F64.div (F64.sum sqr) (F64.of_nat (count - 1)) in
  let std := F64.sqrt var in
  map (fun o =>
         match o with
         | Some x =>
             F64.ltb (F64.abs (F64.div (F64.sub (F64.of_Q x) mean) std)) (F64.of_Z 3)
         | None => false
         end) cells.

(** One iteration of the loop of [_remove_outliers]. *)
Definition outlier_step (method : string)
    (df_copy : DataFrame) (column : string) : res DataFrame :=
  c ← getitem df_copy column;
  match c with
  | NumCol cells =>
      if String.eqb method "iqr" then Ok (take_rows (iqr_mask cells) df_copy)
      else if String.eqb method "zscore" then Ok (take_rows (zscore_mask cells) df_copy)
      else Ok df_copy
  | _ => Raise (TypeError "not a numeric column")
  end.

Definition _remove_outliers (df : DataFrame) (method : string) : res DataFrame :=
  for_each (outlier_step method) df (numeric_columns df).

(** [clean_dataframe] *)
Definition clean_dataframe (df : DataFrame) (options : option Options) : res DataFrame :=
  let options := default no_options options in
  let df_cleaned := dropna_columns_all (dropna_rows_all df) in
  df_cleaned ← _handle_missing_values df_cleaned
                 (default "auto" (missing_strategy options));
  df_cleaned ← _convert_data_types df_cleaned;
  let df_cleaned :=
    if default true (remove_duplicates options)
    then drop_duplicates df_cleaned else df_cleaned in
  if default false (remove_outliers options)
  then _remove_outliers df_cleaned "iqr"
  else Ok df_cleaned.

End DataProcessor.

(** * DataProcessor: the same methods on the store

    The methods again, with references: which calls build a new frame and
    which update [df_copy] in place is as in the source. *)

Module Store.
Section Methods.

Variable to_numeric : string -> option Q.
Variable to_datetime : string -> option Z.
Variable median_datetime : list (option Z) -> option Z.

Definition handle_missing_step (strategy : string)
    (df_copy : loc) (column : string) : M loc :=
  d ← deref df_copy;
  c ← lift (getitem d column);
  if (col_isnull_sum c =? 0)%nat then mret df_copy
  else if String.eqb strategy "auto" then
    if (len d <? 2 * col_isnull_sum c)%nat
    then derive (drop_column column) df_copy
    else (setitem_inplace df_copy column (fill_auto median_datetime c);; mret df_copy)
  else if String.eqb strategy "drop" then derive (dropna_subset c) df_copy
  else if String.eqb strategy "forward_fill"
  then (setitem_inplace df_copy column (col_ffill c);; mret df_copy)
  else if String.eqb strategy "backward_fill"
  then (setitem_inplace df_copy column (col_bfill c);; mret df_copy)
  else mret df_copy.

Definition _handle_missing_values (df : loc) (strategy : string) : M loc :=
  df_copy ← copy df;
  d ← deref df_copy;
  for_each_M (handle_missing_step strategy) df_copy (column_names d).

Definition convert_step (df_copy : loc) (column : string) : M loc :=
  d ← deref df_copy;
  c ← lift (getitem d column);
  match c with
  | ObjCol cells =>
      if _is_date_column cells
      then (setitem_inplace df_copy column
              (DateCol (map (fun o => o ≫= to_datetime) cells));; mret df_copy)
      else if mostly_numeric (numeric_series to_numeric cells)
      then (setitem_inplace df_copy column
              (NumCol (numeric_series to_numeric cells));; mret df_copy)
      else mret df_copy
  | _ => mret df_copy
  end.

Definition _convert_data_types (df : loc) : M loc :=
  df_copy ← copy df;
  d ← deref df_copy;
  for_each_M convert_step df_copy (column_names d).

Definition outlier_step (method : string) (df_copy : loc) (column : string) : M loc :=
  d ← deref df_copy;
  c ← lift (getitem d column);
  match c with
  | NumCol cells =>
      if String.eqb method "iqr" then derive (take_rows (iqr_mask cells)) df_copy
      else if String.eqb method "zscore" then derive (take_rows (zscore_mask cells)) df_copy
      else mret df_copy
  | _ => lift (Raise (TypeError "not a numeric column"))
  end.

Definition _remove_outliers (df : loc) (method : string) : M loc :=
  df_copy ← copy df;
  d ← deref df_copy;
  for_each_M (outlier_step method) df_copy (numeric_columns d).

Definition clean_dataframe (df : loc) (options : option Options) : M loc :=
  let options := default no_options options in
  df_cleaned ← copy df;
  df_cleaned ← derive dropna_rows_all df_cleaned;
  df_cleaned ← derive dropna_columns_all df_cleaned;
  df_cleaned ← _handle_missing_values df_cleaned
                 (default "auto" (missing_strategy options));
  df_cleaned ← _convert_data_types df_cleaned;
  df_cleaned ← (if default true (remove_duplicates options)
                then derive drop_duplicates df_cleaned else mret df_cleaned);
  if default false (remove_outliers options)
  then _remove_outliers df_cleaned "iqr"
  else mret df_cleaned.

End Methods.
End Store.

(** * DataProcessor: the instance and [prepare_for_ml]

    The instance holds two dictionaries, [self.scalers] and [self.encoders].
    A method is a computation on the instance: it may update the
    dictionaries and ends with a value or an exception. *)

(** [sklearn.preprocessing.LabelEncoder]: the sorted distinct labels. *)
Record LabelEncoder := mkLabelEncoder { classes_ : list string }.

Definition label_fit (values : list string) : LabelEncoder :=
  mkLabelEncoder (sort_strings (remove_dups values)).

Fixpoint index_of (s : string) (l : list string) : nat :=
  match l with
  | [] => 0
  | x :: l' => if String.eqb x s then 0 else S (index_of s l')
  end.

Definition label_transform (le : LabelEncoder) (values : list string) : list (option Q) :=
  map (fun s => Some (inject_Z (Z.of_nat (index_of s (classes_ le))))) values.

Section Instance.

(** A fitted [StandardScaler], and [StandardScaler().fit_transform] on the
    numeric columns of a frame that has a row: the fitted scaler and the
    scaled columns.  (On a frame without rows sklearn's input validation
    raises a [ValueError]; [prepare_frame] has the test.) *)
Variable Scaler : Type.
Variable scaler_fit_transform :
  list (list (option Q)) -> Scaler * list (list (option Q)).

Record DataProcessor := mkDataProcessor
  { scalers : gmap string Scaler
  ; encoders : gmap string LabelEncoder }.

(** [DataProcessor.__init__] *)
Definition __init__ : DataProcessor := mkDataProcessor ∅ ∅.

Definition SM (A : Type) : Type := DataProcessor -> res A * DataProcessor.

#[global] Instance SM_ret : MRet SM := fun _ a self => (Ok a, self).
#[global] Instance SM_bind : MBind SM := fun _ _ f m self =>
  match m self with
  | (Ok a, self') => f a self'
  | (Raise e, self') => (Raise e, self')
  end.

Definition lift_SM {A} (r : res A) : SM A := fun self => (r, self).

(** [self.encoders[col] = le] *)
Definition set_encoder (col : string) (le : LabelEncoder) : SM unit := fun self =>
  (Ok (), mkDataProcessor (scalers self) (<[col := le]> (encoders self))).

(** [self.scalers[key] = scaler] *)
Definition set_scaler (key : string) (scaler : Scaler) : SM unit := fun self =>
  (Ok (), mkDataProcessor (<[key := scaler]> (scalers self)) (encoders self)).

Definition get_self : SM DataProcessor := fun self => (Ok self, self).

Fixpoint for_each_SM {S A} (body : S -> A -> SM S) (s : S) (xs : list A) : SM S :=
  match xs with
  | [] => mret s
  | x :: xs' => s' ← body s x; for_each_SM body s' xs'
  end.

(** The dictionary [prepare_for_ml] returns.  ['encoders'] and ['scalers']
    are the instance's own dictionaries, here with the entries they hold
    when the method returns. *)
Record MLResult := mkMLResult
  { data : DataFrame
  ; result_encoders : gmap string LabelEncoder
  ; result_scalers : gmap string Scaler
  ; feature_columns : list string
  ; target_column : option string }.

(** [col == target_column] *)
Definition is_target (target_column : option string) (col : string) : bool :=
  match target_column with
  | Some t => String.eqb col t
  | None => false
  end.

(** One iteration of the encoding loop.  The columns come from
    [select_dtypes(include=['object', 'category'])], so the column read is
    a text column. *)
Definition encode_step (target_column : option string)
    (df_ml : DataFrame) (col : string) : SM DataFrame :=
  if is_target target_column col then mret df_ml
  else
    c ← lift_SM (getitem df_ml col);
    match c with
    | ObjCol cells =>
        let values := map astype_str cells in
        let le := label_fit values in
        set_encoder col le;;
        mret (setitem col (NumCol (label_transform le values)) df_ml)
    | _ => lift_SM (Raise (TypeError "not a text column"))
    end.

(** [df_ml[numeric_cols] = scaled], column by column. *)
Fixpoint set_columns (names : list string) (cols : list (list (option Q)))
    (df : DataFrame) : DataFrame :=
  match names, cols with
  | n :: names', c :: cols' => set_columns names' cols' (setitem n (NumCol c) df)
  | _, _ => df
  end.

Definition numeric_cells (df : DataFrame) (name : string) : list (option Q) :=
  match assoc name (columns df) with
  | Some (NumCol l) => l
  | _ => []
  end.

(** The statements of [prepare_for_ml] before its [return]: the frame
    [df_ml] they build, the fitted encoders and scaler being stored in the
    instance on the way.  The scaler refuses a frame without rows. *)
Definition prepare_frame (df : DataFrame) (target_column : option string) : SM DataFrame :=
  df_ml ← for_each_SM (encode_step target_column) df (categorical_columns df);
  let numeric_cols := numeric_columns df_ml in
  let numeric_cols :=
    match target_column with
    | Some t =>
        if negb (String.eqb t "") && existsb (String.eqb t) numeric_cols
        then List.filter (fun n => negb (String.eqb n t)) numeric_cols
        else numeric_cols
    | None => numeric_cols
    end in
  match numeric_cols with
  | [] => mret df_ml
  | _ =>
      if (len df_ml =? 0)%nat
      then lift_SM (Raise (ValueError "Found array with 0 sample(s)"))
      else
        let fitted := scaler_fit_transform (map (numeric_cells df_ml) numeric_cols) in
        set_scaler "features" fitted.1;;
        mret (set_columns numeric_cols fitted.2 df_ml)
  end.

Definition prepare_for_ml (df : DataFrame) (target_column : option string) : SM MLResult :=
  df_ml ← prepare_frame df target_column;
  self ← get_self;
  mret (mkMLResult df_ml (encoders self) (scalers self)
          (List.filter (fun col => negb (is_target target_column col)) (column_names df_ml))
          target_column).

End Instance.

Arguments scalers {Scaler} _.
Arguments encoders {Scaler} _.
Arguments lift_SM {Scaler A} r.
Arguments set_encoder {Scaler} col le.
Arguments set_scaler {Scaler} key scaler.
Arguments get_self {Scaler}.
Arguments for_each_SM {Scaler S A} body s xs.
Arguments encode_step {Scaler} target_column df_ml col.
Arguments data {Scaler} _.
Arguments result_encoders {Scaler} _.
Arguments result_scalers {Scaler} _.
Arguments feature_columns {Scaler} _.
Arguments target_column {Scaler} _.
Arguments prepare_frame {Scaler} scaler_fit_transform df target_column.
Arguments prepare_for_ml {Scaler} scaler_fit_transform df target_column.

(** * ChartGenerator: encoding a figure *)

Module Chart.

(** ** Base64 *)

Definition alphabet : string :=
  "ABCDEFGHIJKLMNOPQRSTUVWXYZabcdefghijklmnopqrstuvwxyz0123456789+/".

Definition sextet (n : N) : ascii :=
  match String.get (N.to_nat (n mod 64)) alphabet with
  | Some c => c
  | None => "="%char
  end.

(** [base64.b64encode(data).decode('utf-8')] *)
Fixpoint b64encode (data : list Byte.byte) : string :=
  match data with
  | [] => ""
  | [a] =>
      let n := (Byte.to_N a * 65536)%N in
      String (sextet (n / 262144)) (String (sextet (n / 4096)) "==")
  | [a; b] =>
      let n := (Byte.to_N a * 65536 + Byte.to_N b * 256)%N in
      String (sextet (n / 262144)) (String (sextet (n / 4096))
        (String (sextet (n / 64)) "="))
  | a :: b :: c :: data' =>
      let n := (Byte.to_N a * 65536 + Byte.to_N b * 256 + Byte.to_N c)%N in
      String (sextet (n / 262144)) (String (sextet (n / 4096))
        (String (sextet (n / 64)) (String (sextet n) (b64encode data'))))
  end.

(** ** The generator *)

Record ChartGenerator := mkChartGenerator
  { figure_size : Z * Z
  ; dpi : Z
  ; max_size_bytes : Z }.

(** [ChartGenerator.__init__] *)
Definition __init__ : ChartGenerator := mkChartGenerator (10, 6)%Z 100 100000.

Section Render.

(** [fig.savefig(buffer, format='png', dpi=d, ...)] followed by
    [buffer.getvalue()]: the PNG bytes of the figure at resolution [d]. *)
Variable savefig : Z -> list Byte.byte.

(** What one call of [_fig_to_base64] does: the resolutions it rendered
    at, in order, the image bytes it kept, and the string it returns. *)
Record Encoded := mkEncoded
  { renders : list Z
  ; img_data : list Byte.byte
  ; uri : string }.

Definition _fig_to_base64 (self : ChartGenerator) : Encoded :=
  let img_data := savefig (dpi self) in
  if (max_size_bytes self <? Z.of_nat (length img_data))%Z
  then
    let img_data := savefig 50 in
    mkEncoded [dpi self; 50%Z] img_data ("data:image/png;base64," +:+ b64encode img_data)
  else
    mkEncoded [dpi self] img_data ("data:image/png;base64," +:+ b64encode img_data).

End Render.

End Chart.

(** * DataAnalystAgent: plans, computations and the response *)

Module Agent.

(** A decoded JSON value. *)
#[warnings="-register-all"]
Inductive json :=
| JNull
| JBool (b : bool)
| JNum (q : Q)
| JStr (s : string)
| JArr (items : list json)
| JObj (fields : list (string * json)).

(** What a request's file bundle holds under a name: a table, the text of a
    plain-text file, or a dictionary (image metadata, a JSON object) or list
    (other JSON). *)
Inductive payload :=
| PFrame (df : DataFrame)
| PText (content : string)
| PDict (d : list (string * json))
| PList (items : list json).

(** One entry of the plan's computation list, as [comp.get] reads it. *)
Record computation := mkComputation
  { comp_type : option string        (* comp.get('type') *)
  ; data_source : option string      (* comp.get('data_source') *)
  ; comp_columns : list string }.    (* comp.get('columns', []) *)

(** A value stored in the dictionary [_perform_computations] returns. *)
Inductive computed :=
| Correlation (corr_value : option R)                     (* [None] is NaN *)
| Regression (r_squared : option Q) (coefficient intercept : Q)
| ComputationError (e : exn).                             (* [str(e)] *)

(** A value of the response dictionary. *)
Inductive value :=
| VJson (j : json)
| VComputed (c : computed)
| VFailure (e : exn)                   (* "Analysis failed: " + str(e) *)
| VChart (data_uri : string).

(** ** Statistics *)

(** The rows where both cells are present. *)
Fixpoint paired (a b : list (option Q)) : list (Q * Q) :=
  match a, b with
  | x :: a', y :: b' =>
      match x, y with
      | Some u, Some v => (u, v) :: paired a' b'
      | _, _ => paired a' b'
      end
  | _, _ => []
  end.

(** Sum of products of deviations from the means. *)
Definition codev (u v : list Q) : Q :=
  let mu := mean u in
  let mv := mean v in
  Qsum (zip_with (fun x y => (x - mu) * (y - mv))%Q u v).

(** What binary64 leaves of a coefficient that is 0/0 in exact arithmetic:
    [np.corrcoef] on the binary64 values, NaN being [None].  (The result is
    clipped to [-1, 1], so it is never an infinity.) *)
Definition rounded_corr (u v : list Q) : option R :=
  Q2R <$> F64.to_Q (F64.corrcoef (map F64.of_Q u) (map F64.of_Q v)).

(** [Series.corr]: Pearson's coefficient over the rows where both values
    are present.  Where both sides vary over these rows the coefficient is
    given in exact arithmetic, which binary64 follows to rounding.  Where a
    side does not vary (or there is no row) the exact quotient is 0/0 and
    the result is decided by rounding: numpy's computation is followed in
    binary64.  It is NaN when the computed deviations vanish and a number
    otherwise; it warns and does not raise. *)
Definition corr (a b : list (option Q)) : option R :=
  let ps := paired a b in
  let u := ps.*1 in
  let v := ps.*2 in
  if Qeq_bool (codev u u * codev v v) 0
  then rounded_corr u v
  else Some (Q2R (codev u v) / sqrt (Q2R (codev u u * codev v v)))%R.

(** [LinearRegression().fit(X, y)] with one predictor: the least-squares
    slope (zero when the predictor is constant) and intercept. *)
Definition ols (x y : list Q) : Q * Q :=
  let slope := if Qeq_bool (codev x x) 0 then 0%Q else (codev x y / codev x x)%Q in
  (slope, (mean y - slope * mean x)%Q).

(** The residual sum of squares of the line [slope * x + intercept]. *)
Definition ss_res (slope intercept : Q) (x y : list Q) : Q :=
  Qsum (zip_with (fun xi yi => (yi - (slope * xi + intercept))
                               * (yi - (slope * xi + intercept)))%Q x y).

(** [model.score(X, y)]: the coefficient of determination; NaN with fewer
    than two samples; with a constant [y], 1 for a perfect fit and 0
    otherwise. *)
Definition r2_score (slope intercept : Q) (x y : list Q) : option Q :=
  let ss_tot := codev y y in
  if (length y <? 2)%nat then None
  else if Qeq_bool ss_tot 0
  then Some (if Qeq_bool (ss_res slope intercept x y) 0 then 1%Q else 0%Q)
  else Some (1 - ss_res slope intercept x y / ss_tot)%Q.

Section Computations.

(** Python's [float(text)], which numpy applies to the cells of an object
    column: [None] is a [ValueError]. *)
Variable float_of_str : string -> option Q.

(** The cells of a column as floats, as sklearn's input validation reads
    them. *)
Definition as_floats (c : column) : res (list (option Q)) :=
  match c with
  | NumCol l => Ok l
  | BoolCol l => Ok (map (fun b : bool => Some (if b then 1%Q else 0%Q)) l)
  | ObjCol l =>
      if forallb (fun o => match o with Some s => notna (float_of_str s) | None => true end) l
      then Ok (map (fun o => o ≫= float_of_str) l)
      else Raise (ValueError "could not convert string to float")
  | DateCol _ => Raise (TypeError "datetime column")
  end.

(** [data[name]] on a payload. *)
Definition index_payload (data : payload) (name : string) : res column :=
  match data with
  | PFrame df => getitem df name
  | PText _ => Raise (TypeError "string indices must be integers")
  | PList _ => Raise (TypeError "list indices must be integers or slices")
  | PDict d =>
      match assoc name d with
      | Some _ => Raise (AttributeError "not a Series")
      | None => Raise (KeyError name)
      end
  end.

(** The cells of a column as [Series.corr] reads them,
    [to_numpy(dtype=float, na_value=np.nan)]: a date is read as its count of
    nanoseconds. *)
Definition to_numpy_float (c : column) : res (list (option Q)) :=
  match c with
  | DateCol l => Ok (map (fun o => inject_Z <$> o) l)
  | _ => as_floats c
  end.

(** [data[a].corr(data[b])] *)
Definition correlation (data : payload) (a b : string) : res (option R) :=
  ca ← index_payload data a;
  cb ← index_payload data b;
  xa ← to_numpy_float ca;
  xb ← to_numpy_float cb;
  Ok (corr xa xb).

(** The fit of the regression branch.  sklearn refuses missing values and
    an empty sample. *)
Definition regression (data : payload) (a b : string) : res computed :=
  ca ← index_payload data a;
  cb ← index_payload data b;
  X ← as_floats ca;
  y ← as_floats cb;
  if negb (forallb notna X && forallb notna y)
  then Raise (ValueError "Input contains NaN")
  else if (length X =? 0)%nat
  then Raise (ValueError "Found array with 0 sample(s)")
  else
    let m := ols (dropna X) (dropna y) in
    Ok (Regression (r2_score m.1 m.2 (dropna X) (dropna y)) m.1 m.2).

(** The keys of the result dictionary. *)
Definition key_correlation (a b : string) : string := "correlation_" +:+ a +:+ "_" +:+ b.
Definition key_regression (a b : string) : string := "regression_" +:+ a +:+ "_" +:+ b.
Definition key_error (comp_type : option string) : string :=
  "computation_error_" +:+ default "None" comp_type.

(** The body of the loop of [_perform_computations]: what one computation
    does to the results collected so far. *)
Definition perform_step (data_files : gmap string payload)
    (results : gmap string computed) (comp : computation) : gmap string computed :=
  match data_source comp ≫= (data_files !!.) with
  | None => results                                      (* continue *)
  | Some data =>
      match comp_columns comp with
      | a :: b :: _ =>
          if decide (comp_type comp = Some "correlation") then
            match correlation data a b with
            | Ok r => <[key_correlation a b := Correlation r]> results
            | Raise e => <[key_error (comp_type comp) := ComputationError e]> results
            end
          else if decide (comp_type comp = Some "regression") then
            match regression data a b with
            | Ok r => <[key_regression a b := r]> results
            | Raise e => <[key_error (comp_type comp) := ComputationError e]> results
            end
          else results
      | _ => results
      end
  end.

Definition _perform_computations (computations : list computation)
    (data_files : gmap string payload) : gmap string computed :=
  foldl (perform_step data_files) ∅ computations.

End Computations.

(** ** Reading the collaborator's response *)

(** The suffix of [s] that starts at its first ['{']. *)
Fixpoint from_first_open (s : string) : option string :=
  match s with
  | EmptyString => None
  | String c s' => if Ascii.eqb c "{" then Some s else from_first_open s'
  end.

(** The prefix of [s] that ends at its last ['}']. *)
Fixpoint upto_last_close (s : string) : option string :=
  match s with
  | EmptyString => None
  | String c s' =>
      match upto_last_close s' with
      | Some t => Some (String c t)
      | None => if Ascii.eqb c "}" then Some (String c EmptyString) else None
      end
  end.

(** [re.search(r'\{.*\}', text, re.DOTALL)]: from the first ['{'] to the
    last ['}'] after it. *)
Definition search_braces (text : string) : option string :=
  from_first_open text ≫= upto_last_close.

(** The fallback dictionary of [_parse_analysis_response]. *)
Definition fallback (response_text : string) : json :=
  JObj [ ("answers", JArr [JStr response_text])
       ; ("insights", JStr response_text)
       ; ("needs_visualization", JBool false)
       ; ("requires_computation", JBool false)
       ; ("success", JBool true) ].

(** Python truth of a decoded value. *)
Definition truthy (j : json) : bool :=
  match j with
  | JNull => false
  | JBool b => b
  | JNum q => negb (Qeq_bool q 0)
  | JStr s => negb (String.eqb s "")
  | JArr l => match l with [] => false | _ => true end
  | JObj l => match l with [] => false | _ => true end
  end.

(** A decoded object as a Python dictionary; a repeated key keeps its last
    value. *)
Definition dict_of (fields : list (string * json)) : gmap string value :=
  foldl (fun m kv => <[kv.1 := VJson kv.2]> m) ∅ fields.

(** [d.get(key, default)] read as a decoded value.  The keys read this way
    are those of the plan; a computed value, a chart or a failure is stored
    under other keys, and would be read as a true value. *)
Definition get_json (d : gmap string value) (key : string) (dflt : json) : json :=
  match d !! key with
  | Some (VJson j) => j
  | Some _ => JBool true
  | None => dflt
  end.

(** The computation dictionaries of a plan.  The fields are read as the
    response format documents them (a string, a string, a list of strings).
    A plan of another shape is outside the model, which lets it fail the
    analysis; the code fails when ['computations'] cannot be iterated and
    otherwise goes on. *)
Definition str_field (key : string) (fields : list (string * json)) : res (option string) :=
  match assoc key fields with
  | None | Some JNull => Ok None
  | Some (JStr s) => Ok (Some s)
  | Some _ => Raise (TypeError "plan field")
  end.

Fixpoint strings_of (items : list json) : res (list string) :=
  match items with
  | [] => Ok []
  | JStr s :: items' => l ← strings_of items'; Ok (s :: l)
  | _ :: _ => Raise (TypeError "plan field")
  end.

Definition computation_of (j : json) : res computation :=
  match j with
  | JObj fields =>
      t ← str_field "type" fields;
      src ← str_field "data_source" fields;
      cols ← match assoc "columns" fields with
             | None => Ok []
             | Some (JArr items) => strings_of items
             | Some _ => Raise (TypeError "plan field")
             end;
      Ok (mkComputation t src cols)
  | _ => Raise (AttributeError "get")
  end.

Fixpoint computations_of_items (items : list json) : res (list computation) :=
  match items with
  | [] => Ok []
  | j :: items' => c ← computation_of j; l ← computations_of_items items'; Ok (c :: l)
  end.

Definition computations_of (j : json) : res (list computation) :=
  match j with
  | JArr items => computations_of_items items
  | _ => Raise (TypeError "plan field")
  end.

Section Analysis.

Variable float_of_str : string -> option Q.
(** [json.loads]: [None] is a [JSONDecodeError]. *)
Variable json_loads : string -> option json.
(** The collaborator: the text it answers to the questions and the summary
    of the file bundle, or the exception of the call. *)
Variable chat_completion : string -> gmap string payload -> res string.
(** [ChartGenerator.generate_chart]: a data URI, or no chart. *)
Variable generate_chart : gmap string payload -> json -> option string.

(** [_parse_analysis_response] *)
Definition _parse_analysis_response (response_text : string) : json :=
  match search_braces response_text with
  | Some json_str =>
      match json_loads json_str with
      | Some parsed => parsed
      | None => fallback response_text          (* except json.JSONDecodeError *)
      end
  | None => fallback response_text
  end.

(** The dictionary of the [except] branch of [analyze]. *)
Definition failure (e : exn) : gmap string value :=
  <["error" := VFailure e]> (<["success" := VJson (JBool false)]> ∅).

(** [parsed_result.update(computed_results)] *)
Definition update (d : gmap string value) (computed_results : gmap string computed)
  : gmap string value :=
  (VComputed <$> computed_results) ∪ d.

(** [analyze] *)
Definition analyze (questions : string) (data_files : gmap string payload)
  : gmap string value :=
  match chat_completion questions data_files with
  | Raise e => failure e
  | Ok analysis_text =>
      match _parse_analysis_response analysis_text with
      | JObj fields =>
          let parsed_result := dict_of fields in
          if truthy (get_json parsed_result "requires_computation" (JBool false))
          then
            match computations_of (get_json parsed_result "computations" (JArr [])) with
            | Ok computations =>
                update parsed_result
                  (_perform_computations float_of_str computations data_files)
            | Raise e => failure e
            end
          else parsed_result
      | _ => failure (AttributeError "get")
      end
  end.

(** The request handler of [app.py] after ingestion: the analysis, then the
    chart when the analysis asks for one. *)
Definition analyze_data (questions : string) (data_files : gmap string payload)
  : gmap string value :=
  let analysis_result := analyze questions data_files in
  if truthy (get_json analysis_result "needs_visualization" (JBool false))
  then
    match generate_chart data_files
            (get_json analysis_result "chart_config" (JObj [])) with
    | Some chart_data =>
        if String.eqb chart_data "" then analysis_result
        else <["chart" := VChart chart_data]> analysis_result
    | None => analysis_result
    end
  else analysis_result.

End Analysis.

End Agent.

(** * Well-formed frames and columnwise views *)

Definition col_length (c : column) : nat := length (col_cells c).

(** The invariant of the data model: column names are unique and every
    column has one cell per row. *)
Definition wf_frame (df : DataFrame) : bool :=
  bool_decide (NoDup (column_names df))
  && forallb (fun nc => (col_length nc.2 =? len df)%nat) (columns df).

(** The first column named [n], replaced by [g] of it or removed. *)
Fixpoint alter_col (g : column -> option column) (n : string)
    (cols : list (string * column)) : list (string * column) :=
  match cols with
  | [] => []
  | (m, c) :: cols' =>
      if String.eqb m n
      then match g c with Some c' => (m, c') :: cols' | None => cols' end
      else (m, c) :: alter_col g n cols'
  end.

(** Every column replaced by [g] of it or removed. *)
Definition columnwise (g : column -> option column) (df : DataFrame) : DataFrame :=
  mkDataFrame (index df) (omap (fun nc => pair nc.1 <$> g nc.2) (columns df)).

(** What [_convert_data_types] makes of one column. *)
Definition convert_column (to_numeric : string -> option Q)
    (to_datetime : string -> option Z) (c : column) : column :=
  match c with
  | ObjCol cells =>
      if _is_date_column cells
      then DateCol (map (fun o => o ≫= to_datetime) cells)
      else if mostly_numeric (numeric_series to_numeric cells)
      then NumCol (numeric_series to_numeric cells)
      else ObjCol cells
  | _ => c
  end.

(** What the ['auto'] policy makes of one column of a frame of [n] rows:
    [None] when the column is dropped. *)
Definition auto_column (median_datetime : list (option Z) -> option Z)
    (n : nat) (c : column) : option column :=
  if (col_isnull_sum c =? 0)%nat then Some c
  else if (n <? 2 * col_isnull_sum c)%nat then None
  else Some (fill_auto median_datetime c).

(** The specification's promotion rule for a text column: at least 80% of
    the non-missing values parse once [,], [$] and [%] are stripped. *)
Definition spec_promotes (to_numeric : string -> option Q)
    (cells : list (option string)) : bool :=
  (4 * length (dropna cells)
   <=? 5 * length (List.filter (fun s => notna (to_numeric (strip_formatting s)))
                     (dropna cells)))%nat.

Definition is_numeric (c : column) : bool :=
  match c with NumCol _ => true | _ => false end.

(** Every cell of every numeric column is present and within the IQR bounds
    of its column, the bounds being the binary64 numbers the code computes. *)
Definition no_outliers (df : DataFrame) : bool :=
  forallb (fun nc =>
             match nc.2 with
             | NumCol cells => forallb (fun b => b) (iqr_mask cells)
             | _ => true
             end) (columns df).

(** The interval of the specification, [Q1 - 1.5 IQR, Q3 + 1.5 IQR] with the
    quartiles and the products in exact arithmetic, and the frames all of
    whose numeric cells are present and lie in it. *)
Module Exact.

Definition within (lower_bound upper_bound : option Q) (o : option Q) : bool :=
  match lower_bound, upper_bound, o with
  | Some lo, Some hi, Some v => Qle_bool lo v && Qle_bool v hi
  | _, _, _ => false
  end.

Definition iqr_bounds (cells : list (option Q)) : option Q * option Q :=
  let Q1 := quantile (1 # 4) cells in
  let Q3 := quantile (3 # 4) cells in
  let IQR := (q3 ← Q3; q1 ← Q1; Some (q3 - q1)%Q) in
  ( (q1 ← Q1; i ← IQR; Some (q1 - (3 # 2) * i)%Q)
  , (q3 ← Q3; i ← IQR; Some (q3 + (3 # 2) * i)%Q) ).

Definition iqr_mask (cells : list (option Q)) : list bool :=
  map (within (iqr_bounds cells).1 (iqr_bounds cells).2) cells.

Definition no_outliers (df : DataFrame) : bool :=
  forallb (fun nc =>
             match nc.2 with
             | NumCol cells => forallb (fun b => b) (iqr_mask cells)
             | _ => true
             end) (columns df).

End Exact.

(** * Sample instances of the library functions, for the examples *)

Module Sample.

Fixpoint digits_value (acc : Z) (s : string) : option Z :=
  match s with
  | EmptyString => Some acc
  | String c s' =>
      if is_digit c
      then digits_value (10 * acc + Z.of_nat (nat_of_ascii c) - 48)%Z s'
      else None
  end.

Definition natural (s : string) : option Z :=
  match s with
  | EmptyString => None
  | _ => digits_value 0 s
  end.

(** Decimal integer literals, a fragment of what [pd.to_numeric] and
    [float] accept; everything else does not parse. *)
Definition to_numeric (s : string) : option Q :=
  match s with
  | String "-" s' => (fun z => inject_Z (- z)) <$> natural s'
  | _ => inject_Z <$> natural s
  end.

Definition to_datetime (s : string) : option Z := None.

Definition median_datetime (l : list (option Z)) : option Z := None.

(** A scaler that leaves the columns as they are. *)
Definition scaler_fit_transform (cols : list (list (option Q)))
  : unit * list (list (option Q)) := ((), cols).

(** A decoder that rejects every text. *)
Definition json_loads (s : string) : option Agent.json := None.

(** A renderer whose image is too large at every resolution. *)
Definition savefig_large (d : Z) : list Byte.byte :=
  repeat Byte.x00 (Z.to_nat 100001).

(** A renderer whose image has [30 * d] bytes at resolution [d]. *)
Definition savefig_linear (d : Z) : list Byte.byte :=
  repeat Byte.x00 (Z.to_nat (30 * d)).

End Sample.

(** * Sample data *)

Module Example.

(** The scenario table of the specification: rows (1,2), (2,4), (3,6). *)
Definition xy_frame : DataFrame :=
  mkDataFrame [0; 1; 2]%Z
    [ ("x", NumCol [Some 1%Q; Some 2%Q; Some 3%Q])
    ; ("y", NumCol [Some 2%Q; Some 4%Q; Some 6%Q]) ].

(** The same rows and one more, whose [x] is missing. *)
Definition xy_missing_frame : DataFrame :=
  mkDataFrame [0; 1; 2; 3]%Z
    [ ("x", NumCol [Some 1%Q; Some 2%Q; None; Some 3%Q])
    ; ("y", NumCol [Some 2%Q; Some 4%Q; Some 5%Q; Some 6%Q]) ].

(** Five amounts, four of which are numbers: exactly 80%. *)
Definition amounts_80 : list (option string) :=
  [Some "1"; Some "2"; Some "3"; Some "4"; Some "abc"].

Definition amounts_80_frame : DataFrame :=
  mkDataFrame [0; 1; 2; 3; 4]%Z [("amount", ObjCol amounts_80)].

(** Five monetary amounts, all numbers once the formatting is stripped. *)
Definition amounts_money : list (option string) :=
  [Some "$1,000"; Some "250"; Some "75%"; Some "$3"; Some "12"].

Definition amounts_money_frame : DataFrame :=
  mkDataFrame [0; 1; 2; 3; 4]%Z [("amount", ObjCol amounts_money)].

(** A frame with a sparse column, a text column and a numeric column with
    gaps. *)
Definition survey_frame : DataFrame :=
  mkDataFrame [0; 1; 2; 3]%Z
    [ ("note", ObjCol [None; None; None; Some "late"])
    ; ("city", ObjCol [Some "Pune"; None; Some "Pune"; Some "Agra"])
    ; ("age", NumCol [Some 30%Q; Some 40%Q; None; Some 20%Q]) ].

(** A numeric column without outliers next to a text column. *)
Definition steady_frame : DataFrame :=
  mkDataFrame [0; 1; 2; 3]%Z
    [ ("reading", NumCol [Some 1%Q; Some 2%Q; Some 3%Q; Some 4%Q])
    ; ("unit", ObjCol [Some "m"; Some "m"; Some "m"; Some "m"]) ].

(** A column whose least value, 0, is the lower bound of the exact interval:
    the quartiles of 0, 2.1, 2.2, 3.9 are 1.575 and 2.625. *)
Definition boundary_frame : DataFrame :=
  mkDataFrame [0; 1; 2; 3]%Z
    [ ("v", NumCol [Some (21 # 10)%Q; Some (39 # 10)%Q; Some 0%Q; Some (22 # 10)%Q]) ].


Definition fives_frame : DataFrame :=
  mkDataFrame [0; 1; 2]%Z
    [ ("a", NumCol [Some 5%Q; Some 5%Q; Some 5%Q])
    ; ("b", NumCol [Some 1%Q; Some 2%Q; Some 3%Q]) ].

(** Two frames for two successive calls of [prepare_for_ml]. *)
Definition cities_frame : DataFrame :=
  mkDataFrame [0; 1]%Z [("city", ObjCol [Some "Pune"; Some "Agra"])].

Definition readings_frame : DataFrame :=
  mkDataFrame [0; 1]%Z [("reading", NumCol [Some 1%Q; Some 2%Q])].




End Example.


(** * Vocabulary of the statements *)

(** [v] is a most frequent non-missing value of the column. *)
Definition most_frequent (v : string) (cells : list (option string)) : Prop :=
  v ∈ dropna cells /\
  forall s, (occurrences s (dropna cells) <= occurrences v (dropna cells))%nat.

(** Every object of [σ0] is still there, unchanged, in [σ]. *)
Definition agree (σ0 σ : gmap loc DataFrame) : Prop :=
  forall l, l ∈ dom σ0 -> σ !! l = σ0 !! l.

(** [l] is an object created since [σ0], holding [d]. *)
Definition local (σ0 σ : gmap loc DataFrame) (l : loc) (d : DataFrame) : Prop :=
  (l ∉ dom σ0) /\ σ !! l = Some d /\ agree σ0 σ.

(** The outcome [out] of a store computation started after [σ0] matches the
    outcome [r] of the function on frames. *)
Definition matches (σ0 : gmap loc DataFrame)
    (out : res loc * gmap loc DataFrame) (r : res DataFrame) : Prop :=
  match r with
  | Ok d' => exists l', out.1 = Ok l' /\ local σ0 out.2 l' d'
  | Raise e => out.1 = Raise e /\ agree σ0 out.2
  end.

(** [self] holds what [self0] holds, on top of the entries [E] and [S]. *)
Definition extends {Scaler} (E : gmap string LabelEncoder) (S : gmap string Scaler)
    (self0 self : DataProcessor Scaler) : Prop :=
  encoders self = encoders self0 ∪ E /\ scalers self = scalers self0 ∪ S.

(** A computation on the instance that never reads the dictionaries: it
    gives the same outcome from both instances and keeps them related. *)
Definition oblivious {Scaler A} (m : SM Scaler A) : Prop :=
  forall E S self0 self, extends E S self0 self ->
    (m self).1 = (m self0).1 /\ extends E S (m self0).2 (m self).2.

(** All present values of the column equal [k]: the column has no variance. *)
Definition constant_column (k : Q) (a : list (option Q)) : Prop :=
  forall v, Some v ∈ a -> (v == k)%Q.

(** What one computation adds to the results, if anything.  It does not
    depend on the results collected before. *)
Definition step_effect (float_of_str : string -> option Q)
    (data_files : gmap string Agent.payload) (comp : Agent.computation)
  : option (string * Agent.computed) :=
  match Agent.data_source comp ≫= (data_files !!.) with
  | None => None
  | Some data =>
      match Agent.comp_columns comp with
      | a :: b :: _ =>
          if decide (Agent.comp_type comp = Some "correlation") then
            match Agent.correlation float_of_str data a b with
            | Ok r => Some (Agent.key_correlation a b, Agent.Correlation r)
            | Raise e =>
                Some (Agent.key_error (Agent.comp_type comp), Agent.ComputationError e)
            end
          else if decide (Agent.comp_type comp = Some "regression") then
            match Agent.regression float_of_str data a b with
            | Ok r => Some (Agent.key_regression a b, r)
            | Raise e =>
                Some (Agent.key_error (Agent.comp_type comp), Agent.ComputationError e)
            end
          else None
      | _ => None
      end
  end.

Definition is_error (c : Agent.computed) : Prop :=
  match c with Agent.ComputationError _ => True | _ => False end.


(** A sum over the rows [(x, y)]. *)
Definition sum_over (f : Q * Q -> Q) (l : list (Q * Q)) : Q := Qsum (map f l).

(** * Further vocabulary *)

(** Whether row [i] has a present cell in every column, and the mask of
    these rows. *)
Definition complete_row (df : DataFrame) (i : nat) : bool :=
  forallb (fun nc => nth i (col_notna nc.2) false) (columns df).

Definition complete_mask (df : DataFrame) : list bool :=
  map (complete_row df) (seq 0 (len df)).

(** The last present value of a list of cells, and the first one. *)
Definition present_or {A} (o acc : option A) : option A :=
  match o with Some x => Some x | None => acc end.

Definition last_present {A} (l : list (option A)) : option A :=
  foldl (fun acc o => present_or o acc) None l.

Definition first_present {A} (l : list (option A)) : option A :=
  foldr present_or None l.

(** The cells of a column as options of cells, whatever the dtype. *)
Definition col_options (c : column) : list (option cell) :=
  map (fun x => match x with CNA => None | _ => Some x end) (col_cells c).

(** The four strategies [_handle_missing_values] knows. *)
Definition known_strategies : list string :=
  ["auto"; "drop"; "forward_fill"; "backward_fill"].

(** [d'] is a well-formed frame made of rows and columns of [d]: its row
    labels and its column names are those of [d], some left out, in the
    order of [d]. *)
Definition part_of (d' d : DataFrame) : Prop :=
  wf_frame d' = true /\
  index d' `sublist_of` index d /\
  column_names d' `sublist_of` column_names d.

(** No numeric column has a missing cell. *)
Definition numeric_complete (d : DataFrame) : Prop :=
  forall n cells, (n, NumCol cells) ∈ columns d -> isnull_sum cells = 0%nat.

(** Whether the character occurs in the text. *)
Fixpoint occurs (c : ascii) (s : string) : bool :=
  match s with
  | EmptyString => false
  | String c' s' => Ascii.eqb c' c || occurs c s'
  end.

(** A collaborator that cannot be reached. *)
Definition chat_down (questions : string) (data_files : gmap string Agent.payload)
  : res string := Raise (ValueError "Connection error.").

(** * ChartGenerator: choosing and validating a chart

    [generate_chart], the six [_create_...] methods, [create_multi_chart] and
    [_create_subplot] of [src/chart_generator.py].  A chart configuration is
    the decoded JSON object of the plan; the drawing itself belongs to
    matplotlib and is a parameter. *)

Module Plot.
Import Agent.

(** [config.get(key)] on a decoded JSON object; a repeated key holds its
    last value. *)
Definition get (config : list (string * json)) (key : string) : option json :=
  assoc key (rev config).

(** A configuration value that can name a table or a column: a non-empty
    string.  Any other value is false ([None], [""], [0], an empty list), or
    is not among the names, which are text (a number, [True]), or cannot be
    looked up at all (a list, a dictionary: a [TypeError], which the method
    catches). *)
Definition name_of (o : option json) : option string :=
  match o with
  | Some (JStr s) => if String.eqb s "" then None else Some s
  | _ => None
  end.

(** [value == 'text'] *)
Definition is_str (value : json) (text : string) : bool :=
  match value with JStr s => String.eqb s text | _ => false end.

(** [data[[x_col, y_col]]] *)
Definition select_pair (data : DataFrame) (x_col y_col : string) : option DataFrame :=
  cx ← assoc x_col (columns data);
  cy ← assoc y_col (columns data);
  Some (mkDataFrame (index data) [(x_col, cx); (y_col, cy)]).

(** [df.dropna()]: the rows without a missing cell. *)
Definition dropna_rows (df : DataFrame) : DataFrame := take_rows (complete_mask df) df.

(** [data.select_dtypes(include=[np.number])] *)
Definition select_numeric (data : DataFrame) : DataFrame :=
  mkDataFrame (index data) (List.filter (fun nc => is_numeric nc.2) (columns data)).

Definition is_object (c : column) : bool :=
  match c with ObjCol _ => true | _ => false end.

Section Generate.

(** A matplotlib figure. *)
Variable Figure : Type.

(** The drawing itself, one function for each kind of chart, applied to the
    data to plot and to the settings the method reads from the
    configuration; [None] when matplotlib, seaborn or numpy raise, which the
    method catches. *)
Variable draw_scatter : DataFrame -> string -> string -> json -> bool -> option Figure.
Variable draw_bar : DataFrame -> string -> string -> json -> option Figure.
Variable draw_line : DataFrame -> string -> string -> json -> option Figure.
Variable draw_histogram : column -> string -> json -> json -> option Figure.
Variable draw_heatmap : DataFrame -> json -> option Figure.
Variable draw_box : DataFrame -> option string -> string -> json -> option Figure.

(** [data.groupby(x_col)[y_col].mean().reset_index()] and
    [plot_data.sort_values(x_col)]; [None] when pandas raises. *)
Variable groupby_mean : DataFrame -> string -> string -> option DataFrame.
Variable sort_values_by : string -> DataFrame -> option DataFrame.

(** [fig.savefig] at a resolution: the PNG bytes. *)
Variable savefig : Figure -> Z -> list Byte.byte.

(** [config.get('title', default)] *)
Definition title_of (config : list (string * json)) (dflt : string) : json :=
  default (JStr dflt) (get config "title").

(** The test that opens [_create_scatter_plot], [_create_bar_chart] and
    [_create_line_plot]: both names are given and are columns of the data. *)
Definition xy_columns (data : DataFrame) (config : list (string * json))
  : option (string * string) :=
  x_col ← name_of (get config "x_column");
  y_col ← name_of (get config "y_column");
  if bool_decide (x_col ∈ column_names data) && bool_decide (y_col ∈ column_names data)
  then Some (x_col, y_col) else None.

(** [len(plot_data) == 0] ends the method without a figure. *)
Definition nonempty (plot_data : DataFrame) : option DataFrame :=
  if (len plot_data =? 0)%nat then None else Some plot_data.

Definition _create_scatter_plot (data : DataFrame) (config : list (string * json))
  : option Figure :=
  '(x_col, y_col) ← xy_columns data config;
  plot_data ← select_pair data x_col y_col ≫= (fun d => nonempty (dropna_rows d));
  draw_scatter plot_data x_col y_col (title_of config "Scatter Plot")
    (truthy (default (JBool true) (get config "add_regression"))).

Definition _create_bar_chart (data : DataFrame) (config : list (string * json))
  : option Figure :=
  '(x_col, y_col) ← xy_columns data config;
  cx ← assoc x_col (columns data);
  plot_data ← (if is_object cx
               then groupby_mean data x_col y_col
               else dropna_rows <$> select_pair data x_col y_col);
  plot_data ← nonempty plot_data;
  draw_bar plot_data x_col y_col (title_of config "Bar Chart").

Definition _create_line_plot (data : DataFrame) (config : list (string * json))
  : option Figure :=
  '(x_col, y_col) ← xy_columns data config;
  plot_data ← select_pair data x_col y_col ≫= (fun d => sort_values_by x_col (dropna_rows d));
  plot_data ← nonempty plot_data;
  draw_line plot_data x_col y_col (title_of config "Line Plot").

Definition _create_histogram (data : DataFrame) (config : list (string * json))
  : option Figure :=
  x_col ← name_of (get config "x_column");
  cx ← assoc x_col (columns data);
  let plot_data := col_take (col_notna cx) cx in
  if (col_length plot_data =? 0)%nat then None
  else draw_histogram plot_data x_col (title_of config "Histogram")
         (default (JNum 30) (get config "bins")).

Definition _create_heatmap (data : DataFrame) (config : list (string * json))
  : option Figure :=
  let numeric_data := select_numeric data in
  if (length (columns numeric_data) <? 2)%nat then None
  else draw_heatmap numeric_data (title_of config "Correlation Heatmap").

(** In [_create_box_plot] the grouping column is optional: [x_col and x_col
    in data.columns].  A non-empty list or dictionary is true and cannot be
    looked up: a [TypeError], caught, and no figure. *)
Definition _create_box_plot (data : DataFrame) (config : list (string * json))
  : option Figure :=
  y_col ← name_of (get config "y_column");
  if bool_decide (y_col ∈ column_names data)
  then
    match get config "x_column" with
    | Some (JArr (_ :: _)) | Some (JObj (_ :: _)) => None
    | x_col =>
        let by_column :=
          x ← name_of x_col;
          if bool_decide (x ∈ column_names data) then Some x else None in
        draw_box data by_column y_col (title_of config "Box Plot")
    end
  else None.

(** [generate_chart]: [None] where the method returns [None], the [except]
    branch included. *)
Definition generate_chart (self : Chart.ChartGenerator)
    (data_files : gmap string payload) (chart_config : json) : option string :=
  match chart_config with
  | JObj config =>
      let chart_type := default (JStr "scatter") (get config "type") in
      data_source ← name_of (get config "data_source");
      data ← data_files !! data_source;
      match data with
      | PFrame data =>
          fig ← (if is_str chart_type "scatter" then _create_scatter_plot data config
                 else if is_str chart_type "bar" then _create_bar_chart data config
                 else if is_str chart_type "line" then _create_line_plot data config
                 else if is_str chart_type "histogram" then _create_histogram data config
                 else if is_str chart_type "heatmap" then _create_heatmap data config
                 else if is_str chart_type "box" then _create_box_plot data config
                 else _create_scatter_plot data config);
          Some (Chart.uri (Chart._fig_to_base64 (savefig fig) self))
      | _ => None
      end
  | _ => None                      (* no [get]: an [AttributeError], caught *)
  end.

End Generate.

(** ** Several charts in one figure *)

(** The grid [create_multi_chart] chooses: rows and columns. *)
Definition layout (num_charts : nat) : nat * nat :=
  if (num_charts =? 1)%nat then (1, 1)%nat
  else if (num_charts =? 2)%nat then (1, 2)%nat
  else if (num_charts <=? 4)%nat then (2, 2)%nat
  else (3, 2)%nat.

(** [x_col and ...]: the Python truth of a value that may be absent. *)
Definition given (o : option json) : bool :=
  match o with Some j => truthy j | None => false end.

(** A column label used in [data[...]]: the name of a column of the data, or
    a [KeyError] (a [TypeError] for a list or a dictionary). *)
Definition label (data : DataFrame) (o : option json) : option string :=
  match o with
  | Some (JStr s) => if bool_decide (s ∈ column_names data) then Some s else None
  | _ => None
  end.

Section Multi.

Variable Drawing : Type.

(** What is drawn on the axes, one function for each branch of
    [_create_subplot]; [None] when matplotlib or pandas raise. *)
Variable subplot_scatter : DataFrame -> string -> string -> option Drawing.
Variable subplot_bar_grouped : DataFrame -> string -> option json -> option Drawing.
Variable subplot_bar : DataFrame -> string -> string -> option Drawing.
Variable subplot_histogram : column -> string -> option Drawing.
(** [str.title()] *)
Variable str_title : string -> string.
(** The PNG bytes of the figure: the grid, what is on the axes drawn on, in
    order, and the axes that were hidden. *)
Variable savefig_grid : nat * nat -> list (option (option Drawing * json)) -> list nat
                        -> Z -> list Byte.byte.

(** The [try] block of [_create_subplot]: the drawing, if any, under the
    title; [None] is the [except] branch, which writes the error on the
    axes instead. *)
Definition subplot_body (data : DataFrame) (chart_type : json)
    (x_col y_col : option json) (title : json) : option (option Drawing * json) :=
  if is_str chart_type "scatter" && given x_col && given y_col then
    x ← label data x_col; y ← label data y_col;
    plot_data ← dropna_rows <$> select_pair data x y;
    drawing ← subplot_scatter plot_data x y;
    Some (Some drawing, title)
  else if is_str chart_type "bar" && given x_col && given y_col then
    x ← label data x_col;
    cx ← assoc x (columns data);
    drawing ← (if is_object cx
               then subplot_bar_grouped data x y_col
               else y ← label data y_col;
                    plot_data ← dropna_rows <$> select_pair data x y;
                    subplot_bar plot_data x y);
    Some (Some drawing, title)
  else if is_str chart_type "histogram" && given x_col then
    x ← label data x_col;
    cx ← assoc x (columns data);
    drawing ← subplot_histogram (col_take (col_notna cx) cx) x;
    Some (Some drawing, title)
  else Some (None, title).

(** [_create_subplot]: what ends up on the axes; the outer [None] is an
    exception that leaves the method, raised before its [try]: a
    configuration without [get], a chart type without [title]. *)
Definition _create_subplot (data : DataFrame) (config : json)
  : option (option (option Drawing * json)) :=
  match config with
  | JObj config =>
      let chart_type := default (JStr "scatter") (get config "type") in
      let x_col := get config "x_column" in
      let y_col := get config "y_column" in
      match chart_type with
      | JStr t =>
          let title := default (JStr (str_title t +:+ " Plot")) (get config "title") in
          Some (subplot_body data chart_type x_col y_col title)
      | _ => None
      end
  | _ => None
  end.

(** The first loop of [create_multi_chart], which stops at the first
    exception. *)
Fixpoint subplots (data : DataFrame) (chart_configs : list json)
  : option (list (option (option Drawing * json))) :=
  match chart_configs with
  | [] => Some []
  | config :: chart_configs' =>
      drawn ← _create_subplot data config;
      rest ← subplots data chart_configs';
      Some (drawn :: rest)
  end.

(** [create_multi_chart]: [None] where the method returns [None]. *)
Definition create_multi_chart (self : Chart.ChartGenerator)
    (data : DataFrame) (chart_configs : list json) : option string :=
  let num_charts := length chart_configs in
  if (num_charts =? 0)%nat then None
  else
    let '(rows, cols) := layout num_charts in
    let axes := (rows * cols)%nat in
    drawn ← subplots data (take axes chart_configs);
    let hidden := seq num_charts (axes - num_charts) in
    Some (Chart.uri (Chart._fig_to_base64 (savefig_grid (rows, cols) drawn hidden) self)).

End Multi.

(** The x and the y column the configuration names are columns of the data. *)
Definition xy_resolve (data : DataFrame) (config : list (string * json)) : Prop :=
  exists x y,
    name_of (get config "x_column") = Some x /\ name_of (get config "y_column") = Some y /\
    x ∈ column_names data /\ y ∈ column_names data.

(** The chart types [generate_chart] knows. *)
Definition chart_types : list string :=
  ["scatter"; "bar"; "line"; "histogram"; "heatmap"; "box"].

End Plot.

(** A sample drawing backend for the examples: a figure is the list of the
    column names it shows, and its PNG has one byte per unit of resolution. *)
Module PlotSample.

Definition Figure : Type := list string.
Definition draw_xy (plot_data : DataFrame) (x_col y_col : string) (title : Agent.json)
  : option Figure := Some [x_col; y_col].
Definition draw_scatter (plot_data : DataFrame) (x_col y_col : string)
    (title : Agent.json) (add_regression : bool) : option Figure := Some [x_col; y_col].
Definition draw_histogram (plot_data : column) (x_col : string) (title bins : Agent.json)
  : option Figure := Some [x_col].
Definition draw_heatmap (numeric_data : DataFrame) (title : Agent.json) : option Figure :=
  Some (column_names numeric_data).
Definition draw_box (data : DataFrame) (by_column : option string) (y_col : string)
    (title : Agent.json) : option Figure := Some [y_col].
Definition groupby_mean (data : DataFrame) (x_col y_col : string) : option DataFrame :=
  Some data.
Definition sort_values_by (x_col : string) (plot_data : DataFrame) : option DataFrame :=
  Some plot_data.
Definition savefig (fig : Figure) (dpi : Z) : list Byte.byte :=
  repeat Byte.x00 (Z.to_nat dpi).

Definition generate_chart : gmap string Agent.payload -> Agent.json -> option string :=
  Plot.generate_chart Figure draw_scatter draw_xy draw_xy draw_histogram draw_heatmap
    draw_box groupby_mean sort_values_by savefig Chart.__init__.

End PlotSample.

(** * FileProcessor: from a path to data

    The class [FileProcessor] of [src/file_processor.py].  Reading and
    decoding belong to pandas, PIL and the file system and are parameters;
    an exception of theirs is a value of the type [Exc]. *)

Module Files.
Import Agent.

(** ** Paths

    A path is ASCII text, as [secure_filename] delivers it; [str.lower] is
    modelled on ASCII letters. *)

Definition is_ascii (s : string) : bool :=
  forallb (fun c => (nat_of_ascii c <? 128)%nat) (list_ascii_of_string s).

Definition lower_char (c : ascii) : ascii :=
  let n := nat_of_ascii c in
  if (65 <=? n)%nat && (n <=? 90)%nat then ascii_of_nat (n + 32) else c.

(** [s.lower()] *)
Fixpoint lower (s : string) : string :=
  match s with
  | EmptyString => EmptyString
  | String c s' => String (lower_char c) (lower s')
  end.

(** [s.rfind(c)]: the index of the last occurrence, [-1] when there is
    none. *)
Fixpoint rfind_from (c : ascii) (s : string) (i last : Z) : Z :=
  match s with
  | EmptyString => last
  | String c' s' => rfind_from c s' (i + 1) (if Ascii.eqb c' c then i else last)
  end.

Definition rfind (c : ascii) (s : string) : Z := rfind_from c s 0 (-1).

(** [s[n:]] *)
Fixpoint string_drop (n : nat) (s : string) : string :=
  match n, s with
  | O, _ => s
  | S n', String _ s' => string_drop n' s'
  | S _, EmptyString => EmptyString
  end.

(** The extension [os.path.splitext(p)[1]] (posixpath): from the last dot of
    the last component, unless only dots come before it in that component. *)
Definition splitext_ext (p : string) : string :=
  let sepIndex := rfind "/" p in
  let dotIndex := rfind "." p in
  if (sepIndex <? dotIndex)%Z
     && existsb (fun filenameIndex =>
                   match String.get filenameIndex p with
                   | Some c => negb (Ascii.eqb c ".")
                   | None => false
                   end)
          (seq (Z.to_nat (sepIndex + 1)) (Z.to_nat (dotIndex - (sepIndex + 1))))
  then string_drop (Z.to_nat dotIndex) p
  else "".

(** [os.path.basename(p)] *)
Definition basename (p : string) : string := string_drop (Z.to_nat (rfind "/" p + 1)) p.

(** [s.endswith(suffix)] *)
Definition endswith (s suffix : string) : bool :=
  (String.length suffix <=? String.length s)%nat
  && String.eqb (string_drop (String.length s - String.length suffix) s) suffix.

(** ** Outcomes *)

Inductive error :=
| FileNotFoundError (message : string)
| ValueError (message : string).

Inductive outcome (A : Type) :=
| Done (a : A)
| Fail (e : error).
Arguments Done {A} a.
Arguments Fail {A} e.

(** What [process_file] returns: a table, the text of a file, decoded JSON
    that is no list of records, or the description of an image. *)
Inductive processed :=
| Table (df : DataFrame)
| Text (content : string)
| Json (data : json)
| ImageInfo (image_info : list (string * json)).

(** The methods [supported_extensions] maps to. *)
Inductive processor :=
| process_csv | process_excel | process_json | process_text | process_tsv | process_image.

(** [self.supported_extensions] *)
Definition supported_extensions : list (string * processor) :=
  [ (".csv", process_csv); (".xlsx", process_excel); (".xls", process_excel)
  ; (".json", process_json); (".txt", process_text); (".tsv", process_tsv)
  ; (".png", process_image); (".jpg", process_image); (".jpeg", process_image) ].

(** The names bound at the top of the module: its imports and its class. *)
Definition module_globals : list string :=
  ["os"; "pd"; "json"; "Optional"; "Union"; "Any"; "Image"; "io"; "FileProcessor"].

Section Process.

(** An exception of pandas, of the file system, of the decoders or of the
    interpreter, and its text [str(e)]. *)
Variable Exc : Type.
Variable str : Exc -> string.
(** The [NameError] of a name that is bound nowhere. *)
Variable NameError : string -> Exc.

(** [os.path.exists] and [os.stat(...).st_size] *)
Variable path_exists : string -> bool.
Variable st_size : string -> Z.
(** [pd.read_csv(filepath, sep=..., encoding=...)], an argument left out
    being [None]; [pd.read_excel(filepath, engine=...)] *)
Variable read_csv : string -> option string -> option string -> Exc + DataFrame.
Variable read_excel : string -> option string -> Exc + DataFrame.
(** [open(filepath, 'r', encoding=...)] followed by [f.read()] or by
    [json.load(f)]; [pd.DataFrame(data)] on a list of records *)
Variable read_text : string -> string -> Exc + string.
Variable json_load : string -> Exc + json.
Variable frame_of_records : list json -> Exc + DataFrame.
(** [Image.open(filepath)], the description of the image and [img.save]
    into a buffer: [img.format], the description and the bytes saved. *)
Variable image_open :
  string -> Exc + (option string * list (string * json) * list Byte.byte).
(** [round(x, 2)] *)
Variable round2 : Q -> Q.

(** A global name of the module, read at run time; [base64] is no builtin
    either. *)
Definition global (name : string) : Exc + unit :=
  if bool_decide (name ∈ module_globals) then inr () else inl (NameError name).

Definition failed (what : string) (e : Exc) : error :=
  ValueError ("Failed to process " +:+ what +:+ " file: " +:+ str e).

Definition separators : list string := [","; ";"; String "009" ""].
Definition encodings : list string := ["utf-8"; "latin-1"; "cp1252"].

(** The nested loops of [_process_csv] over [attempts], encoding by
    encoding: the first table with more than one column. *)
Fixpoint first_wide (filepath : string) (attempts : list (string * string))
  : option DataFrame :=
  match attempts with
  | [] => None
  | (encoding, sep) :: attempts' =>
      match read_csv filepath (Some sep) (Some encoding) with
      | inr df =>
          if (1 <? length (columns df))%nat then Some df
          else first_wide filepath attempts'
      | inl _ => first_wide filepath attempts'          (* except: continue *)
      end
  end.

Definition csv_attempts : list (string * string) :=
  encoding ← encodings; sep ← separators; [(encoding, sep)].

(** An attempt that does not end the loops: the read raises, or the table
    has at most one column. *)
Definition passed_over (filepath : string) (attempt : string * string) : bool :=
  match read_csv filepath (Some attempt.2) (Some attempt.1) with
  | inr df => (length (columns df) <=? 1)%nat
  | inl _ => true
  end.

Definition _process_csv (filepath : string) : outcome processed :=
  match first_wide filepath csv_attempts with
  | Some df => Done (Table df)
  | None =>
      match read_csv filepath None None with
      | inr df => Done (Table df)
      | inl e => Fail (failed "CSV" e)
      end
  end.

Definition _process_excel (filepath : string) : outcome processed :=
  match read_excel filepath
          (if endswith filepath ".xlsx" then Some "openpyxl" else None) with
  | inr df => Done (Table df)
  | inl e => Fail (failed "Excel" e)
  end.

Definition _process_json (filepath : string) : outcome processed :=
  match json_load filepath with
  | inr (JArr (JObj fields :: items)) =>
      match frame_of_records (JObj fields :: items) with
      | inr df => Done (Table df)
      | inl e => Fail (failed "JSON" e)
      end
  | inr data => Done (Json data)
  | inl e => Fail (failed "JSON" e)
  end.

(** The loop of the [except] branch of [_process_text]. *)
Fixpoint first_readable (filepath : string) (encodings : list string) : option string :=
  match encodings with
  | [] => None
  | encoding :: encodings' =>
      match read_text filepath encoding with
      | inr content => Some content
      | inl _ => first_readable filepath encodings'
      end
  end.

Definition _process_text (filepath : string) : outcome processed :=
  match read_text filepath "utf-8" with
  | inr content => Done (Text content)
  | inl e =>
      match first_readable filepath ["latin-1"; "cp1252"] with
      | Some content => Done (Text content)
      | None => Fail (failed "text" e)
      end
  end.

Definition _process_tsv (filepath : string) : outcome processed :=
  match read_csv filepath (Some (String "009" "")) None with
  | inr df => Done (Table df)
  | inl e => Fail (failed "TSV" e)
  end.

(** [_process_image]: after the image is opened, described and saved, the
    method reads the global [base64]. *)
Definition _process_image (filepath : string) : outcome processed :=
  match image_open filepath with
  | inr (format, image_info, saved) =>
      match global "base64" with
      | inr _ =>
          let img_base64 := Chart.b64encode saved in
          Done (ImageInfo
                  (image_info ++
                   [("base64_data",
                     JStr ("data:image/" +:+ default "png" (lower <$> format)
                           +:+ ";base64," +:+ img_base64))]))
      | inl e => Fail (failed "image" e)
      end
  | inl e => Fail (failed "image" e)
  end.

Definition run (p : processor) (filepath : string) : outcome processed :=
  match p with
  | process_csv => _process_csv filepath
  | process_excel => _process_excel filepath
  | process_json => _process_json filepath
  | process_text => _process_text filepath
  | process_tsv => _process_tsv filepath
  | process_image => _process_image filepath
  end.

(** [process_file] *)
Definition process_file (filepath : string) : outcome processed :=
  if negb (path_exists filepath)
  then Fail (FileNotFoundError ("File not found: " +:+ filepath))
  else
    let ext := splitext_ext (lower filepath) in
    match assoc ext supported_extensions with
    | None => Fail (ValueError ("Unsupported file type: " +:+ ext))
    | Some processor => run processor filepath
    end.

(** The dictionary [get_file_info] returns for a file that exists. *)
Record FileInfo := mkFileInfo
  { filename : string
  ; extension : string
  ; size_bytes : Z
  ; size_mb : Q
  ; supported : bool }.

(** [get_file_info]: [None] is the dictionary [{"error": "File not found"}]. *)
Definition get_file_info (filepath : string) : option FileInfo :=
  if negb (path_exists filepath) then None
  else
    let ext := splitext_ext filepath in
    Some (mkFileInfo (basename filepath) ext (st_size filepath)
            (round2 (inject_Z (st_size filepath) / inject_Z (1024 * 1024)))
            (bool_decide (lower ext ∈ supported_extensions.*1))).

End Process.

End Files.

(** A sample file system for the examples: every path exists, every read
    gives the table of the scenario, and an exception is its text. *)
Module FilesSample.

Definition Exc : Type := string.
Definition str (e : Exc) : string := e.
Definition NameError (name : string) : Exc := "name '" +:+ name +:+ "' is not defined".
Definition path_exists (filepath : string) : bool := true.
Definition st_size (filepath : string) : Z := 2048.
Definition read_csv (filepath : string) (sep encoding : option string) : Exc + DataFrame :=
  inr Example.xy_frame.
Definition read_excel (filepath : string) (engine : option string) : Exc + DataFrame :=
  inr Example.xy_frame.
Definition read_text (filepath encoding : string) : Exc + string := inr "text".
Definition json_load (filepath : string) : Exc + Agent.json := inr Agent.JNull.
Definition frame_of_records (data : list Agent.json) : Exc + DataFrame :=
  inr Example.xy_frame.
Definition image_open (filepath : string)
  : Exc + (option string * list (string * Agent.json) * list Byte.byte) :=
  inr (Some "PNG", [("width", Agent.JNum 1); ("height", Agent.JNum 1)], [Byte.x89]).
Definition round2 (x : Q) : Q := x.

Definition process_file : string -> Files.outcome Files.processed :=
  Files.process_file Exc str NameError path_exists read_csv read_excel read_text
    json_load frame_of_records image_open.

Definition get_file_info : string -> option Files.FileInfo :=
  Files.get_file_info path_exists st_size round2.

End FilesSample.

(** * Facts about the frames and the cleaning methods *)
Lemma assoc_Some_elem {A} n (c : A) cols : assoc n cols = Some c -> (n, c) ∈ cols.
Proof.
  induction cols as [|[m c'] cols IH]; simpl; [done|].
  destruct (String.eqb_spec m n) as [->|Hne].
  - intros [= ->]. left.
  - intros H. right. auto.
Qed.

Lemma assoc_None_notin {A} n (cols : list (string * A)) :
  assoc n cols = None <-> n ∉ cols.*1.
Proof.
  induction cols as [|[m c'] cols IH]; simpl.
  - split; [intros _; apply not_elem_of_nil | done].
  - destruct (String.eqb_spec m n) as [->|Hne].
    + split; [done|]. intros H. exfalso. apply H. left.
    + rewrite IH, not_elem_of_cons. split; [intros H; split; [congruence|done] | by intros [_ H]].
Qed.

Lemma assoc_elem_NoDup {A} n (c : A) cols :
  NoDup cols.*1 -> (n, c) ∈ cols -> assoc n cols = Some c.
Proof.
  induction cols as [|[m c'] cols IH]; simpl.
  - intros _ H. by apply elem_of_nil in H.
  - intros Hnd H. apply NoDup_cons in Hnd as [Hm Hnd].
    apply elem_of_cons in H as [[= -> ->]|H].
    + by rewrite String.eqb_refl.
    + destruct (String.eqb_spec m n) as [->|Hne]; [|auto].
      exfalso. apply Hm. apply list_elem_of_fmap. by exists (n, c).
Qed.

Lemma for_each_app {S A} (body : S -> A -> res S) s xs ys :
  for_each body s (xs ++ ys) = (s' ← for_each body s xs; for_each body s' ys).
Proof.
  revert s. induction xs as [|x xs IH]; intros s; simpl; [done|].
  destruct (body s x); simpl; [apply IH | done].
Qed.

Lemma for_each_fixed {S A} (body : S -> A -> res S) s xs :
  (forall x, x ∈ xs -> body s x = Ok s) -> for_each body s xs = Ok s.
Proof.
  induction xs as [|x xs IH]; intros H; simpl; [done|].
  rewrite H; [|left]. simpl. apply IH. intros y Hy. apply H. by right.
Qed.

Lemma alter_col_set g n c c' cols :
  assoc n cols = Some c -> g c = Some c' -> assoc_set n c' cols = alter_col g n cols.
Proof.
  induction cols as [|[m c0] cols IH]; simpl; [done|].
  destruct (String.eqb m n).
  - intros [= ->] ->. done.
  - intros H1 H2. by rewrite IH.
Qed.

Lemma alter_col_same g n c cols :
  assoc n cols = Some c -> g c = Some c -> alter_col g n cols = cols.
Proof.
  induction cols as [|[m c0] cols IH]; simpl; [done|].
  destruct (String.eqb m n).
  - intros [= ->] ->. done.
  - intros H1 H2. by rewrite IH.
Qed.

Lemma filter_notin n (cols : list (string * column)) :
  n ∉ cols.*1 -> List.filter (fun nc => negb (String.eqb nc.1 n)) cols = cols.
Proof.
  induction cols as [|[m c0] cols IH]; simpl; [done|].
  rewrite not_elem_of_cons. intros [Hne Hn].
  destruct (String.eqb_spec m n) as [->|_]; [done|]. simpl. by rewrite IH.
Qed.

Lemma alter_col_drop g n c cols :
  NoDup cols.*1 -> assoc n cols = Some c -> g c = None ->
  List.filter (fun nc => negb (String.eqb nc.1 n)) cols = alter_col g n cols.
Proof.
  induction cols as [|[m c0] cols IH]; simpl; [done|].
  intros Hnd. apply NoDup_cons in Hnd as [Hm Hnd].
  destruct (String.eqb_spec m n) as [->|Hne]; simpl.
  - intros [= ->] ->. by apply filter_notin.
  - intros H1 H2. by rewrite IH.
Qed.

Lemma alter_col_app g n pre post :
  n ∉ pre.*1 -> alter_col g n (pre ++ post) = pre ++ alter_col g n post.
Proof.
  induction pre as [|[m c0] pre IH]; simpl; [done|].
  rewrite not_elem_of_cons. intros [Hne Hn].
  destruct (String.eqb_spec m n) as [->|_]; [done|]. by rewrite IH.
Qed.

Lemma for_each_columnwise (step : DataFrame -> string -> res DataFrame) g idx :
  (forall cols n c, NoDup cols.*1 -> assoc n cols = Some c ->
     step (mkDataFrame idx cols) n = Ok (mkDataFrame idx (alter_col g n cols))) ->
  forall post pre, NoDup (pre ++ post).*1 ->
    for_each step (mkDataFrame idx (pre ++ post)) post.*1
    = Ok (mkDataFrame idx (pre ++ omap (fun nc => pair nc.1 <$> g nc.2) post)).
Proof.
  intros Hstep. induction post as [|[n c] post IH]; intros pre Hnd; simpl.
  - done.
  - assert (Hn : n ∉ pre.*1).
    { rewrite fmap_app in Hnd. apply NoDup_app in Hnd as (_ & Hd & _).
      intros Hin. apply (Hd n Hin). left. }
    assert (Hassoc : assoc n (pre ++ (n, c) :: post) = Some c).
    { apply assoc_elem_NoDup; [done|]. apply elem_of_app. right. left. }
    rewrite (Hstep _ _ _ Hnd Hassoc). simpl.
    rewrite alter_col_app by done. simpl. rewrite String.eqb_refl.
    destruct (g c) as [c'|] eqn:Hg; simpl.
    + replace (pre ++ (n, c') :: post) with ((pre ++ [(n, c')]) ++ post)
        by (by rewrite <- app_assoc).
      rewrite IH.
      * by rewrite <- app_assoc.
      * rewrite <- app_assoc. simpl.
        rewrite !fmap_app in *. simpl in *. done.
    + apply IH. rewrite !fmap_app in *. simpl in *.
      apply NoDup_app in Hnd as (H1 & H2 & H3). apply NoDup_cons in H3 as [H3 H4].
      apply NoDup_app. split_and!; [done| |done].
      intros x Hx Hx'. apply (H2 x Hx). by right.
Qed.

Lemma for_each_columnwise_frame (step : DataFrame -> string -> res DataFrame) g df :
  (forall cols n c, NoDup cols.*1 -> assoc n cols = Some c ->
     step (mkDataFrame (index df) cols) n
     = Ok (mkDataFrame (index df) (alter_col g n cols))) ->
  NoDup (column_names df) ->
  for_each step df (column_names df) = Ok (columnwise g df).
Proof.
  intros Hstep Hnd. destruct df as [idx cols]. unfold column_names, columnwise in *. simpl in *.
  apply (for_each_columnwise step g idx Hstep cols []). done.
Qed.

Lemma assoc_columnwise (g : column -> option column) n cols :
  NoDup cols.*1 ->
  assoc n (omap (fun nc : string * column => pair nc.1 <$> g nc.2) cols) = assoc n cols ≫= g.
Proof.
  induction cols as [|[m c] cols IH]; csimpl; [done|].
  intros Hnd. apply NoDup_cons in Hnd as [Hm Hnd].
  destruct (String.eqb_spec m n) as [->|Hne]; csimpl.
  - destruct (g c) as [c'|] eqn:Hg; csimpl.
    + by rewrite String.eqb_refl.
    + rewrite IH by done.
      apply assoc_None_notin in Hm. by rewrite Hm.
  - destruct (g c) as [c'|] eqn:Hg; csimpl; [|by apply IH].
    destruct (String.eqb_spec m n); [done|]. by apply IH.
Qed.

Section CleaningFacts.

Variable to_numeric : string -> option Q.
Variable to_datetime : string -> option Z.
Variable median_datetime : list (option Z) -> option Z.

Lemma convert_step_alter idx cols n c :
  assoc n cols = Some c ->
  convert_step to_numeric to_datetime (mkDataFrame idx cols) n
  = Ok (mkDataFrame idx
          (alter_col (fun c => Some (convert_column to_numeric to_datetime c)) n cols)).
Proof.
  intros Hc. unfold convert_step, getitem. simpl. rewrite Hc. simpl.
  destruct c as [cells| | |]; simpl;
    try (by rewrite (alter_col_same _ _ _ _ Hc)).
  unfold setitem. simpl.
  destruct (_is_date_column cells) eqn:Hd.
  - erewrite (alter_col_set _ _ _ _ _ Hc); [done|]. simpl. by rewrite Hd.
  - destruct (mostly_numeric _) eqn:Hm.
    + erewrite (alter_col_set _ _ _ _ _ Hc); [done|]. simpl. by rewrite Hd, Hm.
    + rewrite (alter_col_same _ _ _ _ Hc); [done|]. simpl. by rewrite Hd, Hm.
Qed.

Lemma convert_data_types_columnwise df :
  NoDup (column_names df) ->
  _convert_data_types to_numeric to_datetime df
  = Ok (columnwise (fun c => Some (convert_column to_numeric to_datetime c)) df).
Proof.
  intros Hnd. apply for_each_columnwise_frame; [|done].
  intros cols n c _ Hc. by apply (convert_step_alter _ _ _ c).
Qed.

(** C1 (amended).  A text column none of whose first ten present values
    starts like a date is promoted to Numeric exactly when the cells that
    parse as numbers, once [,], [$] and [%] are stripped, are strictly more
    than 80% of all the cells of the column, the missing ones counted in the
    total.  A promoted column holds the parsed numbers; a column that is not
    promoted, and is not date-like, is left as the text it was; a date-like
    column becomes a column of dates.  The conversion returns for every
    frame with distinct column names. *)
Theorem convert_promotes_text_column df n cells :
  NoDup (column_names df) ->
  assoc n (columns df) = Some (ObjCol cells) ->
  exists df' c',
    _convert_data_types to_numeric to_datetime df = Ok df' /\
    assoc n (columns df') = Some c' /\
    (is_numeric c' = true <->
       _is_date_column cells = false /\
       (4 * length cells < 5 * notna_sum (numeric_series to_numeric cells))%nat) /\
    (is_numeric c' = true -> c' = NumCol (numeric_series to_numeric cells)) /\
    (_is_date_column cells = false -> is_numeric c' = false -> c' = ObjCol cells) /\
    (_is_date_column cells = true ->
       c' = DateCol (map (fun o => o ≫= to_datetime) cells)).
Proof.
  intros Hnd Hc. eexists _, _. split; [by apply convert_data_types_columnwise|].
  split.
  { etrans; [apply (assoc_columnwise
                      (fun c => Some (convert_column to_numeric to_datetime c))); done|].
    rewrite Hc. reflexivity. }
  assert (Hlen : length (numeric_series to_numeric cells) = length cells)
    by apply length_map.
  unfold convert_column, mostly_numeric. rewrite Hlen.
  destruct (_is_date_column cells).
  - split_and!; [|done|done|done]. split; [done|]. by intros [? _].
  - destruct (Nat.ltb_spec (4 * length cells)
                (5 * notna_sum (numeric_series to_numeric cells)));
      split_and!; try done.
    split; [done|]. intros [_ ?]. lia.
Qed.

End CleaningFacts.

(** ** Sorting and the mode *)

Lemma elem_of_insert_string x y l : x ∈ insert_string y l <-> x = y \/ x ∈ l.
Proof.
  induction l as [|z l IH]; simpl.
  - rewrite list_elem_of_singleton. split; [auto | intros [?|H]; [done|by apply elem_of_nil in H]].
  - destruct (String.leb y z).
    + by rewrite elem_of_cons.
    + rewrite !elem_of_cons, IH. tauto.
Qed.

Lemma elem_of_sort_strings x l : x ∈ sort_strings l <-> x ∈ l.
Proof.
  induction l as [|y l IH]; simpl; [done|].
  rewrite elem_of_insert_string, elem_of_cons, IH. done.
Qed.

Lemma length_insert_sorted x l : length (insert_sorted x l) = S (length l).
Proof.
  induction l as [|y l IH]; simpl; [done|].
  destruct (Qle_bool x y); simpl; [done|]. by rewrite IH.
Qed.

Lemma length_sort_values l : length (sort_values l) = length l.
Proof.
  induction l as [|y l IH]; simpl; [done|].
  by rewrite length_insert_sorted, IH.
Qed.

Lemma occurrences_le_max s l : (occurrences s l <= max_occurrences l)%nat.
Proof.
  destruct (decide (s ∈ l)) as [Hin|Hnot].
  - unfold max_occurrences.
    assert (H : forall l0, s ∈ l0 ->
              (occurrences s l <= foldr Nat.max 0 (map (fun s => occurrences s l) l0))%nat).
    { induction l0 as [|y l0 IH]; simpl.
      - intros H. by apply elem_of_nil in H.
      - intros [->|H]%elem_of_cons; [lia|]. specialize (IH H). lia. }
    by apply H.
  - unfold occurrences. replace (List.filter (String.eqb s) l) with (@nil string); [simpl; lia|].
    symmetry. induction l as [|y l IH]; simpl; [done|].
    apply not_elem_of_cons in Hnot as [Hne Hnot].
    destruct (String.eqb_spec s y); [done|]. by apply IH.
Qed.

Lemma max_occurrences_attained l :
  l <> [] -> exists s, s ∈ l /\ occurrences s l = max_occurrences l.
Proof.
  intros Hne. unfold max_occurrences.
  assert (H : forall l0, l0 <> [] ->
            exists s, s ∈ l0 /\
              occurrences s l = foldr Nat.max 0 (map (fun s => occurrences s l) l0)).
  { induction l0 as [|y l0 IH]; [done|]. intros _. simpl.
    destruct l0 as [|z l0].
    - exists y. split; [left|]. simpl. lia.
    - destruct IH as (s & Hs & Heq); [done|].
      destruct (Nat.le_gt_cases (occurrences y l)
                  (foldr Nat.max 0 (map (fun s => occurrences s l) (z :: l0)))) as [Hle|Hgt].
      + exists s. split; [by right|]. rewrite Heq. lia.
      + exists y. split; [left|]. lia. }
  by apply H.
Qed.

Lemma mode_head_most_frequent cells :
  dropna cells <> [] ->
  exists v rest, mode cells = v :: rest /\ most_frequent v cells.
Proof.
  intros Hne. unfold mode.
  set (v := dropna cells) in *.
  set (cands := remove_dups _).
  assert (Hc : forall s, s ∈ sort_strings cands ->
                 s ∈ v /\ occurrences s v = max_occurrences v).
  { intros s. rewrite elem_of_sort_strings. unfold cands.
    rewrite elem_of_remove_dups, list_elem_of_In, filter_In, <- list_elem_of_In.
    intros [? ?%Nat.eqb_eq]. done. }
  destruct (max_occurrences_attained v Hne) as (s0 & Hs0 & Hmax).
  assert (Hs0' : s0 ∈ sort_strings cands).
  { rewrite elem_of_sort_strings. unfold cands.
    rewrite elem_of_remove_dups, list_elem_of_In, filter_In, <- list_elem_of_In.
    split; [done|]. by apply Nat.eqb_eq. }
  destruct (sort_strings cands) as [|m rest] eqn:Hsort.
  - by apply elem_of_nil in Hs0'.
  - exists m, rest. split; [done|].
    destruct (Hc m) as [Hm Hmm]; [left|].
    split; [done|]. intros s. subst v. rewrite Hmm. apply occurrences_le_max.
Qed.

Lemma mode_nil cells : dropna cells = [] -> mode cells = [].
Proof. intros H. unfold mode. by rewrite H. Qed.

(** ** Missing cells *)

Lemma dropna_isnull_length {A} (l : list (option A)) :
  (length (dropna l) + isnull_sum l = length l)%nat.
Proof.
  unfold dropna, isnull_sum.
  induction l as [|[x|] l IH]; csimpl; [done| |]; simpl in *; lia.
Qed.

Lemma fillna_no_missing {A} (v : A) l : isnull_sum l = 0%nat -> fillna v l = l.
Proof.
  unfold isnull_sum, fillna.
  induction l as [|[x|] l IH]; simpl; [done| |done].
  intros H. by rewrite IH.
Qed.

Lemma median_is_Some cells : dropna cells <> [] -> exists m, median cells = Some m.
Proof.
  intros Hne. unfold median.
  destruct (sort_values (dropna cells)) as [|x0 v] eqn:Hs.
  - apply (f_equal length) in Hs. rewrite length_sort_values in Hs.
    destruct (dropna cells); [done|discriminate].
  - destruct (Nat.even _); eauto.
Qed.

Lemma wf_frame_NoDup df : wf_frame df = true -> NoDup (column_names df).
Proof.
  unfold wf_frame. intros [H _]%andb_prop. by apply bool_decide_eq_true in H.
Qed.

Lemma wf_frame_length df n c :
  wf_frame df = true -> assoc n (columns df) = Some c -> col_length c = len df.
Proof.
  unfold wf_frame. intros [_ H]%andb_prop Hc.
  rewrite forallb_forall in H. apply assoc_Some_elem, list_elem_of_In in Hc.
  specialize (H _ Hc). simpl in H. by apply Nat.eqb_eq in H.
Qed.

Section MissingValues.

Variable median_datetime : list (option Z) -> option Z.

Lemma handle_missing_auto_alter idx cols n c :
  NoDup cols.*1 -> assoc n cols = Some c ->
  handle_missing_step median_datetime "auto" (mkDataFrame idx cols) n
  = Ok (mkDataFrame idx (alter_col (auto_column median_datetime (length idx)) n cols)).
Proof.
  intros Hnd Hc. unfold handle_missing_step, getitem, len.
  cbn [columns index]. rewrite Hc. cbn [mbind res_bind String.eqb Ascii.eqb Bool.eqb].
  destruct (col_isnull_sum c =? 0)%nat eqn:H0.
  - rewrite (alter_col_same _ _ _ _ Hc); [done|]. unfold auto_column. by rewrite H0.
  - destruct (length idx <? 2 * col_isnull_sum c)%nat eqn:Hlt.
    + unfold drop_column. cbn [columns index]. do 2 f_equal.
      apply (alter_col_drop _ _ c); [done|done|]. unfold auto_column. by rewrite H0, Hlt.
    + unfold setitem. cbn [columns index]. do 2 f_equal.
      apply (alter_col_set _ _ c); [done|]. unfold auto_column. by rewrite H0, Hlt.
Qed.

Lemma handle_missing_auto_columnwise df :
  NoDup (column_names df) ->
  _handle_missing_values median_datetime df "auto"
  = Ok (columnwise (auto_column median_datetime (len df)) df).
Proof.
  intros Hnd. apply for_each_columnwise_frame; [|done].
  intros cols n c Hnd' Hc. by apply (handle_missing_auto_alter _ _ _ c).
Qed.

(** C5.  Under the ['auto'] policy, on a well-formed frame: a column more
    than half of whose cells are missing is not in the result; a column
    without missing cells is kept as it is; any other text column has its
    missing cells filled with a most frequent value of the column, any other
    numeric column with the median of the column.  The literal ["Unknown"] is
    the fill of a text column without a mode. *)
Theorem auto_policy df :
  wf_frame df = true ->
  exists df',
    _handle_missing_values median_datetime df "auto" = Ok df' /\
    (forall n c, assoc n (columns df) = Some c ->
      (* more than half of the column missing: the column is gone *)
      ((len df < 2 * col_isnull_sum c)%nat -> assoc n (columns df') = None) /\
      (* nothing missing: the column is kept as it is *)
      (col_isnull_sum c = 0%nat -> assoc n (columns df') = Some c) /\
      (* otherwise a text column is filled with a most frequent value ... *)
      (forall cells, c = ObjCol cells ->
         col_isnull_sum c <> 0%nat -> (2 * col_isnull_sum c <= len df)%nat ->
         exists v, most_frequent v cells /\
           assoc n (columns df') = Some (ObjCol (fillna v cells))) /\
      (* ... and a numeric column with its median *)
      (forall cells, c = NumCol cells ->
         col_isnull_sum c <> 0%nat -> (2 * col_isnull_sum c <= len df)%nat ->
         exists m, median cells = Some m /\
           assoc n (columns df') = Some (NumCol (fillna m cells)))) /\
    (* the sentinel of a text column without a mode *)
    (forall cells, mode cells = [] ->
       fill_auto median_datetime (ObjCol cells) = ObjCol (fillna "Unknown" cells)).
Proof.
  intros Hwf. pose proof (wf_frame_NoDup _ Hwf) as Hnd.
  eexists. split; [by apply handle_missing_auto_columnwise|].
  split; [|intros cells Hmode; simpl; by rewrite Hmode].
  intros n c Hc.
  assert (Hget : assoc n (columns (columnwise (auto_column median_datetime (len df)) df))
                 = auto_column median_datetime (len df) c).
  { etrans; [apply (assoc_columnwise (auto_column median_datetime (len df))); done|].
    by rewrite Hc. }
  rewrite Hget. unfold auto_column.
  pose proof (wf_frame_length _ _ _ Hwf Hc) as Hlen.
  split_and!.
  - intros Hlt. destruct (Nat.eqb_spec (col_isnull_sum c) 0); [lia|].
    by apply Nat.ltb_lt in Hlt as ->.
  - by intros ->.
  - intros cells -> Hnz Hle.
    destruct (Nat.eqb_spec (col_isnull_sum (ObjCol cells)) 0); [done|].
    destruct (Nat.ltb_spec (len df) (2 * col_isnull_sum (ObjCol cells))); [lia|].
    simpl in *. unfold col_length in Hlen. simpl in Hlen. rewrite length_map in Hlen.
    pose proof (dropna_isnull_length cells) as Hd.
    destruct (mode_head_most_frequent cells) as (v & rest & Hmode & Hv).
    { intros Hnil. rewrite Hnil in Hd. simpl in Hd. lia. }
    exists v. split; [done|]. by rewrite Hmode.
  - intros cells -> Hnz Hle.
    destruct (Nat.eqb_spec (col_isnull_sum (NumCol cells)) 0); [done|].
    destruct (Nat.ltb_spec (len df) (2 * col_isnull_sum (NumCol cells))); [lia|].
    simpl in *. unfold col_length in Hlen. simpl in Hlen. rewrite length_map in Hlen.
    pose proof (dropna_isnull_length cells) as Hd.
    destruct (median_is_Some cells) as (m & Hm).
    { intros Hnil. rewrite Hnil in Hd. simpl in Hd. lia. }
    exists m. split; [done|]. by rewrite Hm.
Qed.

End MissingValues.

(** ** Row masks *)

Lemma take_mask_all {A} (mask : list bool) (xs : list A) :
  forallb (fun b => b) mask = true -> (length xs <= length mask)%nat ->
  take_mask mask xs = xs.
Proof.
  revert xs. induction mask as [|b mask IH]; intros [|x xs]; simpl; try done; [lia|].
  intros [-> Hm]%andb_prop Hl. rewrite IH; [done|done|lia].
Qed.

Lemma col_take_all mask c :
  forallb (fun b => b) mask = true -> (col_length c <= length mask)%nat ->
  col_take mask c = c.
Proof.
  intros Hm Hl. unfold col_length in Hl.
  destruct c; simpl in *; rewrite length_map in Hl; by rewrite take_mask_all.
Qed.

Lemma take_rows_all mask df :
  wf_frame df = true ->
  forallb (fun b => b) mask = true -> (len df <= length mask)%nat ->
  take_rows mask df = df.
Proof.
  intros Hwf Hm Hl. destruct df as [idx cols]. unfold take_rows, len in *. simpl in *.
  rewrite take_mask_all by done. f_equal.
  unfold wf_frame in Hwf. apply andb_prop in Hwf as [_ Hwf]. simpl in Hwf.
  unfold len in Hwf. simpl in Hwf.
  induction cols as [|[n c] cols IH]; simpl in *; [done|].
  apply andb_prop in Hwf as [Hc%Nat.eqb_eq Hwf].
  rewrite col_take_all, IH by (done || lia). done.
Qed.

Lemma numeric_columns_elem n df :
  n ∈ numeric_columns df -> exists cells, (n, NumCol cells) ∈ columns df.
Proof.
  unfold numeric_columns. rewrite list_elem_of_omap.
  intros ([m c] & Hin & Hc). simpl in Hc. destruct c; try done.
  injection Hc as ->. eauto.
Qed.

Lemma no_outliers_elem df n cells :
  no_outliers df = true -> (n, NumCol cells) ∈ columns df ->
  forallb (fun b => b) (iqr_mask cells) = true.
Proof.
  unfold no_outliers. rewrite forallb_forall. intros H Hin.
  apply list_elem_of_In in Hin. by specialize (H _ Hin).
Qed.

(** C9 (amended).  On a well-formed frame in which every cell of every
    numeric column is present and lies within the bounds the code computes
    for its column, the binary64 numbers [Q1 - 1.5 * IQR] and
    [Q3 + 1.5 * IQR], IQR outlier removal returns the frame unchanged.  (The
    bounds are rounded: a value that lies on a bound of the exact interval
    can lie outside the computed one.  A missing cell is not within the
    bounds: the comparison with it is false, and its row would be
    dropped.) *)
Theorem iqr_without_outliers_is_identity df :
  wf_frame df = true -> no_outliers df = true ->
  _remove_outliers df "iqr" = Ok df.
Proof.
  intros Hwf Hno. unfold _remove_outliers. apply for_each_fixed.
  intros n [cells Hin]%numeric_columns_elem.
  pose proof (assoc_elem_NoDup _ _ _ (wf_frame_NoDup _ Hwf) Hin) as Hc.
  unfold outlier_step, getitem. rewrite Hc. simpl.
  rewrite take_rows_all; [done|done|by eapply no_outliers_elem|].
  pose proof (wf_frame_length _ _ _ Hwf Hc) as Hlen.
  unfold col_length in Hlen. simpl in Hlen. rewrite length_map in Hlen.
  unfold iqr_mask. rewrite length_map. lia.
Qed.

(** What [no_outliers] says, cell by cell. *)
Lemma no_outliers_spec df :
  no_outliers df = true <->
  forall n cells, (n, NumCol cells) ∈ columns df ->
    forall o, o ∈ cells ->
      exists v, o = Some v /\
                F64.leb ((iqr_bounds cells).1) (F64.of_Q v) = true /\
                F64.leb (F64.of_Q v) ((iqr_bounds cells).2) = true.
Proof.
  unfold no_outliers. rewrite forallb_forall. split.
  - intros H n cells Hin o Ho. apply list_elem_of_In in Hin. specialize (H _ Hin).
    simpl in H. unfold iqr_mask in H. rewrite forallb_forall in H.
    assert (Hw : within (iqr_bounds cells).1 (iqr_bounds cells).2 o = true).
    { apply H. apply in_map_iff. exists o. split; [done|by apply list_elem_of_In]. }
    destruct o as [v|]; [|done]. simpl in Hw.
    apply andb_prop in Hw as [H1 H2]. eauto.
  - intros H [n c] Hin. simpl. destruct c as [|cells| |]; try done.
    apply list_elem_of_In in Hin. unfold iqr_mask. rewrite forallb_forall.
    intros b (o & <- & Ho%list_elem_of_In)%in_map_iff.
    destruct (H _ _ Hin _ Ho) as (v & -> & H1 & H2). unfold within.
    by rewrite H1, H2.
Qed.

(** ** The store: frames that exist are left alone *)

Lemma agree_refl σ : agree σ σ.
Proof. by intros l _. Qed.

Lemma agree_dom σ0 σ l : agree σ0 σ -> l ∈ dom σ0 -> l ∈ dom σ.
Proof.
  intros Ha Hl. apply elem_of_dom. rewrite (Ha l Hl). by apply elem_of_dom.
Qed.

Lemma agree_insert σ0 σ l d : agree σ0 σ -> l ∉ dom σ0 -> agree σ0 (<[l := d]> σ).
Proof.
  intros Ha Hl k Hk. rewrite lookup_insert_ne; [by apply Ha|]. by intros ->.
Qed.

Lemma alloc_local σ0 σ d :
  agree σ0 σ -> exists l, alloc d σ = (Ok l, <[l := d]> σ) /\ local σ0 (<[l := d]> σ) l d.
Proof.
  intros Ha. exists (fresh (dom σ)). split; [done|].
  assert (Hf : fresh (dom σ) ∉ dom σ0).
  { intros Hin. apply (is_fresh (dom σ)). by eapply agree_dom. }
  split_and!; [done|by rewrite lookup_insert_eq|by apply agree_insert].
Qed.

Lemma derive_matches σ0 σ f l d :
  agree σ0 σ -> σ !! l = Some d -> matches σ0 (derive f l σ) (Ok (f d)).
Proof.
  intros Ha Hl. unfold derive, deref, mbind, M_bind. rewrite Hl.
  destruct (alloc_local σ0 σ (f d) Ha) as (l' & -> & Hloc).
  exists l'. done.
Qed.

Lemma copy_matches σ0 σ l d :
  agree σ0 σ -> σ !! l = Some d -> matches σ0 (copy l σ) (Ok d).
Proof. apply (derive_matches σ0 σ (fun d => d)). Qed.

Lemma setitem_inplace_local σ0 σ l d n c :
  local σ0 σ l d ->
  setitem_inplace l n c σ = (Ok (), <[l := setitem n c d]> σ) /\
  local σ0 (<[l := setitem n c d]> σ) l (setitem n c d).
Proof.
  intros (Hl & Hd & Ha). unfold setitem_inplace. rewrite Hd. split; [done|].
  split_and!; [done|by rewrite lookup_insert_eq|by apply agree_insert].
Qed.

Lemma matches_ret σ0 σ l d : local σ0 σ l d -> matches σ0 ((mret l : M loc) σ) (Ok d).
Proof. intros H. exists l. done. Qed.

Lemma matches_bind σ0 σ (m : M loc) (k : loc -> M loc) r (kr : DataFrame -> res DataFrame) :
  matches σ0 (m σ) r ->
  (forall σ' l d, local σ0 σ' l d -> matches σ0 (k l σ') (kr d)) ->
  matches σ0 ((m ≫= k) σ) (r ≫= kr).
Proof.
  intros Hm Hk. unfold mbind at 1, M_bind.
  destruct r as [d|e]; simpl in *.
  - destruct Hm as (l & Hout & Hloc). destruct (m σ) as [v σ']. simpl in *. subst v.
    by apply Hk.
  - destruct Hm as (Hout & Ha). destruct (m σ) as [v σ']. simpl in *. subst v. done.
Qed.

Lemma for_each_matches {A} σ0 (body_s : loc -> A -> M loc)
    (body : DataFrame -> A -> res DataFrame) xs :
  (forall σ l d x, local σ0 σ l d -> matches σ0 (body_s l x σ) (body d x)) ->
  forall σ l d, local σ0 σ l d ->
    matches σ0 (for_each_M body_s l xs σ) (for_each body d xs).
Proof.
  intros Hbody. induction xs as [|x xs IH]; intros σ l d Hloc.
  - by apply matches_ret.
  - cbn [for_each_M for_each]. apply matches_bind; [by apply Hbody|]. apply IH.
Qed.

(** A loop over the columns of a fresh copy. *)
Lemma copy_loop_matches {A} σ0 σ (body_s : loc -> A -> M loc)
    (body : DataFrame -> A -> res DataFrame) (names : DataFrame -> list A) l d :
  (forall σ l d x, local σ0 σ l d -> matches σ0 (body_s l x σ) (body d x)) ->
  agree σ0 σ -> σ !! l = Some d ->
  matches σ0 ((df_copy ← copy l; d' ← deref df_copy;
               for_each_M body_s df_copy (names d')) σ)
             (for_each body d (names d)).
Proof.
  intros Hbody Ha Hl.
  change (for_each body d (names d)) with (Ok d ≫= fun d => for_each body d (names d)).
  apply matches_bind; [by apply copy_matches|].
  intros σ' l' d' Hloc. unfold mbind, M_bind, deref.
  destruct Hloc as (H1 & H2 & H3). rewrite H2.
  by apply for_each_matches.
Qed.

Section StoreFacts.

Variable to_numeric : string -> option Q.
Variable to_datetime : string -> option Z.
Variable median_datetime : list (option Z) -> option Z.

(** An in-place update followed by returning the same reference. *)
Lemma setitem_inplace_matches σ0 σ l d n c :
  local σ0 σ l d ->
  matches σ0 ((setitem_inplace l n c;; mret l : M loc) σ) (Ok (setitem n c d)).
Proof.
  intros Hloc. destruct (setitem_inplace_local _ _ _ _ n c Hloc) as [Heq Hloc'].
  unfold mbind, M_bind. rewrite Heq. exists l. done.
Qed.

Lemma derive_local_matches σ0 σ f l d :
  local σ0 σ l d -> matches σ0 (derive f l σ) (Ok (f d)).
Proof. intros (_ & Hd & Ha). by apply derive_matches. Qed.

Lemma handle_missing_step_matches strategy σ0 σ l d column :
  local σ0 σ l d ->
  matches σ0 (Store.handle_missing_step median_datetime strategy l column σ)
             (handle_missing_step median_datetime strategy d column).
Proof.
  intros Hloc. pose proof Hloc as (Hl & Hd & Ha).
  unfold Store.handle_missing_step, handle_missing_step, getitem.
  unfold mbind at 1 2, M_bind, deref, lift. rewrite Hd.
  destruct (assoc column (columns d)) as [c|]; [|done]. cbn [mbind res_bind].
  repeat match goal with
         | |- context [if ?b then _ else _] => destruct b
         end;
    first [ by apply setitem_inplace_matches
          | by apply derive_local_matches
          | by apply matches_ret ].
Qed.

Lemma convert_step_matches σ0 σ l d column :
  local σ0 σ l d ->
  matches σ0 (Store.convert_step to_numeric to_datetime l column σ)
             (convert_step to_numeric to_datetime d column).
Proof.
  intros Hloc. pose proof Hloc as (Hl & Hd & Ha).
  unfold Store.convert_step, convert_step, getitem.
  unfold mbind at 1 2, M_bind, deref, lift. rewrite Hd.
  destruct (assoc column (columns d)) as [c|]; [|done]. cbn [mbind res_bind].
  destruct c; try (by apply matches_ret).
  repeat match goal with
         | |- context [if ?b then _ else _] => destruct b
         end;
    first [ by apply setitem_inplace_matches | by apply matches_ret ].
Qed.

Lemma outlier_step_matches method σ0 σ l d column :
  local σ0 σ l d ->
  matches σ0 (Store.outlier_step method l column σ) (outlier_step method d column).
Proof.
  intros Hloc. pose proof Hloc as (Hl & Hd & Ha).
  unfold Store.outlier_step, outlier_step, getitem.
  unfold mbind at 1 2, M_bind, deref, lift. rewrite Hd.
  destruct (assoc column (columns d)) as [c|]; [|done]. cbn [mbind res_bind].
  destruct c; try done.
  repeat match goal with
         | |- context [if ?b then _ else _] => destruct b
         end;
    first [ by apply derive_local_matches | by apply matches_ret ].
Qed.

Lemma handle_missing_values_matches strategy σ0 σ l d :
  agree σ0 σ -> σ !! l = Some d ->
  matches σ0 (Store._handle_missing_values median_datetime l strategy σ)
             (_handle_missing_values median_datetime d strategy).
Proof.
  intros Ha Hl. apply (copy_loop_matches σ0 σ _ _ column_names); [|done|done].
  intros. by apply handle_missing_step_matches.
Qed.

Lemma convert_data_types_matches σ0 σ l d :
  agree σ0 σ -> σ !! l = Some d ->
  matches σ0 (Store._convert_data_types to_numeric to_datetime l σ)
             (_convert_data_types to_numeric to_datetime d).
Proof.
  intros Ha Hl. apply (copy_loop_matches σ0 σ _ _ column_names); [|done|done].
  intros. by apply convert_step_matches.
Qed.

Lemma remove_outliers_matches method σ0 σ l d :
  agree σ0 σ -> σ !! l = Some d ->
  matches σ0 (Store._remove_outliers l method σ) (_remove_outliers d method).
Proof.
  intros Ha Hl. apply (copy_loop_matches σ0 σ _ _ numeric_columns); [|done|done].
  intros. by apply outlier_step_matches.
Qed.

Lemma clean_dataframe_matches σ0 σ l d options :
  agree σ0 σ -> σ !! l = Some d ->
  matches σ0 (Store.clean_dataframe to_numeric to_datetime median_datetime l options σ)
             (clean_dataframe to_numeric to_datetime median_datetime d options).
Proof.
  intros Ha Hl. unfold Store.clean_dataframe, clean_dataframe.
  cbv zeta.
  change (_handle_missing_values median_datetime (dropna_columns_all (dropna_rows_all d))
            (default "auto" (missing_strategy (default no_options options))) ≫= ?k)
    with (Ok d ≫= fun d => Ok (dropna_rows_all d) ≫= fun d =>
          Ok (dropna_columns_all d) ≫= fun d =>
          _handle_missing_values median_datetime d
            (default "auto" (missing_strategy (default no_options options))) ≫= k).
  apply matches_bind; [by apply copy_matches|]. clear σ l d Ha Hl.
  intros σ l d Hloc. apply matches_bind; [by apply derive_local_matches|]. clear σ l d Hloc.
  intros σ l d Hloc. apply matches_bind; [by apply derive_local_matches|]. clear σ l d Hloc.
  intros σ l d (_ & Hd & Ha).
  apply matches_bind; [by apply handle_missing_values_matches|]. clear σ l d Hd Ha.
  intros σ l d (_ & Hd & Ha).
  apply matches_bind; [by apply convert_data_types_matches|]. clear σ l d Hd Ha.
  intros σ l d Hloc.
  destruct (default true (remove_duplicates (default no_options options))).
  - change (if default false ?b then _remove_outliers (drop_duplicates d) "iqr"
            else Ok (drop_duplicates d))
      with (Ok (drop_duplicates d) ≫= fun d =>
            if default false b then _remove_outliers d "iqr" else Ok d).
    apply matches_bind; [by apply derive_local_matches|]. clear σ l d Hloc.
    intros σ l d Hloc. destruct (default false _).
    + destruct Hloc as (_ & Hd & Ha). by apply remove_outliers_matches.
    + by apply matches_ret.
  - change (if default false ?b then _remove_outliers d "iqr" else Ok d)
      with (Ok d ≫= fun d => if default false b then _remove_outliers d "iqr" else Ok d).
    apply matches_bind; [by apply matches_ret|]. clear σ l d Hloc.
    intros σ l d Hloc. destruct (default false _).
    + destruct Hloc as (_ & Hd & Ha). by apply remove_outliers_matches.
    + by apply matches_ret.
Qed.

(** C10.  [clean_dataframe] leaves the frame it is given, and every other
    frame of the store, as it was: all the cleaning is done on copies.  When
    it returns, the result is the cleaned frame and lives in an object that
    did not exist before the call, so it is not the argument. *)
Theorem clean_dataframe_leaves_input σ df d options :
  σ !! df = Some d ->
  let out := Store.clean_dataframe to_numeric to_datetime median_datetime df options σ in
  (* every frame of the store, the argument among them, is as it was *)
  (forall l, l ∈ dom σ -> out.2 !! l = σ !! l) /\
  out.2 !! df = Some d /\
  (* the result is the cleaned frame, in an object that did not exist *)
  match clean_dataframe to_numeric to_datetime median_datetime d options with
  | Ok d' => exists l', out.1 = Ok l' /\ (l' ∉ dom σ) /\ l' <> df /\ out.2 !! l' = Some d'
  | Raise e => out.1 = Raise e
  end.
Proof.
  intros Hd out.
  pose proof (clean_dataframe_matches σ σ df d options (agree_refl σ) Hd) as Hm.
  fold out in Hm. unfold matches in Hm.
  assert (Hdom : df ∈ dom σ) by (apply elem_of_dom; eauto).
  destruct (clean_dataframe _ _ _ d options) as [d'|e].
  - destruct Hm as (l' & Hout & Hl' & Hd' & Ha).
    split_and!; [done|by rewrite (Ha df Hdom)|].
    exists l'. split_and!; try done. by intros ->.
  - destruct Hm as (Hout & Ha).
    split_and!; [done|by rewrite (Ha df Hdom)|done].
Qed.

End StoreFacts.

(** ** [clean_dataframe] returns *)

Lemma column_names_take_rows mask d : column_names (take_rows mask d) = column_names d.
Proof.
  unfold column_names, take_rows. cbn [columns].
  induction (columns d) as [|[n c] cols IH]; csimpl; [done|]. by rewrite IH.
Qed.

Lemma assoc_set_names {A} n (c : A) cols :
  n ∈ cols.*1 -> (assoc_set n c cols).*1 = cols.*1.
Proof.
  induction cols as [|[m c0] cols IH]; csimpl.
  - intros H. by apply elem_of_nil in H.
  - destruct (String.eqb_spec m n) as [->|Hne]; csimpl; [done|].
    intros [?|H]%elem_of_cons; [congruence|]. by rewrite IH.
Qed.

Lemma column_names_setitem n c d :
  n ∈ column_names d -> column_names (setitem n c d) = column_names d.
Proof. apply assoc_set_names. Qed.

Lemma assoc_is_Some {A} n (cols : list (string * A)) :
  n ∈ cols.*1 -> exists c, assoc n cols = Some c.
Proof.
  intros Hin. destruct (assoc n cols) as [c|] eqn:H; [eauto|].
  by apply assoc_None_notin in H.
Qed.

Lemma NoDup_filter_names (f : string * column -> bool) cols :
  NoDup cols.*1 -> NoDup (List.filter f cols).*1.
Proof.
  induction cols as [|[m c0] cols IH]; csimpl; [done|].
  intros [Hm Hnd]%NoDup_cons. destruct (f (m, c0)); csimpl; [|by apply IH].
  apply NoDup_cons. split; [|by apply IH].
  intros ([m' c'] & Heq & Hin%list_elem_of_In%filter_In%proj1%list_elem_of_In)%list_elem_of_fmap.
  simpl in Heq. subst m'. apply Hm. apply list_elem_of_fmap. by exists (m, c').
Qed.

Lemma NoDup_columnwise g d :
  NoDup (column_names d) -> NoDup (column_names (columnwise g d)).
Proof.
  unfold column_names, columnwise. cbn [columns].
  induction (columns d) as [|[m c0] cols IH]; csimpl; [done|].
  intros [Hm Hnd]%NoDup_cons. destruct (g c0); csimpl; [|by apply IH].
  apply NoDup_cons. split; [|by apply IH].
  intros ([m' c'] & Heq & Hin)%list_elem_of_fmap. simpl in Heq. subst m'.
  apply list_elem_of_omap in Hin as ([m' c''] & Hin & Hc). simpl in Hc.
  destruct (g c''); simpl in Hc; [|done]. injection Hc as -> ->.
  apply Hm. apply list_elem_of_fmap. by exists (m, c'').
Qed.

(** A loop whose steps succeed on the columns of the frame and keep its
    column names succeeds. *)
Lemma for_each_keeps_names (step : DataFrame -> string -> res DataFrame) ns :
  (forall d n, n ∈ column_names d ->
     exists d', step d n = Ok d' /\ column_names d' = column_names d) ->
  forall d, (forall n, n ∈ ns -> n ∈ column_names d) ->
    exists d', for_each step d ns = Ok d' /\ column_names d' = column_names d.
Proof.
  intros Hstep. induction ns as [|n ns IH]; intros d Hns; simpl; [eauto|].
  destruct (Hstep d n) as (d1 & -> & Hn1); [apply Hns; left|]. simpl.
  destruct (IH d1) as (d2 & -> & Hn2).
  { intros m Hm. rewrite Hn1. apply Hns. by right. }
  exists d2. split; [done|]. congruence.
Qed.

Section Returns.

Variable to_numeric : string -> option Q.
Variable to_datetime : string -> option Z.
Variable median_datetime : list (option Z) -> option Z.

Lemma handle_missing_values_returns d strategy :
  NoDup (column_names d) ->
  exists d', _handle_missing_values median_datetime d strategy = Ok d' /\
             NoDup (column_names d').
Proof.
  intros Hnd. destruct (String.eqb_spec strategy "auto") as [->|Hne].
  - eexists. split; [by apply handle_missing_auto_columnwise|]. by apply NoDup_columnwise.
  - destruct (for_each_keeps_names (handle_missing_step median_datetime strategy)
                (column_names d)) with d as (d' & Hd' & Hn); [|done|].
    + intros d0 n Hn. unfold handle_missing_step, getitem.
      destruct (assoc_is_Some _ _ Hn) as [c ->]. cbn [mbind res_bind].
      destruct (String.eqb_spec strategy "auto"); [done|].
      repeat match goal with
             | |- context [if ?b then _ else _] => destruct b
             end;
        eexists; (split; [reflexivity|]);
        first [ done | by apply column_names_setitem | by apply column_names_take_rows ].
    + exists d'. split; [done|]. by rewrite Hn.
Qed.

Lemma assoc_take_rows mask n d :
  assoc n (columns (take_rows mask d)) = col_take mask <$> assoc n (columns d).
Proof.
  unfold take_rows. cbn [columns].
  induction (columns d) as [|[m c0] cols IH]; csimpl; [done|].
  destruct (String.eqb m n); [done|]. apply IH.
Qed.

Lemma outlier_step_numeric method d n cells :
  assoc n (columns d) = Some (NumCol cells) ->
  outlier_step method d n = Ok d \/
  exists mask, outlier_step method d n = Ok (take_rows mask d).
Proof.
  intros Hc. unfold outlier_step, getitem. rewrite Hc. cbn [mbind res_bind].
  repeat match goal with
         | |- context [if ?b then _ else _] => destruct b
         end; eauto.
Qed.

Lemma remove_outliers_returns d method :
  NoDup (column_names d) -> exists d', _remove_outliers d method = Ok d'.
Proof.
  intros Hnd. unfold _remove_outliers.
  assert (Hnum : forall n, n ∈ numeric_columns d ->
                   exists cells, assoc n (columns d) = Some (NumCol cells)).
  { intros n [cells Hin]%numeric_columns_elem. exists cells.
    by apply assoc_elem_NoDup. }
  remember (numeric_columns d) as ns eqn:E. clear E Hnd. revert d Hnum.
  induction ns as [|n ns IH]; intros d Hnum; cbn [for_each]; [eauto|].
  destruct (Hnum n) as [cells Hc]; [left|].
  destruct (outlier_step_numeric method d n cells Hc) as [->|[mask ->]];
    cbn [mbind res_bind]; apply IH; intros m Hm.
  - apply Hnum. by right.
  - destruct (Hnum m) as [cells' Hc']; [by right|].
    rewrite assoc_take_rows, Hc'. simpl. eauto.
Qed.

Lemma column_names_drop_duplicates d : column_names (drop_duplicates d) = column_names d.
Proof.
  unfold drop_duplicates. destruct (index d); [done|].
  destruct (columns d) eqn:Hc; [done|]. apply column_names_take_rows.
Qed.

(** [clean_dataframe] returns a frame, for every frame with distinct column
    names and every options record. *)
Theorem clean_dataframe_returns d options :
  NoDup (column_names d) ->
  exists d', clean_dataframe to_numeric to_datetime median_datetime d options = Ok d'.
Proof.
  intros Hnd. unfold clean_dataframe. cbv zeta.
  destruct (handle_missing_values_returns (dropna_columns_all (dropna_rows_all d))
              (default "auto" (missing_strategy (default no_options options))))
    as (d1 & -> & Hnd1).
  { unfold dropna_columns_all, column_names. cbn [columns].
    apply NoDup_filter_names. fold (column_names (dropna_rows_all d)).
    unfold dropna_rows_all. by rewrite column_names_take_rows. }
  cbn [mbind res_bind].
  rewrite (convert_data_types_columnwise _ _ _ Hnd1). cbn [mbind res_bind].
  set (d2 := columnwise _ d1).
  assert (Hnd2 : NoDup (column_names d2)) by by apply NoDup_columnwise.
  destruct (default true _), (default false _); eauto.
  - apply remove_outliers_returns. by rewrite column_names_drop_duplicates.
  - by apply remove_outliers_returns.
Qed.

End Returns.

(** ** The instance: what a call leaves behind *)

Section InstanceFacts.

Variable Scaler : Type.
Variable scaler_fit_transform :
  list (list (option Q)) -> Scaler * list (list (option Q)).

Lemma oblivious_ret {A} (a : A) : oblivious (mret a : SM Scaler A).
Proof. intros E S self0 self H. done. Qed.

Lemma oblivious_lift {A} (r : res A) : oblivious (lift_SM (Scaler := Scaler) r).
Proof. intros E S self0 self H. done. Qed.

Lemma oblivious_bind {A B} (m : SM Scaler A) (k : A -> SM Scaler B) :
  oblivious m -> (forall a, oblivious (k a)) -> oblivious (m ≫= k).
Proof.
  intros Hm Hk E S self0 self H. unfold mbind, SM_bind.
  destruct (Hm E S self0 self H) as [H1 H2].
  destruct (m self) as [r s], (m self0) as [r0 s0]. simpl in *. subst r0.
  destruct r as [a|e]; [by apply Hk|done].
Qed.

Lemma oblivious_set_encoder col le : oblivious (set_encoder (Scaler := Scaler) col le).
Proof.
  intros E S self0 self [H1 H2]. split; [done|]. split; simpl; [|done].
  rewrite H1. by rewrite insert_union_l.
Qed.

Lemma oblivious_set_scaler key (sc : Scaler) : oblivious (set_scaler key sc).
Proof.
  intros E S self0 self [H1 H2]. split; [done|]. split; simpl; [done|].
  rewrite H2. by rewrite insert_union_l.
Qed.

Lemma oblivious_for_each {St A} (body : St -> A -> SM Scaler St) xs :
  (forall s x, oblivious (body s x)) -> forall s, oblivious (for_each_SM body s xs).
Proof.
  intros Hb. induction xs as [|x xs IH]; intros s; simpl.
  - apply oblivious_ret.
  - apply oblivious_bind; [apply Hb | apply IH].
Qed.

Lemma oblivious_encode_step target df_ml col :
  oblivious (encode_step (Scaler := Scaler) target df_ml col).
Proof.
  unfold encode_step. destruct (is_target target col); [apply oblivious_ret|].
  apply oblivious_bind; [apply oblivious_lift|]. intros c.
  destruct c; try apply oblivious_lift.
  apply oblivious_bind; [apply oblivious_set_encoder|]. intros _. apply oblivious_ret.
Qed.

Lemma oblivious_prepare_frame df target :
  oblivious (prepare_frame scaler_fit_transform df target).
Proof.
  unfold prepare_frame. apply oblivious_bind.
  - apply oblivious_for_each. intros. apply oblivious_encode_step.
  - intros df_ml. cbv zeta.
    destruct (match target with Some _ => _ | None => _ end).
    + apply oblivious_ret.
    + destruct (len df_ml =? 0)%nat; [apply oblivious_lift|].
      apply oblivious_bind; [apply oblivious_set_scaler|]. intros _. apply oblivious_ret.
Qed.

(** C3 (amended).  [prepare_for_ml] keeps the encoders and the scaler it fits
    in the instance.  Called on an instance that already holds entries, it
    ends like a call on a new instance as far as the prepared data, the
    feature columns, the target and a raised exception go; the dictionaries
    of the instance, and the ['encoders'] and ['scalers'] of the result, are
    those of the new instance together with the entries that were there
    before, the new ones taking precedence. *)
Theorem prepare_for_ml_accumulates (self : DataProcessor Scaler) df target :
  let fresh := prepare_for_ml scaler_fit_transform df target (__init__ Scaler) in
  let again := prepare_for_ml scaler_fit_transform df target self in
  (* the instance keeps its old entries next to the new ones *)
  encoders again.2 = encoders fresh.2 ∪ encoders self /\
  scalers again.2 = scalers fresh.2 ∪ scalers self /\
  (* and the result shows them *)
  match fresh.1, again.1 with
  | Ok r0, Ok r =>
      data r = data r0 /\
      feature_columns r = feature_columns r0 /\
      target_column r = target_column r0 /\
      result_encoders r = result_encoders r0 ∪ encoders self /\
      result_scalers r = result_scalers r0 ∪ scalers self
  | Raise e0, Raise e => e = e0
  | _, _ => False
  end.
Proof.
  intros fresh again. subst fresh again. unfold prepare_for_ml.
  assert (Hext : extends (encoders self) (scalers self) (__init__ Scaler) self).
  { split; simpl; by rewrite (left_id_L ∅ (∪)). }
  destruct (oblivious_prepare_frame df target _ _ _ _ Hext) as [Hres [He Hs]].
  unfold mbind, SM_bind, get_self, mret, SM_ret.
  destruct (prepare_frame scaler_fit_transform df target self) as [r s].
  destruct (prepare_frame scaler_fit_transform df target (__init__ Scaler)) as [r0 s0].
  simpl in *. subst r0. destruct r as [df_ml|e]; simpl; done.
Qed.

End InstanceFacts.

(** ** Chart encoding *)

Module ChartFacts.
Import Chart.

(** Four characters for every three bytes, the last group padded. *)
Lemma b64encode_length data :
  String.length (b64encode data) = (4 * ((length data + 2) / 3))%nat.
Proof.
  assert (H : forall n data, (length data <= n)%nat ->
            String.length (b64encode data) = (4 * ((length data + 2) / 3))%nat).
  { clear data. induction n as [|n IH]; intros [|a [|b [|c data]]] Hl;
      try done; try (cbn [length] in Hl; lia).
    cbn [b64encode String.length]. cbn [length] in Hl. rewrite IH by lia.
    replace (length (a :: b :: c :: data) + 2)%nat with (length data + 2 + 1 * 3)%nat
      by (cbn [length]; lia).
    rewrite Nat.div_add by done. lia. }
  by apply (H (length data)).
Qed.

Section RenderFacts.

Variable savefig : Z -> list Byte.byte.

(** C2 (amended).  The budget is compared with the PNG bytes of the first
    rendering, not with their base64 text.  Within the budget the first image
    is emitted and nothing else is rendered; over it, the figure is rendered
    once more, at 50 dpi, and that second image is emitted whatever its size.
    There are never more than two renderings and the result is always the
    data URI of the image kept, which fits the budget as soon as one of the
    two renderings does. *)
Theorem fig_to_base64_two_attempts (self : ChartGenerator) :
  let out := _fig_to_base64 savefig self in
  let first := savefig (dpi self) in
  (* the first image is kept when its bytes fit the budget *)
  ((Z.of_nat (length first) <= max_size_bytes self)%Z ->
     renders out = [dpi self] /\ img_data out = first) /\
  (* otherwise there is one more rendering, at 50 dpi, kept whatever its size *)
  ((max_size_bytes self < Z.of_nat (length first))%Z ->
     renders out = [dpi self; 50%Z] /\ img_data out = savefig 50) /\
  (* never more than two renderings, and always a data URI of the kept image *)
  (length (renders out) <= 2)%nat /\
  uri out = "data:image/png;base64," +:+ b64encode (img_data out) /\
  (* the kept image fits the budget as soon as one of the two renderings does *)
  ((Z.of_nat (length first) <= max_size_bytes self)%Z \/
   (Z.of_nat (length (savefig 50)) <= max_size_bytes self)%Z ->
   (Z.of_nat (length (img_data out)) <= max_size_bytes self)%Z).
Proof.
  intros out first. subst out first. unfold _fig_to_base64.
  destruct (Z.ltb_spec (max_size_bytes self) (Z.of_nat (length (savefig (dpi self)))));
    simpl; split_and!; try done; try lia; intros; lia.
Qed.

End RenderFacts.

(** C2 as stated fails at a figure whose PNG has 100001 bytes at every
    resolution, the image emitted after the retry is over the ceiling, its
    bytes and its base64 text alike. *)
Lemma fig_to_base64_over_budget :
  let out := _fig_to_base64 Sample.savefig_large __init__ in
  renders out = [100%Z; 50%Z] /\
  (max_size_bytes __init__ < Z.of_nat (length (img_data out)))%Z /\
  (max_size_bytes __init__ < Z.of_nat (String.length (b64encode (img_data out))))%Z.
Proof.
  assert (Hlen : forall d, length (Sample.savefig_large d) = Z.to_nat 100001).
  { intros d. unfold Sample.savefig_large. apply repeat_length. }
  assert (Hout : _fig_to_base64 Sample.savefig_large __init__
                 = mkEncoded [100%Z; 50%Z] (Sample.savefig_large 50)
                     ("data:image/png;base64," +:+ b64encode (Sample.savefig_large 50))).
  { unfold _fig_to_base64. rewrite Hlen.
    replace (max_size_bytes __init__ <? Z.of_nat (Z.to_nat 100001))%Z with true by (symmetry; apply Z.ltb_lt; simpl; lia).
    done. }
  cbv zeta. rewrite Hout. cbn [renders img_data].
  rewrite b64encode_length, Hlen. split; [done|]. simpl max_size_bytes.
  split; [lia|].
  assert ((Z.to_nat 100001 + 2) / 3 = Z.to_nat 33334)%nat as ->.
  { symmetry. apply Nat.div_unique with (r := 1%nat); lia. }
  lia.
Qed.

(** The budget is checked on the PNG bytes, not on their base64 text: an
    image of 90000 bytes is kept although its text has 120000 characters. *)
Lemma fig_to_base64_budget_is_on_bytes :
  let out := _fig_to_base64 Sample.savefig_linear (mkChartGenerator (10, 6)%Z 3000 100000) in
  renders out = [3000%Z] /\
  Z.of_nat (String.length (b64encode (img_data out))) = 120000%Z.
Proof.
  assert (Hlen : forall d, length (Sample.savefig_linear d) = Z.to_nat (30 * d)).
  { intros d. unfold Sample.savefig_linear. apply repeat_length. }
  cbv zeta. unfold _fig_to_base64. rewrite Hlen. cbn [dpi max_size_bytes].
  replace (100000 <? Z.of_nat (Z.to_nat (30 * 3000)))%Z with false by (symmetry; apply Z.ltb_ge; lia).
  cbn [renders img_data]. split; [done|].
  rewrite b64encode_length, Hlen.
  assert ((Z.to_nat (30 * 3000) + 2) / 3 = Z.to_nat 30000)%nat as ->.
  { symmetry. apply Nat.div_unique with (r := 2%nat); lia. }
  lia.
Qed.

End ChartFacts.

(** ** Binary64: what vanishes stays vanished *)

Module F64Facts.
Import F64.

Lemma mul_vanishes_l x y : is_zero_or_nan x = true -> is_zero_or_nan (mul x y) = true.
Proof. destruct x as [s|s| |s m e]; try done; by destruct y. Qed.


Lemma add_vanishes x y :
  is_zero_or_nan x = true -> is_zero_or_nan y = true -> is_zero_or_nan (add x y) = true.
Proof. destruct x as [[]|s| |s m e], y as [[]|s'| |s' m' e']; done. Qed.

Lemma sqrt_vanishes x : is_zero_or_nan x = true -> is_zero_or_nan (sqrt x) = true.
Proof. by destruct x as [s|s| |s m e]. Qed.


Lemma div_vanishes x y :
  is_zero_or_nan x = true -> is_zero_or_nan y = true -> div x y = nan.
Proof. destruct x as [s|s| |s m e], y as [s'|s'| |s' m' e']; done. Qed.

Lemma div_nan_l y : div nan y = nan.
Proof. by destruct y. Qed.

Lemma clip_nan : clip nan = nan.
Proof. reflexivity. Qed.

Lemma is_zero_vanishes x : is_zero x = true -> is_zero_or_nan x = true.
Proof. unfold is_zero_or_nan. by intros ->. Qed.

Lemma foldl_add_vanishes l acc :
  is_zero_or_nan acc = true ->
  Forall (fun x => is_zero_or_nan x = true) l ->
  is_zero_or_nan (foldl add acc l) = true.
Proof.
  intros Hacc Hl. revert acc Hacc.
  induction Hl as [|x l Hx Hl IH]; intros acc Hacc; simpl; [done|].
  apply IH. by apply add_vanishes.
Qed.

Lemma dot_vanishes_l X Y :
  Forall (fun x => is_zero_or_nan x = true) X -> is_zero_or_nan (dot X Y) = true.
Proof.
  intros HX. unfold dot. apply foldl_add_vanishes; [done|].
  revert Y. induction HX as [|x X Hx HX IH]; intros [|y Y]; simpl; try constructor.
  - by apply mul_vanishes_l.
  - apply IH.
Qed.


(** A side without computed deviation makes the coefficient NaN: the
    covariance and the variance of that side are zero (or NaN), and zero
    divided by zero is NaN. *)
Lemma corrcoef_vanishing_l x y :
  Forall (fun d => is_zero_or_nan d = true) (deviations x) -> corrcoef x y = nan.
Proof.
  intros H. unfold corrcoef.
  rewrite (div_vanishes (mul (dot (deviations x) (deviations y)) _)
                        (sqrt (mul (dot (deviations x) (deviations x)) _))).
  - rewrite div_nan_l. apply clip_nan.
  - apply mul_vanishes_l. by apply dot_vanishes_l.
  - apply sqrt_vanishes, mul_vanishes_l. by apply dot_vanishes_l.
Qed.


Lemma forallb_is_zero_vanishes l :
  forallb is_zero l = true -> Forall (fun d => is_zero_or_nan d = true) l.
Proof.
  rewrite forallb_forall, List.Forall_forall. intros H x Hx.
  by apply is_zero_vanishes, H.
Qed.

End F64Facts.

(** ** Binary64: some values

    The numbers are those Python prints for the same operations. *)

Module F64Checks.
Import F64.

(** [0.1] is 7205759403792794 * 2^-56, and three of them add up to
    0.30000000000000004. *)
Example tenth_and_three_tenths :
  of_Q (1 # 10) = S754_finite false 7205759403792794 (-56) /\
  sum [of_Q (1 # 10); of_Q (1 # 10); of_Q (1 # 10)]
  = S754_finite false 5404319552844596 (-54) /\
  of_Q (3 # 10) = S754_finite false 5404319552844595 (-54).
Proof. split_and!; by vm_compute. Qed.

(** Ten tenths add up to [1.0] in numpy's pairwise order; from left to right
    they would add up to 0.9999999999999999. *)
Example ten_tenths :
  sum (repeat (of_Q (1 # 10)) 10) = of_Z 1 /\
  foldl add zero (repeat (of_Q (1 # 10)) 10) = S754_finite false 9007199254740991 (-53).
Proof. split_and!; by vm_compute. Qed.

(** The quartiles of 1, 2, 3, 4 are 1.75 and 3.25. *)
Example quartiles_of_four_binary64 :
  quantile (1 # 4) [Some 1%Q; Some 2%Q; Some 3%Q; Some 4%Q] = of_Q (7 # 4) /\
  quantile (3 # 4) [Some 1%Q; Some 2%Q; Some 3%Q; Some 4%Q] = of_Q (13 # 4) /\
  quantile (1 # 4) [Some 7%Q; None] = of_Z 7 /\
  quantile (1 # 4) [None] = nan.
Proof. split_and!; by vm_compute. Qed.

(** A column of equal values under the z-score mask: the standard deviation
    of three tenths is not zero, and every row is kept; that of three fives
    is zero, the scores are NaN, and no row is kept. *)
Example zscore_of_a_constant_column :
  zscore_mask [Some (1 # 10)%Q; Some (1 # 10)%Q; Some (1 # 10)%Q] = [true; true; true] /\
  zscore_mask [Some 5%Q; Some 5%Q; Some 5%Q] = [false; false; false] /\
  zscore_mask [Some 1%Q; Some 2%Q; None; Some 3%Q] = [true; true; false; true].
Proof. split_and!; by vm_compute. Qed.

End F64Checks.

(** ** Correlation *)

Module AgentFacts.
Import Agent.










Lemma paired_fst_elem a b u : u ∈ (paired a b).*1 -> Some u ∈ a.
Proof.
  revert b. induction a as [|x a IH]; intros [|y b]; csimpl;
    try (intros H; by apply elem_of_nil in H).
  destruct x as [x|], y as [y|]; csimpl.
  - intros [->|H]%elem_of_cons; [left|right; eauto].
  - intros H. right. eauto.
  - intros H. right. eauto.
  - intros H. right. eauto.
Qed.

Lemma Qsum_constant (k : Q) u :
  (forall x, x ∈ u -> (x == k)%Q) -> (Qsum u == Qlen u * k)%Q.
Proof.
  unfold Qlen. induction u as [|x u IH]; intros H.
  - simpl. ring.
  - cbn [Qsum foldr length]. fold (Qsum u). rewrite IH by (intros; apply H; by right).
    rewrite (H x) by left. rewrite Nat2Z.inj_succ. unfold Z.succ. rewrite inject_Z_plus. ring.
Qed.

Lemma mean_constant (k : Q) u :
  u <> [] -> (forall x, x ∈ u -> (x == k)%Q) -> (mean u == k)%Q.
Proof.
  intros Hne H. unfold mean. rewrite Qsum_constant by done.
  assert (~ (Qlen u == 0)%Q).
  { unfold Qlen. destruct u; [done|]. intros Heq.
    apply (f_equal Qnum) in Heq || idtac. unfold Qeq in Heq. simpl in Heq. lia. }
  field. done.
Qed.

Lemma Qsum_zero_deviation (mu mv : Q) u v :
  (forall x, x ∈ u -> (x == mu)%Q) ->
  (Qsum (zip_with (fun x y => (x - mu) * (y - mv)) u v) == 0)%Q.
Proof.
  revert v. induction u as [|x u IH]; intros [|y v] H; simpl; try done.
  rewrite IH by (intros; apply H; by right).
  rewrite (H x) by left. ring.
Qed.

Lemma codev_constant (k : Q) u v :
  (forall x, x ∈ u -> (x == k)%Q) -> (codev u v == 0)%Q.
Proof.
  intros H. unfold codev.
  destruct (decide (u = [])) as [->|Hne]; [done|].
  apply Qsum_zero_deviation. intros x Hx.
  rewrite (mean_constant k u Hne H). by apply H.
Qed.

Lemma corr_constant k a b :
  constant_column k a ->
  corr a b = rounded_corr (paired a b).*1 (paired a b).*2.
Proof.
  intros Hk. unfold corr.
  assert (H0 : (codev (paired a b).*1 (paired a b).*1 == 0)%Q).
  { apply (codev_constant k). intros x Hx. apply Hk. by eapply paired_fst_elem. }
  assert (Hz : Qeq_bool (codev (paired a b).*1 (paired a b).*1
                         * codev (paired a b).*2 (paired a b).*2) 0 = true).
  { apply Qeq_bool_iff. rewrite H0. ring. }
  by rewrite Hz.
Qed.




(** NaN when no deviation is left of one side. *)
Lemma rounded_corr_vanishing u v :
  forallb F64.is_zero (F64.deviations (map F64.of_Q u)) = true -> rounded_corr u v = None.
Proof.
  intros H. unfold rounded_corr.
  by rewrite F64Facts.corrcoef_vanishing_l by by apply F64Facts.forallb_is_zero_vanishes.
Qed.


Section CorrelationFacts.

Variable float_of_str : string -> option Q.


End CorrelationFacts.

End AgentFacts.

(** ** Computations *)

Module ComputationFacts.
Import Agent.

Section Facts.

Variable float_of_str : string -> option Q.

Lemma perform_step_effect data_files results comp :
  perform_step float_of_str data_files results comp
  = match step_effect float_of_str data_files comp with
    | Some (k, v) => <[k := v]> results
    | None => results
    end.
Proof.
  unfold perform_step, step_effect.
  destruct (data_source comp ≫= _) as [data|]; [|done].
  destruct (comp_columns comp) as [|a [|b rest]]; try done.
  repeat case_decide; try done.
  - by destruct (correlation _ _ _ _).
  - by destruct (regression _ _ _ _).
Qed.

Lemma perform_app l1 l2 data_files :
  _perform_computations float_of_str (l1 ++ l2) data_files
  = foldl (perform_step float_of_str data_files)
      (_perform_computations float_of_str l1 data_files) l2.
Proof. unfold _perform_computations. apply foldl_app. Qed.

(** Two runs that agree on a key keep agreeing on it. *)
Lemma foldl_agree_at k data_files l (m1 m2 : gmap string computed) :
  m1 !! k = m2 !! k ->
  foldl (perform_step float_of_str data_files) m1 l !! k
  = foldl (perform_step float_of_str data_files) m2 l !! k.
Proof.
  revert m1 m2. induction l as [|c l IH]; intros m1 m2 H; simpl; [done|].
  apply IH. rewrite !perform_step_effect.
  destruct (step_effect _ _ c) as [[k' v]|]; [|done].
  destruct (decide (k' = k)) as [->|Hne].
  - by rewrite !lookup_insert_eq.
  - by rewrite !lookup_insert_ne.
Qed.

(** The only values ever stored under an error key are errors. *)
Lemma step_effect_error_key data_files c t v :
  step_effect float_of_str data_files c = Some (key_error t, v) -> is_error v.
Proof.
  unfold step_effect.
  destruct (data_source c ≫= _) as [data|]; [|done].
  destruct (comp_columns c) as [|a [|b rest]]; try done.
  repeat case_decide; try done.
  - destruct (correlation _ _ _ _) as [r|e]; intros [= H1 H2]; by subst v.
  - destruct (regression _ _ _ _) as [r|e]; intros [= H1 H2]; by subst v.
Qed.

Lemma foldl_error_stays t data_files l (m : gmap string computed) :
  (exists v, m !! key_error t = Some v /\ is_error v) ->
  exists v, foldl (perform_step float_of_str data_files) m l !! key_error t = Some v
            /\ is_error v.
Proof.
  revert m. induction l as [|c l IH]; intros m H; simpl; [done|].
  apply IH. rewrite perform_step_effect.
  destruct (step_effect _ _ c) as [[k' v]|] eqn:He; [|done].
  destruct (decide (k' = key_error t)) as [->|Hne].
  - rewrite lookup_insert_eq. exists v. split; [done|]. by eapply step_effect_error_key.
  - by rewrite lookup_insert_ne.
Qed.

(** A column that the frame does not have. *)
Lemma correlation_unresolved df a b :
  a ∉ column_names df \/ b ∉ column_names df ->
  exists col, (col = a \/ col = b) /\
    correlation float_of_str (PFrame df) a b = Raise (KeyError col).
Proof.
  unfold correlation, index_payload, getitem, column_names. intros H.
  destruct (assoc a (columns df)) as [ca|] eqn:Ha.
  - destruct H as [H|H]; [apply assoc_None_notin in H; congruence|].
    apply assoc_None_notin in H. rewrite H. exists b. by split; [right|].
  - exists a. by split; [left|].
Qed.

Lemma regression_unresolved df a b :
  a ∉ column_names df \/ b ∉ column_names df ->
  exists col, (col = a \/ col = b) /\
    regression float_of_str (PFrame df) a b = Raise (KeyError col).
Proof.
  unfold regression, index_payload, getitem, column_names. intros H.
  destruct (assoc a (columns df)) as [ca|] eqn:Ha.
  - destruct H as [H|H]; [apply assoc_None_notin in H; congruence|].
    apply assoc_None_notin in H. rewrite H. exists b. by split; [right|].
  - exists a. by split; [left|].
Qed.

(** C6 (amended).  A computation whose table is not in the bundle is
    skipped without a trace: the results are those of the list without it.
    A correlation or regression one of whose columns is not in its table
    stores the [KeyError] under the key [computation_error_<type>]; at the
    end of the run that key still holds an error (a later failure of the
    same type may have replaced it), and every other key holds what it
    holds when the failing computation is left out: the other computations
    run and contribute as if it were not there. *)
Theorem unresolved_reference_is_local data_files l1 comp l2 :
  let run := fun l => _perform_computations float_of_str l data_files in
  (* the table does not resolve: the computation leaves no trace *)
  (data_source comp ≫= (data_files !!.) = None ->
     run (l1 ++ comp :: l2) = run (l1 ++ l2)) /\
  (* a column does not resolve: the error is stored under the error key of
     the computation's type, and every other key is as without it *)
  (forall df a b rest,
     data_source comp ≫= (data_files !!.) = Some (PFrame df) ->
     comp_columns comp = a :: b :: rest ->
     comp_type comp = Some "correlation" \/ comp_type comp = Some "regression" ->
     a ∉ column_names df \/ b ∉ column_names df ->
     (exists col, (col = a \/ col = b) /\
        run (l1 ++ [comp]) !! key_error (comp_type comp)
        = Some (ComputationError (KeyError col))) /\
     (exists v, run (l1 ++ comp :: l2) !! key_error (comp_type comp) = Some v /\ is_error v) /\
     (forall k, k <> key_error (comp_type comp) ->
        run (l1 ++ comp :: l2) !! k = run (l1 ++ l2) !! k)).
Proof.
  intros run. subst run. cbv beta. split.
  - intros Hsrc. rewrite !perform_app. simpl. f_equal.
    rewrite perform_step_effect. unfold step_effect. by rewrite Hsrc.
  - intros df a b rest Hsrc Hcols Htype Hcol.
    assert (Heff : exists col, (col = a \/ col = b) /\
              step_effect float_of_str data_files comp
              = Some (key_error (comp_type comp), ComputationError (KeyError col))).
    { unfold step_effect. rewrite Hsrc, Hcols.
      destruct Htype as [Ht|Ht]; rewrite Ht.
      - destruct (correlation_unresolved df a b Hcol) as (col & Hc & ->).
        exists col. split; [done|]. by rewrite decide_True.
      - destruct (regression_unresolved df a b Hcol) as (col & Hc & ->).
        exists col. split; [done|]. rewrite decide_False by done. by rewrite decide_True. }
    destruct Heff as (col & Hc & Heff).
    split_and!.
    + exists col. split; [done|]. rewrite perform_app. simpl.
      rewrite perform_step_effect, Heff. by rewrite lookup_insert_eq.
    + rewrite perform_app. simpl. apply foldl_error_stays.
      rewrite perform_step_effect, Heff. rewrite lookup_insert_eq. eexists. by split.
    + intros k Hk. rewrite !perform_app. simpl. apply foldl_agree_at.
      rewrite perform_step_effect, Heff. by rewrite lookup_insert_ne.
Qed.

End Facts.

(** C6 as stated fails: a computation on a table that is not in the bundle
    leaves nothing in the results. *)
Lemma unresolved_table_not_recorded :
  _perform_computations Sample.to_numeric
    [mkComputation (Some "correlation") (Some "sales.csv") ["price"; "units"]] ∅
  = ∅.
Proof. reflexivity. Qed.

End ComputationFacts.

(** ** The collaborator's response *)

Module ResponseFacts.
Import Agent.

Section Facts.

Variable float_of_str : string -> option Q.
Variable json_loads : string -> option json.
Variable chat_completion : string -> gmap string payload -> res string.
Variable generate_chart : gmap string payload -> json -> option string.



End Facts.

End ResponseFacts.

(** ** Least squares *)

Module RegressionFacts.
Import Agent.

Lemma zip_with_rows (f : Q -> Q -> Q) (l : list (Q * Q)) :
  zip_with f l.*1 l.*2 = map (fun p => f p.1 p.2) l.
Proof. induction l as [|[a b] l IH]; [done|]. cbn. f_equal. exact IH. Qed.

Lemma zip_with_rows_fst (f : Q -> Q -> Q) (l : list (Q * Q)) :
  zip_with f l.*1 l.*1 = map (fun p => f p.1 p.1) l.
Proof. induction l as [|[a b] l IH]; [done|]. cbn. f_equal. exact IH. Qed.

Lemma zip_with_rows_snd (f : Q -> Q -> Q) (l : list (Q * Q)) :
  zip_with f l.*2 l.*2 = map (fun p => f p.2 p.2) l.
Proof. induction l as [|[a b] l IH]; [done|]. cbn. f_equal. exact IH. Qed.

Lemma Qsum_fst (l : list (Q * Q)) : Qsum l.*1 = sum_over fst l.
Proof. reflexivity. Qed.

Lemma Qsum_snd (l : list (Q * Q)) : Qsum l.*2 = sum_over snd l.
Proof. reflexivity. Qed.

Lemma Qsum_cons x l : Qsum (x :: l) = (x + Qsum l)%Q.
Proof. reflexivity. Qed.

Lemma Qlen_S {A} (a : A) l : (Qlen (a :: l) == Qlen l + 1)%Q.
Proof.
  unfold Qlen. cbn [length]. rewrite Nat2Z.inj_succ. unfold Z.succ.
  by rewrite inject_Z_plus.
Qed.

(** The sums of the quadratic expressions, in terms of the six basic sums. *)
Lemma sum_over_quadratic (a b c d e f : Q) l :
  (sum_over (fun p => a * (p.1 * p.1) + b * (p.1 * p.2) + c * (p.2 * p.2)
                      + d * p.1 + e * p.2 + f) l
   == a * sum_over (fun p => p.1 * p.1) l + b * sum_over (fun p => p.1 * p.2) l
      + c * sum_over (fun p => p.2 * p.2) l
      + d * sum_over fst l + e * sum_over snd l + f * Qlen l)%Q.
Proof.
  unfold sum_over. induction l as [|[x y] l IH].
  - unfold Qlen. simpl. ring.
  - cbn [map]. rewrite !Qsum_cons, Qlen_S, IH. cbn [fst snd]. ring.
Qed.

Lemma sum_over_ext (f g : Q * Q -> Q) l :
  (forall p, (f p == g p)%Q) -> (sum_over f l == sum_over g l)%Q.
Proof.
  intros H. unfold sum_over. induction l as [|p l IH]; [done|].
  cbn [map]. rewrite !Qsum_cons. by rewrite IH, H.
Qed.

Lemma sum_over_nonneg (f : Q * Q -> Q) l :
  (forall p, (0 <= f p)%Q) -> (0 <= sum_over f l)%Q.
Proof.
  intros H. unfold sum_over. induction l as [|p l IH]; [done|].
  cbn [map]. rewrite Qsum_cons.
  replace 0%Q with (0 + 0)%Q by done. by apply Qplus_le_compat.
Qed.

Lemma ss_res_rows (s i : Q) l :
  (ss_res s i l.*1 l.*2
   == sum_over (fun p => p.2 * p.2) l - 2 * s * sum_over (fun p => p.1 * p.2) l
      - 2 * i * sum_over snd l + s * s * sum_over (fun p => p.1 * p.1) l
      + 2 * s * i * sum_over fst l + Qlen l * (i * i))%Q.
Proof.
  unfold ss_res. rewrite zip_with_rows.
  change (Qsum (map ?f l)) with (sum_over f l).
  rewrite (sum_over_ext _ (fun p => (s * s) * (p.1 * p.1) + (- (2) * s) * (p.1 * p.2)
                                    + 1 * (p.2 * p.2) + (2 * s * i) * p.1
                                    + (- (2) * i) * p.2 + i * i)%Q)
    by (intros p; cbn beta; ring).
  rewrite sum_over_quadratic. ring.
Qed.

Lemma codev_rows (mx my : Q) l :
  (sum_over (fun p => (p.1 - mx) * (p.2 - my)) l
   == sum_over (fun p => p.1 * p.2) l - my * sum_over fst l - mx * sum_over snd l
      + Qlen l * (mx * my))%Q.
Proof.
  rewrite (sum_over_ext _ (fun p => 0 * (p.1 * p.1) + 1 * (p.1 * p.2)
                                    + 0 * (p.2 * p.2) + (- my) * p.1
                                    + (- mx) * p.2 + mx * my)%Q)
    by (intros p; cbn beta; ring).
  rewrite sum_over_quadratic. ring.
Qed.

Lemma codev_rows_xx (mx : Q) l :
  (sum_over (fun p => (p.1 - mx) * (p.1 - mx)) l
   == sum_over (fun p => p.1 * p.1) l - 2 * mx * sum_over fst l + Qlen l * (mx * mx))%Q.
Proof.
  rewrite (sum_over_ext _ (fun p => 1 * (p.1 * p.1) + 0 * (p.1 * p.2)
                                    + 0 * (p.2 * p.2) + (- (2) * mx) * p.1
                                    + 0 * p.2 + mx * mx)%Q)
    by (intros p; cbn beta; ring).
  rewrite sum_over_quadratic. ring.
Qed.

(** A sum of squares that vanishes has only vanishing terms. *)
Lemma zero_variance_rows (mx : Q) l :
  (sum_over (fun p => (p.1 - mx) * (p.1 - mx)) l == 0)%Q ->
  forall p, p ∈ l -> (p.1 == mx)%Q.
Proof.
  unfold sum_over. induction l as [|q l IH]; intros H p Hp.
  - by apply elem_of_nil in Hp.
  - cbn [map] in H. rewrite Qsum_cons in H.
    assert (H1 : (0 <= (q.1 - mx) * (q.1 - mx))%Q) by exact (Qpower.Qsqr_nonneg (q.1 - mx)).
    assert (H2 : (0 <= Qsum (map (fun p : Q * Q => (p.1 - mx) * (p.1 - mx)) l))%Q).
    { apply (sum_over_nonneg (fun p => (p.1 - mx) * (p.1 - mx))%Q).
      intros r. exact (Qpower.Qsqr_nonneg (r.1 - mx)). }
    assert (H3 : ((q.1 - mx) * (q.1 - mx) == 0)%Q).
    { apply Qle_antisym; [|done]. rewrite <- H.
      rewrite <- (Qplus_0_r ((q.1 - mx) * (q.1 - mx))) at 1.
      by apply Qplus_le_compat; [apply Qle_refl|]. }
    assert (H4 : (Qsum (map (fun p : Q * Q => (p.1 - mx) * (p.1 - mx)) l) == 0)%Q).
    { rewrite H3 in H. by rewrite Qplus_0_l in H. }
    apply elem_of_cons in Hp as [->|Hp]; [|by apply IH].
    apply Qmult_integral in H3.
    assert (q.1 - mx == 0)%Q by (by destruct H3).
    apply (Qplus_inj_r _ _ (- mx)). by rewrite Qplus_opp_r.
Qed.

Lemma zero_variance_codev (mx my : Q) l :
  (sum_over (fun p => (p.1 - mx) * (p.1 - mx)) l == 0)%Q ->
  (sum_over (fun p => (p.1 - mx) * (p.2 - my)) l == 0)%Q.
Proof.
  intros H. pose proof (zero_variance_rows mx l H) as Hall. clear H.
  unfold sum_over. induction l as [|q l IH]; [done|].
  cbn [map]. rewrite Qsum_cons. rewrite IH by (intros; apply Hall; by right).
  rewrite (Hall q) by left. ring.
Qed.

Lemma rss_decomposition (syy sxy sy sxx sx n s i s0 i0 : Q) :
  (syy - 2 * s * sxy - 2 * i * sy + s * s * sxx + 2 * s * i * sx + n * (i * i)
   == (syy - 2 * s0 * sxy - 2 * i0 * sy + s0 * s0 * sxx + 2 * s0 * i0 * sx + n * (i0 * i0))
      + 2 * (s0 - s) * (sxy - s0 * sxx - i0 * sx)
      + 2 * (i0 - i) * (sy - s0 * sx - n * i0)
      + ((s0 - s) * (s0 - s) * sxx + 2 * (s0 - s) * (i0 - i) * sx
         + n * ((i0 - i) * (i0 - i))))%Q.
Proof. ring. Qed.

Lemma Qlen_nonzero {A} (l : list A) : l <> [] -> ~ (Qlen l == 0)%Q.
Proof.
  destruct l; [done|]. intros _ H. unfold Qlen, Qeq in H. simpl in H. lia.
Qed.

(** The fitted line has the least residual sum of squares, on rows. *)
Lemma ols_least_squares_rows l (s i : Q) :
  l <> [] ->
  (ss_res (ols l.*1 l.*2).1 (ols l.*1 l.*2).2 l.*1 l.*2 <= ss_res s i l.*1 l.*2)%Q.
Proof.
  intros Hne. pose proof (Qlen_nonzero l Hne) as Hn.
  set (s0 := (ols l.*1 l.*2).1). set (i0 := (ols l.*1 l.*2).2).
  rewrite !ss_res_rows.
  set (n := Qlen l) in *. set (sx := sum_over fst l). set (sy := sum_over snd l).
  set (sxx := sum_over (fun p => p.1 * p.1)%Q l).
  set (sxy := sum_over (fun p => p.1 * p.2)%Q l).
  set (syy := sum_over (fun p => p.2 * p.2)%Q l).
  assert (Hmx : (mean l.*1 == sx / n)%Q).
  { unfold mean, Qlen. rewrite length_fmap. done. }
  assert (Hmy : (mean l.*2 == sy / n)%Q).
  { unfold mean, Qlen. rewrite length_fmap. done. }
  assert (Hcxx : (codev l.*1 l.*1 == sxx - sx * sx / n)%Q).
  { unfold codev. rewrite zip_with_rows_fst.
    change (Qsum (map ?f l)) with (sum_over f l).
    rewrite codev_rows_xx. fold n sx sxx. rewrite Hmx. field. done. }
  assert (Hcxy : (codev l.*1 l.*2 == sxy - sx * sy / n)%Q).
  { unfold codev. rewrite zip_with_rows.
    change (Qsum (map ?f l)) with (sum_over f l).
    rewrite codev_rows. fold n sx sy sxy. rewrite Hmx, Hmy. field. done. }
  assert (Hi0 : (i0 == sy / n - s0 * (sx / n))%Q).
  { unfold i0, s0, ols. cbn [fst snd]. by rewrite Hmx, Hmy. }
  assert (E1 : (sy - s0 * sx - n * i0 == 0)%Q).
  { rewrite Hi0. field. done. }
  assert (E2 : (sxy - s0 * sxx - i0 * sx == 0)%Q).
  { rewrite Hi0.
    assert (Hs0 : (sxy - sx * sy / n - s0 * (sxx - sx * sx / n) == 0)%Q).
    { unfold s0, ols. cbn [fst].
      destruct (Qeq_bool (codev l.*1 l.*1) 0) eqn:Hz.
      - apply Qeq_bool_iff in Hz.
        assert (Hxy0 : (codev l.*1 l.*2 == 0)%Q).
        { unfold codev. rewrite zip_with_rows.
          apply (zero_variance_codev (mean l.*1) (mean l.*2) l).
          unfold codev in Hz. by rewrite zip_with_rows_fst in Hz. }
        rewrite <- Hcxy, Hxy0. ring.
      - assert (Hnz : ~ (codev l.*1 l.*1 == 0)%Q).
        { intros H. apply Qeq_bool_iff in H. congruence. }
        rewrite <- Hcxy, <- Hcxx. field. done. }
    rewrite <- Hs0. field. done. }
  rewrite (rss_decomposition syy sxy sy sxx sx n s i s0 i0).
  rewrite E1, E2.
  assert (HD : (0 <= (s0 - s) * (s0 - s) * sxx + 2 * (s0 - s) * (i0 - i) * sx
                     + n * ((i0 - i) * (i0 - i)))%Q).
  { assert (Heq : (sum_over (fun p => ((s0 - s) * p.1 + (i0 - i)) * ((s0 - s) * p.1 + (i0 - i))) l
                   == (s0 - s) * (s0 - s) * sxx + 2 * (s0 - s) * (i0 - i) * sx
                      + n * ((i0 - i) * (i0 - i)))%Q).
    { rewrite (sum_over_ext _ (fun p => ((s0 - s) * (s0 - s)) * (p.1 * p.1) + 0 * (p.1 * p.2)
                                    + 0 * (p.2 * p.2) + (2 * (s0 - s) * (i0 - i)) * p.1
                                    + 0 * p.2 + (i0 - i) * (i0 - i))%Q)
        by (intros p; cbn beta; ring).
      rewrite sum_over_quadratic. fold n sx sxx. ring. }
    rewrite <- Heq. apply sum_over_nonneg. intros p.
    exact (Qpower.Qsqr_nonneg ((s0 - s) * p.1 + (i0 - i))). }
  set (R0 := (syy - 2 * s0 * sxy - 2 * i0 * sy + s0 * s0 * sxx + 2 * s0 * i0 * sx
              + n * (i0 * i0))%Q) in *.
  set (D := ((s0 - s) * (s0 - s) * sxx + 2 * (s0 - s) * (i0 - i) * sx
             + n * ((i0 - i) * (i0 - i)))%Q) in *.
  setoid_replace (R0 + 2 * (s0 - s) * 0 + 2 * (i0 - i) * 0 + D)%Q with (R0 + D)%Q
    using relation Qeq by ring.
  rewrite <- (Qplus_0_r R0) at 1. apply Qplus_le_compat; [apply Qle_refl|done].
Qed.

Lemma ols_least_squares x y (s i : Q) :
  length x = length y -> x <> [] ->
  (ss_res (ols x y).1 (ols x y).2 x y <= ss_res s i x y)%Q.
Proof.
  intros Hlen Hne.
  assert (Hx : (zip x y).*1 = x) by (apply fst_zip; lia).
  assert (Hy : (zip x y).*2 = y) by (apply snd_zip; lia).
  assert (Hz : zip x y <> []).
  { destruct x, y; try done. }
  pose proof (ols_least_squares_rows (zip x y) s i Hz) as H.
  by rewrite Hx, Hy in H.
Qed.

End RegressionFacts.

(** ** Regression *)

Module RegressionClaim.
Import Agent RegressionFacts.

Lemma dropna_all_present {A} (l : list (option A)) :
  forallb notna l = true -> length (dropna l) = length l.
Proof.
  unfold dropna. induction l as [|[x|] l IH]; csimpl; [done| |done].
  intros H. by rewrite IH.
Qed.

Section Facts.

Variable float_of_str : string -> option Q.


End Facts.


End RegressionClaim.

(** * Counterexamples and instances *)

Module Instances.
Import Agent.

(** C1 as stated fails: four of five values parse, which is 80% of the
    non-missing values, and the column is left as text. *)
Lemma exactly_80_percent_is_not_promoted :
  spec_promotes Sample.to_numeric Example.amounts_80 = true /\
  _convert_data_types Sample.to_numeric Sample.to_datetime Example.amounts_80_frame
  = Ok Example.amounts_80_frame /\
  assoc "amount" (columns Example.amounts_80_frame) = Some (ObjCol Example.amounts_80).
Proof. by vm_compute. Qed.

(** The conversion rule at the column of monetary amounts. *)
Lemma convert_promotes_text_column_witness :
  NoDup (column_names Example.amounts_money_frame) /\
  assoc "amount" (columns Example.amounts_money_frame) = Some (ObjCol Example.amounts_money) /\
  exists df' c',
    _convert_data_types Sample.to_numeric Sample.to_datetime Example.amounts_money_frame
    = Ok df' /\
    assoc "amount" (columns df') = Some c' /\
    (is_numeric c' = true <->
       _is_date_column Example.amounts_money = false /\
       (4 * length Example.amounts_money
        < 5 * notna_sum (numeric_series Sample.to_numeric Example.amounts_money))%nat) /\
    (is_numeric c' = true ->
       c' = NumCol (numeric_series Sample.to_numeric Example.amounts_money)) /\
    (_is_date_column Example.amounts_money = false -> is_numeric c' = false ->
       c' = ObjCol Example.amounts_money) /\
    (_is_date_column Example.amounts_money = true ->
       c' = DateCol (map (fun o => o ≫= Sample.to_datetime) Example.amounts_money)).
Proof.
  assert (Hnd : NoDup (column_names Example.amounts_money_frame)).
  { apply NoDup_cons. split; [apply not_elem_of_nil | apply NoDup_nil_2]. }
  split; [exact Hnd|]. split; [reflexivity|].
  apply (convert_promotes_text_column Sample.to_numeric Sample.to_datetime
           Example.amounts_money_frame "amount" Example.amounts_money Hnd).
  reflexivity.
Defined.

(** The monetary column does become numeric. *)
Example money_column_is_promoted :
  _convert_data_types Sample.to_numeric Sample.to_datetime Example.amounts_money_frame
  = Ok (mkDataFrame [0; 1; 2; 3; 4]%Z
          [("amount", NumCol [Some 1000%Q; Some 250%Q; Some 75%Q; Some 3%Q; Some 12%Q])]).
Proof. reflexivity. Qed.

(** The ['auto'] policy at the survey frame: the sparse column goes, the
    city is filled with the more frequent one, the age with the median. *)
Lemma auto_policy_witness :
  wf_frame Example.survey_frame = true /\
  exists df',
    _handle_missing_values Sample.median_datetime Example.survey_frame "auto" = Ok df' /\
    assoc "note" (columns df') = None /\
    assoc "city" (columns df')
    = Some (ObjCol [Some "Pune"; Some "Pune"; Some "Pune"; Some "Agra"]) /\
    assoc "age" (columns df')
    = Some (NumCol [Some 30%Q; Some 40%Q; Some 30%Q; Some 20%Q]).
Proof.
  split; [reflexivity|].
  destruct (auto_policy Sample.median_datetime Example.survey_frame eq_refl)
    as (df' & Hrun & Hcols).
  exists df'. split; [exact Hrun|].
  vm_compute in Hrun. injection Hrun as <-. by vm_compute.
Defined.

(** Outlier removal at a frame without outliers. *)
Lemma iqr_without_outliers_is_identity_witness :
  wf_frame Example.steady_frame = true /\
  no_outliers Example.steady_frame = true /\
  _remove_outliers Example.steady_frame "iqr" = Ok Example.steady_frame.
Proof.
  split; [reflexivity|]. split; [reflexivity|].
  apply iqr_without_outliers_is_identity; reflexivity.
Defined.

(** C9 as stated fails on a bound.  Every value of the column lies in the
    exact interval, which is [0, 4.2], the value 0 on its lower bound; the
    lower bound the code computes is 2^52 * 2^-103 = 2^-51 (about 4.4e-16),
    and the row of the value 0 is dropped. *)
Lemma value_on_the_bound_is_dropped :
  wf_frame Example.boundary_frame = true /\
  Exact.no_outliers Example.boundary_frame = true /\
  (iqr_bounds [Some (21 # 10)%Q; Some (39 # 10)%Q; Some 0%Q; Some (22 # 10)%Q]).1
  = S754_finite false (2 ^ 52) (-103) /\
  no_outliers Example.boundary_frame = false /\
  _remove_outliers Example.boundary_frame "iqr"
  = Ok (mkDataFrame [0; 1; 3]%Z
          [("v", NumCol [Some (21 # 10)%Q; Some (39 # 10)%Q; Some (22 # 10)%Q])]).
Proof. split_and!; by vm_compute. Qed.

(** C3 as stated fails: after a call on a frame with a text column, a call
    on a numeric frame returns the encoder of the first call; on a new
    instance it returns none. *)
Lemma second_call_shows_first_call :
  let first := prepare_for_ml Sample.scaler_fit_transform Example.cities_frame None
                 (__init__ unit) in
  let second := prepare_for_ml Sample.scaler_fit_transform Example.readings_frame None
                  first.2 in
  let fresh := prepare_for_ml Sample.scaler_fit_transform Example.readings_frame None
                 (__init__ unit) in
  (exists r, second.1 = Ok r /\
     result_encoders r !! "city" = Some (mkLabelEncoder ["Agra"; "Pune"])) /\
  (exists r, fresh.1 = Ok r /\ result_encoders r !! "city" = None) /\
  second.1 <> fresh.1.
Proof.
  cbv zeta. split_and!.
  - eexists. split; reflexivity.
  - eexists. split; reflexivity.
  - intros H.
    apply (f_equal (fun r => match r with
                             | Ok m => result_encoders m !! "city"
                             | Raise _ => None
                             end)) in H.
    vm_compute in H. discriminate H.
Qed.

(** [clean_dataframe] at a store holding the survey frame: the frame is
    still there, and the result is another object. *)
Lemma clean_dataframe_leaves_input_witness :
  let σ : gmap loc DataFrame := {[ 0%nat := Example.survey_frame ]} in
  let out := Store.clean_dataframe Sample.to_numeric Sample.to_datetime
               Sample.median_datetime 0%nat None σ in
  σ !! 0%nat = Some Example.survey_frame /\
  out.2 !! 0%nat = Some Example.survey_frame /\
  exists l' d', out.1 = Ok l' /\ l' <> 0%nat /\ out.2 !! l' = Some d'.
Proof.
  cbv zeta. split; [reflexivity|].
  pose proof (clean_dataframe_leaves_input Sample.to_numeric Sample.to_datetime
                Sample.median_datetime {[ 0%nat := Example.survey_frame ]} 0%nat
                Example.survey_frame None eq_refl) as (_ & Hin & Hout).
  split; [exact Hin|].
  destruct (clean_dataframe_returns Sample.to_numeric Sample.to_datetime
              Sample.median_datetime Example.survey_frame None) as [d' Hd'].
  { apply (wf_frame_NoDup Example.survey_frame eq_refl). }
  rewrite Hd' in Hout. destruct Hout as (l' & H1 & _ & H2 & H3).
  by exists l', d'.
Defined.




(** A column of equal integers: the computed mean is the value itself, no
    deviation is left, and the correlation is NaN. *)
Lemma constant_fives_give_nan :
  F64.deviations (map F64.of_Q [5%Q; 5%Q; 5%Q]) = [F64.zero; F64.zero; F64.zero] /\
  correlation Sample.to_numeric (PFrame Example.fives_frame) "a" "b" = Ok None /\
  correlation Sample.to_numeric (PFrame Example.fives_frame) "a" "a" = Ok None.
Proof.
  assert (Hk : constant_column 5 [Some 5%Q; Some 5%Q; Some 5%Q]).
  { intros v Hv.
    repeat (apply elem_of_cons in Hv as [[= ->]|Hv]; [done|]).
    by apply elem_of_nil in Hv. }
  split; [by vm_compute|].
  assert (Hab : correlation Sample.to_numeric (PFrame Example.fives_frame) "a" "b"
                = Ok (corr [Some 5%Q; Some 5%Q; Some 5%Q]
                           [Some 1%Q; Some 2%Q; Some 3%Q])) by reflexivity.
  assert (Haa : correlation Sample.to_numeric (PFrame Example.fives_frame) "a" "a"
                = Ok (corr [Some 5%Q; Some 5%Q; Some 5%Q]
                           [Some 5%Q; Some 5%Q; Some 5%Q])) by reflexivity.
  rewrite Hab, Haa. split.
  - rewrite (AgentFacts.corr_constant _ _ _ Hk).
    rewrite AgentFacts.rounded_corr_vanishing; [reflexivity|by vm_compute].
  - rewrite (AgentFacts.corr_constant _ _ _ Hk).
    rewrite AgentFacts.rounded_corr_vanishing; [reflexivity|by vm_compute].
Qed.

End Instances.

(** * The definitions at work *)

Module Checks.

Example b64encode_three_bytes :
  Chart.b64encode [Byte.x4d; Byte.x61; Byte.x6e] = "TWFu".
Proof. reflexivity. Qed.

Example b64encode_two_bytes : Chart.b64encode [Byte.x4d; Byte.x61] = "TWE=".
Proof. reflexivity. Qed.

Example b64encode_one_byte : Chart.b64encode [Byte.x4d] = "TQ==".
Proof. reflexivity. Qed.

Example iso_date_is_date_like : _is_date_column [None; Some "2024-03-01"] = true.
Proof. reflexivity. Qed.

Example amount_is_not_date_like : _is_date_column [Some "$1,000"; Some "12"] = false.
Proof. reflexivity. Qed.

Example strip_formatting_money : strip_formatting "$1,000.50%" = "1000.50".
Proof. reflexivity. Qed.

Example quartiles_of_four :
  quantile (1 # 4) [Some 1%Q; Some 2%Q; Some 3%Q; Some 4%Q] = Some (7 # 4)%Q /\
  quantile (3 # 4) [Some 1%Q; Some 2%Q; Some 3%Q; Some 4%Q] = Some (13 # 4)%Q.
Proof. by vm_compute. Qed.

Example median_skips_missing : median [Some 30%Q; Some 40%Q; None; Some 20%Q] = Some 30%Q.
Proof. reflexivity. Qed.

Example mode_breaks_ties_by_order :
  mode [Some "b"; Some "a"; None; Some "b"; Some "a"] = ["a"; "b"].
Proof. reflexivity. Qed.

Example an_outlier_is_removed :
  _remove_outliers
    (mkDataFrame [0; 1; 2; 3; 4]%Z
       [("v", NumCol [Some 1%Q; Some 2%Q; Some 3%Q; Some 4%Q; Some 100%Q])]) "iqr"
  = Ok (mkDataFrame [0; 1; 2; 3]%Z
          [("v", NumCol [Some 1%Q; Some 2%Q; Some 3%Q; Some 4%Q])]).
Proof. reflexivity. Qed.

Example a_missing_numeric_cell_drops_its_row :
  _remove_outliers
    (mkDataFrame [0; 1; 2; 3; 4]%Z
       [("v", NumCol [Some 1%Q; Some 2%Q; None; Some 3%Q; Some 4%Q])]) "iqr"
  = Ok (mkDataFrame [0; 1; 3; 4]%Z
          [("v", NumCol [Some 1%Q; Some 2%Q; Some 3%Q; Some 4%Q])]).
Proof. reflexivity. Qed.

Example search_braces_is_greedy :
  Agent.search_braces "see {a} and {b}." = Some "{a} and {b}".
Proof. reflexivity. Qed.

Example later_error_replaces_earlier :
  Agent._perform_computations Sample.to_numeric
    [ Agent.mkComputation (Some "correlation") (Some "t") ["p"; "y"]
    ; Agent.mkComputation (Some "correlation") (Some "t") ["x"; "q"] ]
    {["t" := Agent.PFrame Example.xy_frame]}
  = {["computation_error_correlation" := Agent.ComputationError (KeyError "q")]}.
Proof. reflexivity. Qed.

End Checks.

(** * More facts about the cleaning methods *)

Module Cleaning.

Lemma dropna_app {A} (l1 l2 : list (option A)) : dropna (l1 ++ l2) = dropna l1 ++ dropna l2.
Proof. unfold dropna. apply omap_app. Qed.

(** X1.  Only the first ten present values of a column decide whether it is
    date-like: the cells that follow them are not looked at, so appending
    anything to a column with ten present values does not change the
    answer. *)
Theorem is_date_column_reads_ten_values (l1 l2 : list (option string)) :
  (10 <= length (dropna l1))%nat ->
  _is_date_column (l1 ++ l2) = _is_date_column l1.
Proof.
  intros Hlen. unfold _is_date_column. rewrite dropna_app.
  by rewrite take_app_le by lia.
Qed.

Lemma is_date_column_reads_ten_values_witness :
  let plain := map (fun s => Some s) ["a"; "b"; "c"; "d"; "e"; "f"; "g"; "h"; "i"; "j"] in
  (10 <= length (dropna plain))%nat /\
  _is_date_column (plain ++ [Some "2024-01-31"; None]) = _is_date_column plain.
Proof.
  intros plain. split; [vm_compute; lia|].
  apply is_date_column_reads_ten_values. vm_compute. lia.
Defined.

Section Facts.

Variable to_numeric : string -> option Q.
Variable to_datetime : string -> option Z.
Variable median_datetime : list (option Z) -> option Z.

Lemma strategy_unknown_eqb strategy :
  strategy ∉ known_strategies ->
  String.eqb strategy "auto" = false /\ String.eqb strategy "drop" = false /\
  String.eqb strategy "forward_fill" = false /\ String.eqb strategy "backward_fill" = false.
Proof.
  intros H. unfold known_strategies in H.
  repeat (apply not_elem_of_cons in H as [? H]).
  by rewrite !String.eqb_neq.
Qed.

Lemma unknown_strategy_fixed df strategy :
  strategy ∉ known_strategies ->
  _handle_missing_values median_datetime df strategy = Ok df.
Proof.
  intros (H1 & H2 & H3 & H4)%strategy_unknown_eqb.
  unfold _handle_missing_values. apply for_each_fixed. intros n Hn.
  unfold handle_missing_step, getitem.
  destruct (assoc_is_Some n (columns df) Hn) as [c ->]. cbn [mbind res_bind].
  rewrite H1, H2, H3, H4. by destruct (col_isnull_sum c =? 0)%nat.
Qed.

End Facts.
End Cleaning.

(** ** Well-formed frames through the operations *)

Module Frames.

Lemma wf_frame_spec d :
  wf_frame d = true <->
  NoDup (column_names d) /\ forall n c, (n, c) ∈ columns d -> col_length c = len d.
Proof.
  unfold wf_frame. rewrite andb_true_iff, bool_decide_eq_true, forallb_forall.
  split; intros [Hnd H]; (split; [done|]).
  - intros n c Hin%list_elem_of_In. specialize (H _ Hin). by apply Nat.eqb_eq in H.
  - intros [n c] Hin%list_elem_of_In. apply Nat.eqb_eq. by eapply H.
Qed.

Lemma length_take_mask {A B} (m : list bool) (xs : list A) (ys : list B) :
  length xs = length ys -> length (take_mask m xs) = length (take_mask m ys).
Proof.
  revert xs ys. induction m as [|b m IH]; intros [|x xs] [|y ys] H; simpl in *; try done.
  destruct b; simpl; auto.
Qed.

Lemma take_mask_sublist {A} (m : list bool) (xs : list A) : take_mask m xs `sublist_of` xs.
Proof.
  revert xs. induction m as [|b m IH]; intros [|x xs]; simpl; try done.
  - apply sublist_nil_l.
  - destruct b; [by apply sublist_skip | by apply sublist_cons].
Qed.

Lemma take_mask_map {A B} (f : A -> B) (m : list bool) (xs : list A) :
  take_mask m (map f xs) = map f (take_mask m xs).
Proof.
  revert xs. induction m as [|b m IH]; intros [|x xs]; simpl; try done.
  destruct b; simpl; by rewrite IH.
Qed.

Lemma take_mask_nil_r {A} (m : list bool) : take_mask m (@nil A) = [].
Proof. by destruct m. Qed.

Lemma take_mask_twice {A} (m1 m2 : list bool) (xs : list A) :
  take_mask (take_mask m1 m2) (take_mask m1 xs) = take_mask (zip_with andb m1 m2) xs.
Proof.
  revert m2 xs. induction m1 as [|b m1 IH]; intros m2 xs; [done|].
  destruct m2 as [|b2 m2], xs as [|x xs]; cbn [take_mask zip_with];
    rewrite ?take_mask_nil_r; try done.
  destruct b, b2; cbn [andb take_mask]; by rewrite IH.
Qed.

Lemma col_length_take m c idx :
  col_length c = length idx ->
  col_length (col_take m c) = length (take_mask m (A := Z) idx).
Proof.
  unfold col_length. destruct c; simpl; rewrite !length_map; intros H;
    by apply length_take_mask.
Qed.

Lemma col_notna_take m c : col_notna (col_take m c) = take_mask m (col_notna c).
Proof. destruct c; simpl; by rewrite take_mask_map. Qed.

Lemma col_take_twice m1 m2 c :
  col_take (take_mask m1 m2) (col_take m1 c) = col_take (zip_with andb m1 m2) c.
Proof. destruct c; simpl; by rewrite take_mask_twice. Qed.

Lemma take_rows_twice m1 m2 d :
  take_rows (take_mask m1 m2) (take_rows m1 d) = take_rows (zip_with andb m1 m2) d.
Proof.
  unfold take_rows. cbn [index columns]. rewrite take_mask_twice. f_equal.
  rewrite map_map. apply map_ext. intros [n c]. cbn [fst snd]. f_equal. apply col_take_twice.
Qed.

Lemma elem_of_columns_take_rows n c' m d :
  (n, c') ∈ columns (take_rows m d) -> exists c, (n, c) ∈ columns d /\ c' = col_take m c.
Proof.
  unfold take_rows. cbn [columns]. rewrite list_elem_of_In, in_map_iff.
  intros ([n0 c] & [= <- <-] & Hin%list_elem_of_In). eauto.
Qed.

Lemma wf_take_rows m d : wf_frame d = true -> wf_frame (take_rows m d) = true.
Proof.
  rewrite !wf_frame_spec. intros [Hnd Hlen]. split.
  - by rewrite column_names_take_rows.
  - intros n c' (c & Hin & ->)%elem_of_columns_take_rows.
    unfold len. cbn [take_rows index]. apply col_length_take. by eapply Hlen.
Qed.

Lemma col_isnull_sum_zero c :
  col_isnull_sum c = 0%nat <-> forallb (fun b => b) (col_notna c) = true.
Proof.
  assert (H : forall A (l : list (option A)),
            isnull_sum l = 0%nat <-> forallb (fun b => b) (map notna l) = true).
  { intros A l. unfold isnull_sum. induction l as [|[x|] l IH]; simpl; [done|done|].
    split; [lia|done]. }
  destruct c; simpl; try apply H.
  split; [|done]. intros _. induction cells; simpl; auto.
Qed.

Lemma length_col_notna c : length (col_notna c) = col_length c.
Proof. unfold col_length. destruct c; simpl; by rewrite !length_map. Qed.

End Frames.

(** ** The strategies of [_handle_missing_values] *)

Module Strategies.

Lemma zip_andb_kept (m nc : list bool) :
  (length m <= length nc)%nat ->
  forallb (fun b => b) (take_mask m nc) = true ->
  zip_with andb m nc = m.
Proof.
  revert nc. induction m as [|b m IH]; intros [|c nc]; simpl; try done; [lia|].
  intros Hl. destruct b; simpl.
  - intros [-> H]%andb_prop. rewrite IH; [done|lia|done].
  - intros H. rewrite IH; [done|lia|done].
Qed.

Lemma length_zip_andb (m nc : list bool) :
  length nc = length m -> length (zip_with andb m nc) = length m.
Proof. intros H. rewrite length_zip_with. lia. Qed.

Section Drop.

Variable median_datetime : list (option Z) -> option Z.

Lemma drop_step d m n c :
  length m = len d -> col_length c = len d ->
  assoc n (columns d) = Some c ->
  handle_missing_step median_datetime "drop" (take_rows m d) n
  = Ok (take_rows (zip_with andb m (col_notna c)) d).
Proof.
  intros Hm Hc Hn. unfold handle_missing_step, getitem.
  rewrite assoc_take_rows, Hn. cbn [fmap option_fmap option_map mbind res_bind].
  destruct (Nat.eqb_spec (col_isnull_sum (col_take m c)) 0) as [H0|H0].
  - apply Frames.col_isnull_sum_zero in H0. rewrite Frames.col_notna_take in H0.
    rewrite zip_andb_kept; [done| |done]. rewrite Frames.length_col_notna. lia.
  - cbn [String.eqb Ascii.eqb Bool.eqb]. unfold dropna_subset.
    by rewrite Frames.col_notna_take, Frames.take_rows_twice.
Qed.

Lemma drop_loop d cols m :
  length m = len d ->
  (forall n c, (n, c) ∈ cols -> assoc n (columns d) = Some c /\ col_length c = len d) ->
  for_each (handle_missing_step median_datetime "drop") (take_rows m d) cols.*1
  = Ok (take_rows (foldl (fun m nc => zip_with andb m (col_notna nc.2)) m cols) d).
Proof.
  revert m. induction cols as [|[n c] cols IH]; intros m Hm Hcols; csimpl; [done|].
  destruct (Hcols n c) as [Hn Hc]; [left|].
  rewrite (drop_step d m n c) by done. cbn [mbind res_bind].
  apply IH.
  - rewrite length_zip_andb; [done|]. rewrite Frames.length_col_notna. lia.
  - intros n' c' H. apply Hcols. by right.
Qed.

Lemma masks_lookup (cols : list (string * column)) (m : list bool) i :
  (forall nc, nc ∈ cols -> col_length nc.2 = length m) ->
  foldl (fun m nc => zip_with andb m (col_notna nc.2)) m cols !! i
  = (fun b => b && forallb (fun nc => nth i (col_notna nc.2) false) cols) <$> m !! i.
Proof.
  revert m. induction cols as [|[n c] cols IH]; intros m Hcols; cbn [foldl forallb].
  - destruct (m !! i); csimpl; [|done]. by rewrite andb_true_r.
  - assert (Hc : length (col_notna c) = length m).
    { rewrite Frames.length_col_notna. apply (Hcols (n, c)). left. }
    rewrite IH.
    + rewrite lookup_zip_with. cbn [snd].
      destruct (m !! i) as [b|] eqn:Hb; csimpl; [|done].
      apply lookup_lt_Some in Hb.
      destruct (lookup_lt_is_Some_2 (col_notna c) i) as [b' Hb']; [lia|].
      rewrite Hb'. csimpl. rewrite (nth_lookup_Some _ _ _ _ Hb'). by rewrite andb_assoc.
    + intros nc Hnc. rewrite length_zip_andb by done. apply Hcols. by right.
Qed.

Lemma repeat_replicate {A} (x : A) n : repeat x n = replicate n x.
Proof. induction n; simpl; by f_equal. Qed.

Lemma masks_complete d :
  wf_frame d = true ->
  foldl (fun m nc => zip_with andb m (col_notna nc.2)) (repeat true (len d)) (columns d)
  = complete_mask d.
Proof.
  intros [_ Hlen]%Frames.wf_frame_spec. apply list_eq. intros i.
  rewrite masks_lookup.
  2:{ intros [n c] H. rewrite repeat_length. by eapply Hlen. }
  unfold complete_mask. rewrite list_lookup_fmap.
  destruct (decide (i < len d)%nat) as [Hi|Hi].
  - rewrite lookup_seq_lt by done. rewrite repeat_replicate.
    by rewrite lookup_replicate_2.
  - rewrite lookup_seq_ge by lia. rewrite lookup_ge_None_2; [done|].
    rewrite repeat_length. lia.
Qed.

End Drop.
End Strategies.

(** ** Forward and backward fill *)

Module Fill.

Lemma ffill_from_lookup {A} (last : option A) l i :
  (i < length l)%nat ->
  ffill_from last l !! i = Some (foldl (fun acc o => present_or o acc) last (take (S i) l)).
Proof.
  revert last i. induction l as [|o l IH]; intros last i Hi; simpl in Hi; [lia|].
  destruct i as [|i].
  - by destruct o.
  - destruct o as [x|]; cbn [ffill_from lookup list_lookup take foldl present_or];
      apply IH; lia.
Qed.

Lemma ffill_from_app {A} (last : option A) l1 l2 :
  ffill_from last (l1 ++ l2)
  = ffill_from last l1 ++ ffill_from (foldl (fun acc o => present_or o acc) last l1) l2.
Proof.
  revert last. induction l1 as [|o l1 IH]; intros last; [done|].
  destruct o as [x|]; cbn [app ffill_from foldl present_or]; by rewrite IH.
Qed.

Lemma last_present_rev {A} (l : list (option A)) : last_present (rev l) = first_present l.
Proof.
  unfold last_present, first_present. induction l as [|o l IH]; [done|].
  cbn [rev foldr]. by rewrite foldl_app, IH.
Qed.

Lemma bfill_cons {A} (o : option A) l :
  bfill (o :: l) = present_or o (first_present l) :: bfill l.
Proof.
  unfold bfill, ffill. cbn [rev]. rewrite ffill_from_app, rev_app_distr.
  fold (last_present (rev l)). rewrite last_present_rev. by destruct o.
Qed.

Lemma bfill_lookup {A} (l : list (option A)) i :
  (i < length l)%nat -> bfill l !! i = Some (first_present (drop i l)).
Proof.
  revert i. induction l as [|o l IH]; intros i Hi; simpl in Hi; [lia|].
  rewrite bfill_cons. destruct i as [|i]; [done|]. cbn [lookup list_lookup drop].
  apply IH. lia.
Qed.

Lemma ffill_from_no_missing {A} (last : option A) l :
  isnull_sum l = 0%nat -> ffill_from last l = l.
Proof.
  unfold isnull_sum. revert last.
  induction l as [|[x|] l IH]; intros last; simpl; [done| |done].
  intros H. by rewrite IH.
Qed.

Lemma isnull_sum_rev {A} (l : list (option A)) : isnull_sum (rev l) = isnull_sum l.
Proof.
  unfold isnull_sum. induction l as [|o l IH]; [done|].
  cbn [rev]. rewrite List.filter_app, length_app, IH. simpl. destruct o; simpl; lia.
Qed.

Lemma bfill_no_missing {A} (l : list (option A)) : isnull_sum l = 0%nat -> bfill l = l.
Proof.
  intros H. unfold bfill, ffill. rewrite ffill_from_no_missing, rev_involutive; [done|].
  by rewrite isnull_sum_rev.
Qed.

Lemma col_ffill_no_missing c : col_isnull_sum c = 0%nat -> col_ffill c = c.
Proof. destruct c; simpl; intros H; f_equal; try done; by apply ffill_from_no_missing. Qed.

Lemma col_bfill_no_missing c : col_isnull_sum c = 0%nat -> col_bfill c = c.
Proof. destruct c; simpl; intros H; f_equal; try done; by apply bfill_no_missing. Qed.

End Fill.

Module FillFrames.

Lemma ffill_from_map {A B} (h : option A -> option B) last l :
  (forall a, is_Some (h (Some a))) -> h None = None ->
  map h (ffill_from last l) = ffill_from (h last) (map h l).
Proof.
  intros Hs Hn. revert last. induction l as [|[x|] l IH]; intros last; [done| |].
  - cbn [ffill_from map]. destruct (Hs x) as [y Hy]. rewrite Hy, IH, Hy. done.
  - cbn [ffill_from map]. rewrite Hn. cbn [ffill_from]. by rewrite IH.
Qed.

Lemma bfill_map {A B} (h : option A -> option B) l :
  (forall a, is_Some (h (Some a))) -> h None = None ->
  map h (bfill l) = bfill (map h l).
Proof.
  intros Hs Hn. unfold bfill, ffill.
  rewrite map_rev, (ffill_from_map h) by done. by rewrite Hn, map_rev.
Qed.

Lemma col_options_bool l : isnull_sum (col_options (BoolCol l)) = 0%nat.
Proof. unfold col_options, isnull_sum. induction l; simpl; auto. Qed.

Lemma col_options_bool_ffill l : col_options (BoolCol l) = ffill (col_options (BoolCol l)).
Proof. symmetry. apply Fill.ffill_from_no_missing, col_options_bool. Qed.

Lemma col_options_bool_bfill l : col_options (BoolCol l) = bfill (col_options (BoolCol l)).
Proof. symmetry. apply Fill.bfill_no_missing, col_options_bool. Qed.

Lemma col_options_ffill c : col_options (col_ffill c) = ffill (col_options c).
Proof.
  destruct c; [| | |apply col_options_bool_ffill];
    unfold col_options, ffill; cbn [col_ffill col_cells]; rewrite !map_map;
    (etrans; [apply (ffill_from_map (fun o => _)); [by eauto|done]|done]).
Qed.

Lemma col_options_bfill c : col_options (col_bfill c) = bfill (col_options c).
Proof.
  destruct c; [| | |apply col_options_bool_bfill];
    unfold col_options; cbn [col_bfill col_cells]; rewrite !map_map;
    (etrans; [apply (bfill_map (fun o => _)); [by eauto|done]|done]).
Qed.

Lemma column_names_columnwise_total (g : column -> column) d :
  column_names (columnwise (fun c => Some (g c)) d) = column_names d.
Proof.
  unfold column_names, columnwise. cbn [columns].
  induction (columns d) as [|[m c0] cols IH]; [done|].
  csimpl. f_equal. apply IH.
Qed.

Lemma length_col_options c : length (col_options c) = col_length c.
Proof. unfold col_options. by rewrite length_map. Qed.

Section Facts.

Variable median_datetime : list (option Z) -> option Z.

Lemma forward_fill_columnwise d :
  NoDup (column_names d) ->
  _handle_missing_values median_datetime d "forward_fill"
  = Ok (columnwise (fun c => Some (col_ffill c)) d).
Proof.
  intros Hnd. apply for_each_columnwise_frame; [|done].
  intros cols n c Hnd' Hc. unfold handle_missing_step, getitem.
  cbn [columns]. rewrite Hc. cbn [mbind res_bind String.eqb Ascii.eqb Bool.eqb].
  destruct (Nat.eqb_spec (col_isnull_sum c) 0) as [H0|H0].
  - rewrite (alter_col_same _ n c); [done|done|]. by rewrite Fill.col_ffill_no_missing.
  - unfold setitem. cbn [index columns].
    by rewrite (alter_col_set (fun c => Some (col_ffill c)) n c (col_ffill c)).
Qed.

Lemma backward_fill_columnwise d :
  NoDup (column_names d) ->
  _handle_missing_values median_datetime d "backward_fill"
  = Ok (columnwise (fun c => Some (col_bfill c)) d).
Proof.
  intros Hnd. apply for_each_columnwise_frame; [|done].
  intros cols n c Hnd' Hc. unfold handle_missing_step, getitem.
  cbn [columns]. rewrite Hc. cbn [mbind res_bind String.eqb Ascii.eqb Bool.eqb].
  destruct (Nat.eqb_spec (col_isnull_sum c) 0) as [H0|H0].
  - rewrite (alter_col_same _ n c); [done|done|]. by rewrite Fill.col_bfill_no_missing.
  - unfold setitem. cbn [index columns].
    by rewrite (alter_col_set (fun c => Some (col_bfill c)) n c (col_bfill c)).
Qed.

Lemma getitem_columnwise g d n c :
  NoDup (column_names d) -> getitem d n = Ok c ->
  getitem (columnwise (fun c => Some (g c)) d) n = Ok (g c).
Proof.
  unfold getitem, columnwise. cbn [columns]. intros Hnd.
  rewrite (assoc_columnwise (fun c => Some (g c))) by done.
  destruct (assoc n (columns d)); [|done]. by intros [= ->].
Qed.

Lemma drop_strategy_take_rows d :
  wf_frame d = true ->
  _handle_missing_values median_datetime d "drop" = Ok (take_rows (complete_mask d) d).
Proof.
  intros Hwf. unfold _handle_missing_values.
  rewrite <- (Strategies.masks_complete d Hwf).
  rewrite <- (take_rows_all (repeat true (len d)) d) at 1.
  - apply Strategies.drop_loop; [by rewrite repeat_length|].
    intros n c Hin. apply Frames.wf_frame_spec in Hwf as [Hnd Hlen].
    split; [by apply assoc_elem_NoDup | by eapply Hlen].
  - done.
  - clear. induction (len d); simpl; auto.
  - by rewrite repeat_length.
Qed.

(** X4.  With the strategy 'forward_fill' rows and column names are kept and
    every cell becomes the last present value at or above it in its column;
    cells above the first present value stay missing. *)
Theorem forward_fill_carries_last_value d n c :
  NoDup (column_names d) -> getitem d n = Ok c ->
  exists d' c',
    _handle_missing_values median_datetime d "forward_fill" = Ok d' /\
    index d' = index d /\ column_names d' = column_names d /\
    getitem d' n = Ok c' /\
    forall i, (i < col_length c)%nat ->
      col_options c' !! i = Some (last_present (take (S i) (col_options c))).
Proof.
  intros Hnd Hc. eexists _, (col_ffill c). split; [by apply forward_fill_columnwise|].
  split_and!.
  - done.
  - apply column_names_columnwise_total.
  - by apply (getitem_columnwise col_ffill).
  - intros i Hi. rewrite col_options_ffill. apply Fill.ffill_from_lookup.
    by rewrite length_col_options.
Qed.

(** X5.  With the strategy 'backward_fill' every cell becomes the first
    present value at or below it in its column; cells below the last present
    value stay missing. *)
Theorem backward_fill_carries_next_value d n c :
  NoDup (column_names d) -> getitem d n = Ok c ->
  exists d' c',
    _handle_missing_values median_datetime d "backward_fill" = Ok d' /\
    index d' = index d /\ column_names d' = column_names d /\
    getitem d' n = Ok c' /\
    forall i, (i < col_length c)%nat ->
      col_options c' !! i = Some (first_present (drop i (col_options c))).
Proof.
  intros Hnd Hc. eexists _, (col_bfill c). split; [by apply backward_fill_columnwise|].
  split_and!.
  - done.
  - apply column_names_columnwise_total.
  - by apply (getitem_columnwise col_bfill).
  - intros i Hi. rewrite col_options_bfill. apply Fill.bfill_lookup.
    by rewrite length_col_options.
Qed.

End Facts.
End FillFrames.

(** ** What the cleaning keeps of a frame *)

Module Shape.

Lemma part_of_refl d : wf_frame d = true -> part_of d d.
Proof. intros Hwf. unfold part_of. by split_and!. Qed.

Lemma part_of_trans d1 d2 d3 : part_of d1 d2 -> part_of d2 d3 -> part_of d1 d3.
Proof.
  intros (Hw & Hi & Hc) (_ & Hi' & Hc'). unfold part_of. split_and!; [done| |]; by etrans.
Qed.

Lemma part_of_take_rows m d : wf_frame d = true -> part_of (take_rows m d) d.
Proof.
  intros Hwf. unfold part_of. split_and!.
  - by apply Frames.wf_take_rows.
  - apply Frames.take_mask_sublist.
  - by rewrite column_names_take_rows.
Qed.

Lemma filter_names_sublist (f : string * column -> bool) cols :
  (List.filter f cols).*1 `sublist_of` cols.*1.
Proof.
  induction cols as [|nc cols IH]; csimpl; [done|].
  destruct (f nc); csimpl; [by apply sublist_skip | by apply sublist_cons].
Qed.

Lemma part_of_dropna_columns_all d :
  wf_frame d = true -> part_of (dropna_columns_all d) d.
Proof.
  intros Hwf. pose proof Hwf as [Hnd Hlen]%Frames.wf_frame_spec. unfold part_of. split_and!.
  - apply Frames.wf_frame_spec. split.
    + by apply NoDup_filter_names.
    + intros n c Hin. apply (Hlen n).
      by apply list_elem_of_In, filter_In, proj1, list_elem_of_In in Hin.
  - done.
  - apply filter_names_sublist.
Qed.

Lemma columnwise_names_sublist (g : column -> option column) (cols : list (string * column)) :
  (omap (fun nc : string * column => pair nc.1 <$> g nc.2) cols).*1 `sublist_of` cols.*1.
Proof.
  induction cols as [|[n c] cols IH]; csimpl; [done|].
  destruct (g c); csimpl; [by apply sublist_skip | by apply sublist_cons].
Qed.

Lemma part_of_columnwise g d :
  (forall c c', g c = Some c' -> col_length c' = col_length c) ->
  wf_frame d = true -> part_of (columnwise g d) d.
Proof.
  intros Hg Hwf. pose proof Hwf as [Hnd Hlen]%Frames.wf_frame_spec. unfold part_of. split_and!.
  - apply Frames.wf_frame_spec. split; [by apply NoDup_columnwise|].
    intros n c'. unfold columnwise. cbn [columns]. rewrite list_elem_of_omap.
    intros ([n0 c] & Hin & Hc). cbn [fst snd] in Hc.
    destruct (g c) as [c1|] eqn:Hgc; [|done]. injection Hc as <- <-.
    rewrite (Hg _ _ Hgc). unfold len. cbn [index]. by eapply Hlen.
  - done.
  - apply columnwise_names_sublist.
Qed.

Lemma length_ffill_from {A} (last : option A) l : length (ffill_from last l) = length l.
Proof.
  revert last. induction l as [|[x|] l IH]; intros last; simpl; by rewrite ?IH.
Qed.

Lemma length_bfill {A} (l : list (option A)) : length (bfill l) = length l.
Proof. unfold bfill, ffill. by rewrite length_rev, length_ffill_from, length_rev. Qed.

Lemma col_length_ffill c : col_length (col_ffill c) = col_length c.
Proof.
  unfold col_length. destruct c; simpl; rewrite ?length_map; try done;
    apply length_ffill_from.
Qed.

Lemma col_length_bfill c : col_length (col_bfill c) = col_length c.
Proof.
  unfold col_length. destruct c; simpl; rewrite ?length_map; try done;
    apply length_bfill.
Qed.

Lemma length_fillna {A} (v : A) l : length (fillna v l) = length l.
Proof. unfold fillna. by rewrite length_map. Qed.

Lemma col_length_fill_auto md c : col_length (fill_auto md c) = col_length c.
Proof.
  unfold col_length. destruct c as [l|l|l|l]; simpl; rewrite ?length_map; try done.
  - destruct (mode l); simpl; by rewrite length_map, length_fillna.
  - destruct (median l); by rewrite ?length_fillna.
  - destruct (md l); by rewrite ?length_fillna.
Qed.

Lemma col_length_convert tn td c : col_length (convert_column tn td c) = col_length c.
Proof.
  unfold col_length. destruct c as [l|l|l|l]; simpl; try done.
  destruct (_is_date_column l); simpl; [by rewrite !length_map|].
  destruct (mostly_numeric _); simpl; [|done].
  unfold numeric_series. by rewrite !length_map.
Qed.

Section Facts.

Variable to_numeric : string -> option Q.
Variable to_datetime : string -> option Z.
Variable median_datetime : list (option Z) -> option Z.

Lemma handle_missing_values_part d strategy :
  wf_frame d = true ->
  exists d', _handle_missing_values median_datetime d strategy = Ok d' /\ part_of d' d.
Proof.
  intros Hwf. pose proof (wf_frame_NoDup d Hwf) as Hnd.
  destruct (decide (strategy ∈ known_strategies)) as [Hin|Hout].
  - unfold known_strategies in Hin.
    repeat (apply elem_of_cons in Hin as [->|Hin]); [| | | |by apply elem_of_nil in Hin].
    + eexists. split; [by apply handle_missing_auto_columnwise|].
      apply part_of_columnwise; [|done].
      intros c c'. unfold auto_column.
      destruct (_ =? _)%nat; [by intros [= ->]|].
      destruct (_ <? _)%nat; [done|]. intros [= <-]. apply col_length_fill_auto.
    + eexists. split; [by apply FillFrames.drop_strategy_take_rows|].
      by apply part_of_take_rows.
    + eexists. split; [by apply FillFrames.forward_fill_columnwise|].
      apply part_of_columnwise; [|done]. intros c c' [= <-]. apply col_length_ffill.
    + eexists. split; [by apply FillFrames.backward_fill_columnwise|].
      apply part_of_columnwise; [|done]. intros c c' [= <-]. apply col_length_bfill.
  - eexists. split; [by apply Cleaning.unknown_strategy_fixed|].
    by apply part_of_refl.
Qed.

End Facts.
End Shape.

Module Outliers.

Lemma for_each_invariant {S A} (body : S -> A -> res S) (P : list A -> S -> Prop) xs :
  (forall pre x s, P pre s -> x ∈ xs -> exists s', body s x = Ok s' /\ P (pre ++ [x]) s') ->
  forall s, P [] s -> exists s', for_each body s xs = Ok s' /\ P xs s'.
Proof.
  intros Hstep.
  assert (H : forall ys pre s, (forall y, y ∈ ys -> y ∈ xs) -> P pre s ->
                exists s', for_each body s ys = Ok s' /\ P (pre ++ ys) s').
  { induction ys as [|y ys IH]; intros pre s Hys HP; cbn [for_each].
    - rewrite app_nil_r. eauto.
    - destruct (Hstep pre y s HP) as (s1 & -> & HP1); [apply Hys; left|].
      cbn [mbind res_bind]. destruct (IH (pre ++ [y]) s1) as (s2 & Hs2 & HP2); [|done|].
      + intros z Hz. apply Hys. by right.
      + exists s2. split; [done|]. by rewrite <- app_assoc in HP2. }
  intros s HP. by apply (H xs [] s).
Qed.

Lemma isnull_sum_take_mask {A} m (l : list (option A)) :
  isnull_sum l = 0%nat -> isnull_sum (take_mask m l) = 0%nat.
Proof.
  unfold isnull_sum. revert l. induction m as [|b m IH]; intros [|[x|] l]; simpl; try done.
  destruct b; simpl; apply IH.
Qed.

Lemma isnull_sum_take_present {A} (f : option A -> bool) (l : list (option A)) :
  f None = false -> isnull_sum (take_mask (map f l) l) = 0%nat.
Proof.
  intros Hf. unfold isnull_sum. induction l as [|[x|] l IH]; simpl; [done| |].
  - by destruct (f (Some x)).
  - by rewrite Hf.
Qed.

Lemma iqr_mask_present cells :
  isnull_sum (take_mask (iqr_mask cells) cells) = 0%nat.
Proof.
  unfold iqr_mask. apply isnull_sum_take_present.
  unfold within. by destruct (iqr_bounds cells).1, (iqr_bounds cells).2.
Qed.

Lemma zscore_mask_present cells :
  isnull_sum (take_mask (zscore_mask cells) cells) = 0%nat.
Proof. unfold zscore_mask. by apply isnull_sum_take_present. Qed.

Lemma numeric_columns_intro n cells d :
  (n, NumCol cells) ∈ columns d -> n ∈ numeric_columns d.
Proof.
  intros Hin. unfold numeric_columns. apply list_elem_of_omap.
  by exists (n, NumCol cells).
Qed.

Lemma col_take_numeric m c cells' :
  col_take m c = NumCol cells' -> exists cells, c = NumCol cells /\ cells' = take_mask m cells.
Proof. destruct c; simpl; intros [= <-]. eauto. Qed.

Lemma outlier_loop d method :
  method ∈ ["iqr"; "zscore"] ->
  wf_frame d = true ->
  exists d', _remove_outliers d method = Ok d' /\ part_of d' d /\
    column_names d' = column_names d /\
    (forall n cells', assoc n (columns d') = Some (NumCol cells') ->
       isnull_sum cells' = 0%nat).
Proof.
  intros Hmethod Hwf. unfold _remove_outliers.
  pose proof (wf_frame_NoDup d Hwf) as Hnd.
  pose (P := fun (pre : list string) (d' : DataFrame) =>
    part_of d' d /\ column_names d' = column_names d /\
    (forall n, n ∈ numeric_columns d ->
       exists cells', assoc n (columns d') = Some (NumCol cells')) /\
    (forall n cells', assoc n (columns d') = Some (NumCol cells') ->
       n ∈ numeric_columns d) /\
    (forall n cells', n ∈ pre -> assoc n (columns d') = Some (NumCol cells') ->
       isnull_sum cells' = 0%nat)).
  destruct (for_each_invariant (outlier_step method) P (numeric_columns d)) with d
    as (d' & Hd' & Hpart & Hnames & _ & Hnum & Hnull).
  - intros pre n d1 (Hpart & Hnames & Hcols & Hnum & Hnull) Hn.
    destruct (Hcols _ Hn) as [cells1 Hc1].
    assert (Hstep : exists mask,
               outlier_step method d1 n = Ok (take_rows mask d1) /\
               isnull_sum (take_mask mask cells1) = 0%nat).
    { unfold outlier_step, getitem. rewrite Hc1. cbn [mbind res_bind].
      repeat (apply elem_of_cons in Hmethod as [->|Hmethod]);
        [| |by apply elem_of_nil in Hmethod]; cbn [String.eqb Ascii.eqb Bool.eqb].
      - eexists. split; [done|]. apply iqr_mask_present.
      - eexists. split; [done|]. apply zscore_mask_present. }
    destruct Hstep as (mask & -> & Hmask). eexists. split; [done|].
    pose proof Hpart as (Hwf1 & _). unfold P. split_and!.
    + eapply Shape.part_of_trans; [|done]. by apply Shape.part_of_take_rows.
    + by rewrite column_names_take_rows.
    + intros n' Hn'. destruct (Hcols _ Hn') as [cells' Hc'].
      rewrite assoc_take_rows, Hc'. cbn [fmap option_fmap option_map col_take]. eauto.
    + intros n' cells'. rewrite assoc_take_rows.
      destruct (assoc n' (columns d1)) as [c|] eqn:Hc; [|done].
      cbn [fmap option_fmap option_map]. intros [= Heq].
      apply col_take_numeric in Heq as (cells & -> & _). by eapply Hnum.
    + intros n' cells' Hin. rewrite assoc_take_rows.
      destruct (assoc n' (columns d1)) as [c|] eqn:Hc; [|done].
      cbn [fmap option_fmap option_map]. intros [= Heq].
      apply col_take_numeric in Heq as (cells & -> & ->).
      apply elem_of_app in Hin as [Hin|Hin%list_elem_of_singleton].
      * apply isnull_sum_take_mask. by eapply Hnull.
      * subst n'. rewrite Hc1 in Hc. by injection Hc as <-.
  - unfold P. split_and!.
    + by apply Shape.part_of_refl.
    + done.
    + intros n [cells Hin]%numeric_columns_elem. exists cells. by apply assoc_elem_NoDup.
    + intros n cells Hc%assoc_Some_elem. by eapply numeric_columns_intro.
    + intros n cells Hin. by apply elem_of_nil in Hin.
  - exists d'. split_and!; try done. intros n cells' Hc. eapply Hnull; [|done]. by eapply Hnum.
Qed.

End Outliers.

Module Pipeline.

Lemma part_of_drop_duplicates d : wf_frame d = true -> part_of (drop_duplicates d) d.
Proof.
  intros Hwf. unfold drop_duplicates.
  destruct (index d); [by apply Shape.part_of_refl|].
  destruct (columns d); [by apply Shape.part_of_refl|].
  by apply Shape.part_of_take_rows.
Qed.

Lemma isnull_sum_fillna {A} (v : A) l : isnull_sum (fillna v l) = 0%nat.
Proof. unfold isnull_sum, fillna. induction l as [|[x|] l IH]; simpl; auto. Qed.

Section Facts.

Variable to_numeric : string -> option Q.
Variable to_datetime : string -> option Z.
Variable median_datetime : list (option Z) -> option Z.

Lemma convert_data_types_part d :
  wf_frame d = true ->
  exists d', _convert_data_types to_numeric to_datetime d = Ok d' /\ part_of d' d.
Proof.
  intros Hwf. eexists. split.
  - apply convert_data_types_columnwise. by apply wf_frame_NoDup.
  - apply Shape.part_of_columnwise; [|done]. intros c c' [= <-].
    apply Shape.col_length_convert.
Qed.

(** X10.  On a well-formed frame [clean_dataframe] returns, whatever the
    options, and its result is a well-formed frame made of rows and columns
    of the argument: no row label and no column name is new, and their order
    is kept.  With outlier removal switched on no numeric column of the
    result has a missing cell. *)
Theorem clean_dataframe_keeps_shape d options :
  wf_frame d = true ->
  exists d',
    clean_dataframe to_numeric to_datetime median_datetime d options = Ok d' /\
    part_of d' d /\
    (remove_outliers (default no_options options) = Some true -> numeric_complete d').
Proof.
  intros Hwf. unfold clean_dataframe.
  set (o := default no_options options).
  assert (H0 : part_of (dropna_columns_all (dropna_rows_all d)) d).
  { eapply Shape.part_of_trans; [apply Shape.part_of_dropna_columns_all|].
    - by apply Frames.wf_take_rows.
    - by apply Shape.part_of_take_rows. }
  destruct (Shape.handle_missing_values_part median_datetime
              (dropna_columns_all (dropna_rows_all d))
              (default "auto" (missing_strategy o))) as (d1 & -> & H1); [apply H0|].
  cbn [mbind res_bind].
  destruct (convert_data_types_part d1) as (d2 & -> & H2); [apply H1|].
  cbn [mbind res_bind].
  assert (H3 : exists d3,
             (if default true (remove_duplicates o) then drop_duplicates d2 else d2) = d3 /\
             part_of d3 d2).
  { destruct (default true _); eexists; (split; [done|]).
    - apply part_of_drop_duplicates, H2.
    - apply Shape.part_of_refl, H2. }
  destruct H3 as (d3 & -> & H3).
  assert (Hd3 : part_of d3 d).
  { repeat (eapply Shape.part_of_trans; [eassumption|]). done. }
  destruct (remove_outliers o) as [[|]|]; cbn [default].
  - destruct (Outliers.outlier_loop d3 "iqr") as (d4 & -> & H4 & _ & Hnull).
    + left.
    + apply H3.
    + exists d4. split_and!; [done|by eapply Shape.part_of_trans|].
      intros _ n cells Hin. apply (Hnull n). apply assoc_elem_NoDup; [|done].
      apply wf_frame_NoDup, H4.
  - by exists d3.
  - by exists d3.
Qed.

(** X9.  IQR and z-score outlier removal return on every well-formed frame
    a frame made of rows of the argument, with all its columns, in which no
    numeric column has a missing cell: a row with a missing numeric cell is
    removed like an outlier. *)
Theorem remove_outliers_drops_missing d method :
  method ∈ ["iqr"; "zscore"] ->
  wf_frame d = true ->
  exists d', _remove_outliers d method = Ok d' /\
    part_of d' d /\ column_names d' = column_names d /\ numeric_complete d'.
Proof.
  intros Hmethod Hwf.
  destruct (Outliers.outlier_loop d method Hmethod Hwf) as (d' & Hd' & Hpart & Hn & Hnull).
  exists d'. split_and!; try done.
  intros n cells Hin. apply (Hnull n). apply assoc_elem_NoDup; [|done].
  apply wf_frame_NoDup, Hpart.
Qed.

(** X6.  Under the 'auto' strategy, on a well-formed frame, no text, numeric
    or boolean column of the result has a missing cell: a column is either
    dropped or filled completely. *)
Theorem auto_strategy_leaves_no_gap d :
  wf_frame d = true ->
  exists d',
    _handle_missing_values median_datetime d "auto" = Ok d' /\
    forall n c', (n, c') ∈ columns d' ->
      (forall l, c' <> DateCol l) -> col_isnull_sum c' = 0%nat.
Proof.
  intros Hwf. pose proof Hwf as [Hnd Hlen]%Frames.wf_frame_spec.
  eexists. split; [by apply handle_missing_auto_columnwise|].
  intros n c'. unfold columnwise. cbn [columns]. rewrite list_elem_of_omap.
  intros ([n0 c] & Hin & Hc) Hdate. cbn [fst snd] in Hc.
  destruct (auto_column median_datetime (len d) c) as [c1|] eqn:Hauto; [|done].
  injection Hc as <- <-. unfold auto_column in Hauto.
  destruct (Nat.eqb_spec (col_isnull_sum c) 0) as [H0|H0]; [by injection Hauto as <-|].
  destruct (Nat.ltb_spec (len d) (2 * col_isnull_sum c)) as [Hlt|Hge]; [done|].
  injection Hauto as <-. specialize (Hlen _ _ Hin).
  destruct c as [l|l|l|l]; cbn [fill_auto col_isnull_sum] in *.
  - destruct (mode l); cbn [col_isnull_sum]; apply isnull_sum_fillna.
  - destruct (median_is_Some l) as [m ->]; [|apply isnull_sum_fillna].
    intros Hnil. pose proof (dropna_isnull_length l) as Hl.
    rewrite Hnil in Hl. unfold col_length in Hlen. cbn [col_cells] in Hlen.
    rewrite length_map in Hlen. simpl in Hl. lia.
  - by destruct (Hdate (match median_datetime l with Some m => fillna m l | None => l end)).
  - done.
Qed.

End Facts.
End Pipeline.

Module StrategyFacts.

Lemma take_mask_all_true (m l : list bool) :
  (forall i, m !! i = Some true -> l !! i = Some true) ->
  forallb (fun b => b) (take_mask m l) = true.
Proof.
  revert l. induction m as [|b m IH]; intros [|x l] H; simpl; try done.
  assert (Hl : forall i, m !! i = Some true -> l !! i = Some true).
  { intros i Hi. apply (H (S i) Hi). }
  destruct b; simpl; [|by apply IH].
  rewrite (IH l Hl), andb_true_r. specialize (H 0%nat eq_refl). by injection H.
Qed.

Lemma complete_mask_column d n c i :
  (n, c) ∈ columns d -> col_length c = len d ->
  complete_mask d !! i = Some true -> col_notna c !! i = Some true.
Proof.
  intros Hin Hlen. unfold complete_mask. rewrite list_lookup_fmap.
  destruct (seq 0 (len d) !! i) as [j|] eqn:Hj; [|done].
  apply lookup_seq in Hj as [-> Hi]. cbn [fmap option_fmap option_map plus].
  intros [= Hrow]. unfold complete_row in Hrow. rewrite forallb_forall in Hrow.
  apply list_elem_of_In in Hin. specialize (Hrow _ Hin). cbn [snd] in Hrow.
  destruct (lookup_lt_is_Some_2 (col_notna c) i) as [b Hb].
  { rewrite Frames.length_col_notna. lia. }
  rewrite (nth_lookup_Some _ _ _ _ Hb) in Hrow. by rewrite Hb, Hrow.
Qed.

Lemma complete_rows_have_no_gap d :
  wf_frame d = true ->
  forall n c, (n, c) ∈ columns (take_rows (complete_mask d) d) -> col_isnull_sum c = 0%nat.
Proof.
  intros Hwf n c' (c & Hin & ->)%Frames.elem_of_columns_take_rows.
  apply Frames.col_isnull_sum_zero. rewrite Frames.col_notna_take.
  apply take_mask_all_true. intros i. apply (complete_mask_column d n c i Hin).
  apply Frames.wf_frame_spec in Hwf as [_ Hlen]. by eapply Hlen.
Qed.

Section Facts.

Variable median_datetime : list (option Z) -> option Z.

(** X2.  A strategy that is none of 'auto', 'drop', 'forward_fill' and
    'backward_fill' is not refused: the frame is returned as it is, missing
    cells included. *)
Theorem unknown_strategy_is_ignored df strategy :
  strategy ∉ known_strategies ->
  _handle_missing_values median_datetime df strategy = Ok df.
Proof. apply Cleaning.unknown_strategy_fixed. Qed.

(** X3.  With the strategy 'drop', on a well-formed frame, the result is the
    frame restricted to the rows that have a present cell in every column,
    and no column of the result has a missing cell. *)
Theorem drop_strategy_keeps_complete_rows d :
  wf_frame d = true ->
  _handle_missing_values median_datetime d "drop" = Ok (take_rows (complete_mask d) d) /\
  forall n c, (n, c) ∈ columns (take_rows (complete_mask d) d) -> col_isnull_sum c = 0%nat.
Proof.
  intros Hwf. split; [by apply FillFrames.drop_strategy_take_rows|].
  by apply complete_rows_have_no_gap.
Qed.

End Facts.

Lemma unknown_strategy_is_ignored_witness :
  ("median" ∉ known_strategies) /\
  _handle_missing_values Sample.median_datetime Example.survey_frame "median"
  = Ok Example.survey_frame.
Proof.
  assert (H : "median" ∉ known_strategies).
  { unfold known_strategies. intros Hin.
    repeat (apply elem_of_cons in Hin as [Hin|Hin]; [discriminate Hin|]).
    by apply elem_of_nil in Hin. }
  split; [exact H|]. apply unknown_strategy_is_ignored, H.
Defined.

Lemma drop_strategy_keeps_complete_rows_witness :
  wf_frame Example.survey_frame = true /\
  _handle_missing_values Sample.median_datetime Example.survey_frame "drop"
  = Ok (take_rows (complete_mask Example.survey_frame) Example.survey_frame) /\
  forall n c,
    (n, c) ∈ columns (take_rows (complete_mask Example.survey_frame) Example.survey_frame) ->
    col_isnull_sum c = 0%nat.
Proof.
  split; [reflexivity|].
  apply (drop_strategy_keeps_complete_rows Sample.median_datetime Example.survey_frame).
  reflexivity.
Defined.

Lemma forward_fill_carries_last_value_witness :
  NoDup (column_names Example.survey_frame) /\
  getitem Example.survey_frame "age"
  = Ok (NumCol [Some 30%Q; Some 40%Q; None; Some 20%Q]) /\
  exists d' c',
    _handle_missing_values Sample.median_datetime Example.survey_frame "forward_fill"
    = Ok d' /\
    index d' = index Example.survey_frame /\
    column_names d' = column_names Example.survey_frame /\
    getitem d' "age" = Ok c' /\
    forall i, (i < 4)%nat ->
      col_options c' !! i
      = Some (last_present
                (take (S i) (col_options (NumCol [Some 30%Q; Some 40%Q; None; Some 20%Q])))).
Proof.
  pose proof (wf_frame_NoDup Example.survey_frame eq_refl) as Hnd.
  split; [exact Hnd|]. split; [reflexivity|].
  apply (FillFrames.forward_fill_carries_last_value Sample.median_datetime
           Example.survey_frame "age" _ Hnd eq_refl).
Defined.

Lemma backward_fill_carries_next_value_witness :
  NoDup (column_names Example.survey_frame) /\
  getitem Example.survey_frame "age"
  = Ok (NumCol [Some 30%Q; Some 40%Q; None; Some 20%Q]) /\
  exists d' c',
    _handle_missing_values Sample.median_datetime Example.survey_frame "backward_fill"
    = Ok d' /\
    index d' = index Example.survey_frame /\
    column_names d' = column_names Example.survey_frame /\
    getitem d' "age" = Ok c' /\
    forall i, (i < 4)%nat ->
      col_options c' !! i
      = Some (first_present
                (drop i (col_options (NumCol [Some 30%Q; Some 40%Q; None; Some 20%Q])))).
Proof.
  pose proof (wf_frame_NoDup Example.survey_frame eq_refl) as Hnd.
  split; [exact Hnd|]. split; [reflexivity|].
  apply (FillFrames.backward_fill_carries_next_value Sample.median_datetime
           Example.survey_frame "age" _ Hnd eq_refl).
Defined.

Lemma clean_dataframe_keeps_shape_witness :
  wf_frame Example.survey_frame = true /\
  exists d',
    clean_dataframe Sample.to_numeric Sample.to_datetime Sample.median_datetime
      Example.survey_frame None = Ok d' /\
    part_of d' Example.survey_frame /\
    (remove_outliers (default no_options None) = Some true -> numeric_complete d').
Proof.
  split; [reflexivity|].
  apply (Pipeline.clean_dataframe_keeps_shape Sample.to_numeric Sample.to_datetime
           Sample.median_datetime Example.survey_frame None).
  reflexivity.
Defined.

Lemma remove_outliers_drops_missing_witness :
  ("iqr" ∈ ["iqr"; "zscore"]) /\
  wf_frame Example.xy_missing_frame = true /\
  exists d', _remove_outliers Example.xy_missing_frame "iqr" = Ok d' /\
    part_of d' Example.xy_missing_frame /\
    column_names d' = column_names Example.xy_missing_frame /\
    numeric_complete d'.
Proof.
  assert (H : "iqr" ∈ ["iqr"; "zscore"]) by left.
  split; [exact H|]. split; [reflexivity|].
  apply (Pipeline.remove_outliers_drops_missing Example.xy_missing_frame "iqr" H).
  reflexivity.
Defined.

Lemma auto_strategy_leaves_no_gap_witness :
  wf_frame Example.survey_frame = true /\
  exists d',
    _handle_missing_values Sample.median_datetime Example.survey_frame "auto" = Ok d' /\
    forall n c', (n, c') ∈ columns d' ->
      (forall l, c' <> DateCol l) -> col_isnull_sum c' = 0%nat.
Proof.
  split; [reflexivity|].
  apply (Pipeline.auto_strategy_leaves_no_gap Sample.median_datetime Example.survey_frame).
  reflexivity.
Defined.

End StrategyFacts.

(** * More facts about the agent *)

Module SearchFacts.
Import Agent.

Lemma from_first_open_skips pre rest :
  occurs "{" pre = false ->
  from_first_open (pre +:+ String "{" rest) = Some (String "{" rest).
Proof.
  induction pre as [|c pre IH]; simpl; [done|].
  intros [Hc Hpre]%orb_false_elim. rewrite Hc. by apply IH.
Qed.

Lemma upto_last_close_none post :
  occurs "}" post = false -> upto_last_close post = None.
Proof.
  induction post as [|c post IH]; simpl; [done|].
  intros [Hc Hpost]%orb_false_elim. by rewrite IH, Hc.
Qed.

Lemma upto_last_close_ends s post :
  occurs "}" post = false ->
  upto_last_close (s +:+ String "}" post) = Some (s +:+ "}").
Proof.
  intros Hpost. induction s as [|c s IH]; simpl.
  - by rewrite upto_last_close_none.
  - by rewrite IH.
Qed.

Lemma from_first_open_split s t :
  from_first_open s = Some t ->
  exists pre rest, s = pre +:+ String "{" rest /\ t = String "{" rest /\ occurs "{" pre = false.
Proof.
  revert t. induction s as [|c s IH]; intros t; simpl; [done|].
  destruct (Ascii.eqb_spec c "{") as [->|Hne].
  - intros [= <-]. by exists "", s.
  - intros (pre & rest & -> & -> & Hpre)%IH. exists (String c pre), rest.
    split_and!; [done|done|]. simpl. rewrite Hpre.
    by apply Ascii.eqb_neq in Hne as ->.
Qed.

Lemma from_first_open_none s : from_first_open s = None -> occurs "{" s = false.
Proof.
  induction s as [|c s IH]; simpl; [done|].
  destruct (Ascii.eqb c "{"); [done|]. apply IH.
Qed.

Lemma upto_last_close_split s t :
  upto_last_close s = Some t ->
  exists body post, s = body +:+ String "}" post /\ t = body +:+ "}" /\ occurs "}" post = false.
Proof.
  revert t. induction s as [|c s IH]; intros t; simpl; [done|].
  destruct (upto_last_close s) as [t'|] eqn:Hs.
  - intros [= <-]. destruct (IH t' eq_refl) as (body & post & -> & -> & Hpost).
    by exists (String c body), post.
  - destruct (Ascii.eqb_spec c "}") as [->|Hne]; [|done].
    intros [= <-]. exists "", s. split_and!; [done|done|].
    clear IH. induction s as [|c s IH]; simpl in *; [done|].
    destruct (upto_last_close s); [done|].
    destruct (Ascii.eqb c "}"); [done|]. by apply IH.
Qed.

Lemma upto_last_close_is_None s : upto_last_close s = None -> occurs "}" s = false.
Proof.
  induction s as [|c s IH]; simpl; [done|].
  destruct (upto_last_close s); [done|].
  destruct (Ascii.eqb c "}"); [done|]. by intros ->%IH.
Qed.

Lemma occurs_app c s t : occurs c (s +:+ t) = occurs c s || occurs c t.
Proof. induction s as [|c' s IH]; simpl; [done|]. by rewrite IH, orb_assoc. Qed.

Lemma append_cons c s t : String c s +:+ t = String c (s +:+ t).
Proof. reflexivity. Qed.

Lemma append_assoc s t u : (s +:+ t) +:+ u = s +:+ (t +:+ u).
Proof. induction s as [|c s IH]; [done|]. rewrite !append_cons. by rewrite IH. Qed.

Lemma split_after_first pre0 rest0 pre rest :
  pre0 +:+ String "{" rest0 = pre +:+ String "{" rest ->
  occurs "{" pre0 = false -> exists mid, rest0 = mid +:+ rest.
Proof.
  revert pre. induction pre0 as [|c0 pre0 IH]; intros [|c pre]; simpl.
  - intros [= ->] _. by exists "".
  - intros [= <- ->] _. exists (pre +:+ "{"). by rewrite append_assoc.
  - intros [= -> _]. done.
  - intros [= <- Heq] [_ Hpre]%orb_false_elim. by apply (IH pre).
Qed.

Lemma occurs_open_app pre rest : occurs "{" (pre +:+ String "{" rest) = true.
Proof. rewrite occurs_app. simpl. by rewrite orb_true_r. Qed.

(** X15.  [re.search(r'\{.*\}', text, re.DOTALL)] finds the part of the text from
    its first opening brace to its last closing brace; it finds nothing
    exactly when no closing brace follows an opening one. *)
Theorem search_braces_spans text :
  (forall pre body post,
     text = pre +:+ String "{" (body +:+ String "}" post) ->
     occurs "{" pre = false -> occurs "}" post = false ->
     search_braces text = Some (String "{" (body +:+ "}"))) /\
  (forall found, search_braces text = Some found ->
     exists pre body post,
       text = pre +:+ String "{" (body +:+ String "}" post) /\
       found = String "{" (body +:+ "}") /\
       occurs "{" pre = false /\ occurs "}" post = false) /\
  (search_braces text = None <->
     forall pre rest, text = pre +:+ String "{" rest -> occurs "}" rest = false).
Proof.
  split_and!.
  - intros pre body post -> Hpre Hpost. unfold search_braces.
    rewrite from_first_open_skips by done. cbn [mbind option_bind].
    apply (upto_last_close_ends (String "{" body) post Hpost).
  - intros found. unfold search_braces.
    destruct (from_first_open text) as [t|] eqn:Ht; [|done]. cbn [mbind option_bind].
    apply from_first_open_split in Ht as (pre & rest & -> & -> & Hpre).
    intros (body & post & Hs & -> & Hpost)%upto_last_close_split.
    destruct body as [|c body].
    + simpl in Hs. by injection Hs.
    + simpl in Hs. injection Hs as <- ->. by exists pre, body, post.
  - unfold search_braces. split.
    + destruct (from_first_open text) as [t|] eqn:Ht; cbn [mbind option_bind].
      * apply from_first_open_split in Ht as (pre0 & rest0 & -> & -> & Hpre0).
        intros Hnone%upto_last_close_is_None. simpl in Hnone.
        intros pre rest Heq.
        destruct (split_after_first _ _ _ _ Heq Hpre0) as [mid ->].
        rewrite occurs_app in Hnone. by apply orb_false_elim in Hnone as [_ ?].
      * apply from_first_open_none in Ht. intros _ pre rest ->.
        by rewrite occurs_open_app in Ht.
    + intros H. destruct (from_first_open text) as [t|] eqn:Ht; [|done].
      cbn [mbind option_bind].
      apply from_first_open_split in Ht as (pre0 & rest0 & -> & -> & Hpre0).
      apply upto_last_close_none. simpl. by apply (H pre0).
Qed.

End SearchFacts.

Module PlanFacts.
Import Agent.

Section Facts.

Variable float_of_str : string -> option Q.

Lemma perform_step_lookup data_files results comp k :
  perform_step float_of_str data_files results comp !! k
  = match perform_step float_of_str data_files ∅ comp !! k with
    | Some v => Some v
    | None => results !! k
    end.
Proof.
  rewrite !ComputationFacts.perform_step_effect.
  destruct (step_effect float_of_str data_files comp) as [[k' v]|]; [|done].
  destruct (decide (k' = k)) as [->|Hne].
  - by rewrite !lookup_insert_eq.
  - by rewrite !lookup_insert_ne.
Qed.

Lemma perform_step_size data_files results comp :
  (size (perform_step float_of_str data_files results comp) <= S (size results))%nat.
Proof.
  rewrite ComputationFacts.perform_step_effect.
  destruct (step_effect float_of_str data_files comp) as [[k v]|]; [|lia].
  destruct (results !! k) as [w|] eqn:Hk.
  - rewrite map_size_insert_Some by done. lia.
  - rewrite map_size_insert_None by done. lia.
Qed.

Lemma foldl_size data_files l (m : gmap string computed) :
  (size (foldl (perform_step float_of_str data_files) m l) <= size m + length l)%nat.
Proof.
  revert m. induction l as [|c l IH]; intros m; simpl; [lia|].
  etrans; [apply IH|]. pose proof (perform_step_size data_files m c). lia.
Qed.

Lemma foldl_source data_files l (m : gmap string computed) k v :
  foldl (perform_step float_of_str data_files) m l !! k = Some v ->
  m !! k = Some v \/
  exists comp, comp ∈ l /\ perform_step float_of_str data_files ∅ comp !! k = Some v.
Proof.
  revert m. induction l as [|c l IH]; intros m; simpl; [auto|].
  intros [H|(comp & Hin & H)]%IH.
  - rewrite perform_step_lookup in H.
    destruct (perform_step float_of_str data_files ∅ c !! k) as [w|] eqn:Hw; [|auto].
    right. exists c. split; [left|]. by rewrite Hw.
  - right. exists comp. split; [by right|done].
Qed.

Lemma foldl_untouched data_files l (m : gmap string computed) k :
  (forall c, c ∈ l -> perform_step float_of_str data_files ∅ c !! k = None) ->
  foldl (perform_step float_of_str data_files) m l !! k = m !! k.
Proof.
  revert m. induction l as [|c l IH]; intros m H; simpl; [done|].
  rewrite IH by (intros c' Hc'; apply H; by right).
  rewrite perform_step_lookup, H; [done|left].
Qed.

(** X16.  A computation of a type other than 'correlation' and 'regression' (a
    'statistical_test', say), or one that names fewer than two columns,
    leaves no trace: the results are those of the plan without it. *)
Theorem other_computations_leave_no_trace data_files l1 comp l2 :
  (comp_type comp <> Some "correlation" /\ comp_type comp <> Some "regression") \/
  (length (comp_columns comp) < 2)%nat ->
  _perform_computations float_of_str (l1 ++ comp :: l2) data_files
  = _perform_computations float_of_str (l1 ++ l2) data_files.
Proof.
  intros H. rewrite !ComputationFacts.perform_app. simpl. f_equal.
  unfold perform_step.
  destruct (data_source comp ≫= _) as [data|]; [|done].
  destruct (comp_columns comp) as [|a [|b rest]]; [done|done|].
  destruct H as [[H1 H2]|H]; [|simpl in H; lia].
  by rewrite !decide_False.
Qed.

(** X17.  The results hold at most one entry per computation of the plan.  Every
    entry is what some computation of the plan stores when run on its own,
    and a key holds what the last computation that writes it stores: an
    earlier entry under the same key is replaced. *)
Theorem results_come_from_the_plan data_files l :
  let run := fun l => _perform_computations float_of_str l data_files in
  let alone := fun comp => perform_step float_of_str data_files ∅ comp in
  (size (run l) <= length l)%nat /\
  (forall k v, run l !! k = Some v -> exists comp, comp ∈ l /\ alone comp !! k = Some v) /\
  (forall l1 comp l2 k v,
     l = l1 ++ comp :: l2 -> alone comp !! k = Some v ->
     (forall c, c ∈ l2 -> alone c !! k = None) ->
     run l !! k = Some v).
Proof.
  intros run alone. subst run alone. cbv beta. split_and!.
  - pose proof (foldl_size data_files l ∅) as H. by rewrite map_size_empty in H.
  - intros k v [H|H]%foldl_source; [by rewrite lookup_empty in H|done].
  - intros l1 comp l2 k v -> Hcomp Hl2. rewrite ComputationFacts.perform_app. simpl.
    rewrite foldl_untouched by done. by rewrite perform_step_lookup, Hcomp.
Qed.

End Facts.

Lemma other_computations_leave_no_trace_witness :
  let comp := mkComputation (Some "statistical_test") (Some "data.csv") ["x"; "y"] in
  let files : gmap string payload := {["data.csv" := PFrame Example.xy_frame]} in
  ((comp_type comp <> Some "correlation" /\ comp_type comp <> Some "regression") \/
   (length (comp_columns comp) < 2)%nat) /\
  _perform_computations Sample.to_numeric ([] ++ comp :: []) files
  = _perform_computations Sample.to_numeric ([] ++ []) files.
Proof.
  intros comp files.
  assert (H : (comp_type comp <> Some "correlation" /\ comp_type comp <> Some "regression") \/
              (length (comp_columns comp) < 2)%nat).
  { left. split; discriminate. }
  split; [exact H|]. apply other_computations_leave_no_trace, H.
Defined.

End PlanFacts.

Module ScoreFacts.
Import Agent.

Lemma ss_res_nonneg s i x y : (0 <= ss_res s i x y)%Q.
Proof.
  unfold ss_res. revert y. induction x as [|a x IH]; intros [|b y]; cbn [zip_with];
    try apply Qle_refl.
  rewrite RegressionFacts.Qsum_cons.
  rewrite <- (Qplus_0_r 0). apply Qplus_le_compat; [|apply IH].
  apply Qpower.Qsqr_nonneg.
Qed.

Lemma ss_res_flat m x y :
  length x = length y ->
  (ss_res 0 m x y == Qsum (zip_with (fun a b => (a - m) * (b - m))%Q y y))%Q.
Proof.
  unfold ss_res. revert y. induction x as [|a x IH]; intros [|b y] Hlen; simpl in Hlen;
    try done.
  cbn [zip_with]. rewrite !RegressionFacts.Qsum_cons. rewrite IH by lia. ring.
Qed.

Lemma fraction_bounds (a b : Q) :
  (0 <= a)%Q -> (a <= b)%Q -> ~ (b == 0)%Q -> (0 <= 1 - a / b)%Q /\ (1 - a / b <= 1)%Q.
Proof.
  intros Ha Hab Hb.
  assert (Hpos : (0 < b)%Q).
  { apply Qnot_le_lt. intros Hle. apply Hb. apply Qle_antisym; [done|].
    by apply (Qle_trans _ a). }
  assert (H0 : (0 <= a / b)%Q).
  { apply Qle_shift_div_l; [done|]. by rewrite Qmult_0_l. }
  assert (H1 : (a / b <= 1)%Q).
  { apply Qle_shift_div_r; [done|]. by rewrite Qmult_1_l. }
  split.
  - setoid_replace 0%Q with (1 - 1)%Q using relation Qeq by ring.
    apply Qplus_le_compat; [apply Qle_refl|]. by apply Qopp_le_compat.
  - setoid_replace 1%Q with (1 - 0)%Q using relation Qeq at 2 by ring.
    apply Qplus_le_compat; [apply Qle_refl|]. by apply Qopp_le_compat.
Qed.

Section Facts.

Variable float_of_str : string -> option Q.

Lemma as_floats_length c l : as_floats float_of_str c = Ok l -> length l = col_length c.
Proof.
  unfold col_length. destruct c as [cells|cells|cells|cells]; simpl.
  - destruct (forallb _ cells); [|done]. intros [= <-]. by rewrite !length_map.
  - intros [= <-]. by rewrite length_map.
  - done.
  - intros [= <-]. by rewrite !length_map.
Qed.

(** X18.  On a well-formed frame, the coefficient of determination that a
    regression returns lies between 0 and 1: the fitted line is never worse
    than the horizontal line through the mean. *)
Theorem r_squared_is_a_fraction df a b r2 slope intercept :
  wf_frame df = true ->
  regression float_of_str (PFrame df) a b = Ok (Regression (Some r2) slope intercept) ->
  (0 <= r2)%Q /\ (r2 <= 1)%Q.
Proof.
  intros Hwf. unfold regression, index_payload, getitem.
  destruct (assoc a (columns df)) as [ca|] eqn:Ha; [|done].
  destruct (assoc b (columns df)) as [cb|] eqn:Hb; [|done].
  cbn [mbind res_bind].
  destruct (as_floats float_of_str ca) as [X|] eqn:HX; [|done].
  destruct (as_floats float_of_str cb) as [y|] eqn:Hy; [|done].
  cbn [mbind res_bind].
  destruct (forallb notna X) eqn:HpX; [|done].
  destruct (forallb notna y) eqn:Hpy; [|done].
  cbn [andb negb].
  destruct (Nat.eqb_spec (length X) 0) as [H0|H0]; [done|].
  assert (Hlen : length (dropna X) = length (dropna y)).
  { rewrite !RegressionClaim.dropna_all_present by done.
    rewrite (as_floats_length _ _ HX), (as_floats_length _ _ Hy).
    rewrite (wf_frame_length df a ca Hwf Ha). by rewrite (wf_frame_length df b cb Hwf Hb). }
  assert (Hne : dropna X <> []).
  { intros Hnil. apply (f_equal length) in Hnil.
    rewrite RegressionClaim.dropna_all_present in Hnil by done. done. }
  set (u := dropna X) in *. set (v := dropna y) in *.
  intros [= Hr2 _ _]. unfold r2_score in Hr2.
  destruct (length v <? 2)%nat; [done|].
  destruct (Qeq_bool (codev v v) 0) eqn:Htot.
  - injection Hr2 as <-.
    match goal with
    | |- context [Qeq_bool (ss_res ?s ?i ?x ?y) 0] => destruct (Qeq_bool (ss_res s i x y) 0)
    end; split; unfold Qle; simpl; lia.
  - injection Hr2 as <-. apply fraction_bounds.
    + apply ss_res_nonneg.
    + eapply Qle_trans; [apply (RegressionFacts.ols_least_squares u v 0 (mean v) Hlen Hne)|].
      rewrite (ss_res_flat (mean v) u v Hlen). apply Qle_refl.
    + intros Heq. apply Qeq_bool_neq in Htot. done.
Qed.

End Facts.

Lemma r_squared_is_a_fraction_witness :
  wf_frame Example.xy_frame = true /\
  exists r2 slope intercept,
    regression Sample.to_numeric (PFrame Example.xy_frame) "x" "y"
    = Ok (Regression (Some r2) slope intercept) /\
    (0 <= r2)%Q /\ (r2 <= 1)%Q.
Proof.
  split; [reflexivity|]. eexists _, _, _. split; [reflexivity|].
  eapply (r_squared_is_a_fraction Sample.to_numeric Example.xy_frame "x" "y");
    reflexivity.
Defined.

End ScoreFacts.

(** * More facts about [prepare_for_ml] *)

Module EncoderFacts.

Lemma index_of_lookup s l : s ∈ l -> l !! index_of s l = Some s.
Proof.
  induction l as [|x l IH]; simpl.
  - intros H. by apply elem_of_nil in H.
  - destruct (String.eqb_spec x s) as [->|Hne]; [done|].
    intros [?|H]%elem_of_cons; [congruence|]. by apply IH.
Qed.

Lemma NoDup_insert_string x l : x ∉ l -> NoDup l -> NoDup (insert_string x l).
Proof.
  induction l as [|y l IH]; simpl; intros Hx Hnd.
  - apply NoDup_singleton.
  - destruct (String.leb x y); [by apply NoDup_cons|].
    apply NoDup_cons in Hnd as [Hy Hnd]. apply not_elem_of_cons in Hx as [Hxy Hx].
    apply NoDup_cons. split; [|by apply IH].
    rewrite elem_of_insert_string. intros [->|H]; done.
Qed.

Lemma NoDup_sort_strings l : NoDup l -> NoDup (sort_strings l).
Proof.
  induction l as [|x l IH]; simpl; [done|].
  intros [Hx Hnd]%NoDup_cons. apply NoDup_insert_string; [|by apply IH].
  by rewrite elem_of_sort_strings.
Qed.

Lemma Sorted_insert_string x l :
  Sorted.Sorted (fun a b => String.leb a b = true) l ->
  Sorted.Sorted (fun a b => String.leb a b = true) (insert_string x l).
Proof.
  induction l as [|y l IH]; simpl; intros Hs.
  - by repeat constructor.
  - destruct (String.leb x y) eqn:Hxy.
    + constructor; [done|]. by constructor.
    + apply Sorted.Sorted_inv in Hs as [Hs Hhd]. constructor; [by apply IH|].
      assert (Hyx : String.leb y x = true).
      { destruct (String.leb_total x y) as [H|H]; [congruence|done]. }
      destruct l as [|z l]; simpl.
      * by constructor.
      * apply Sorted.HdRel_inv in Hhd. destruct (String.leb x z); by constructor.
Qed.

Lemma Sorted_sort_strings l : Sorted.Sorted (fun a b => String.leb a b = true) (sort_strings l).
Proof. induction l as [|x l IH]; simpl; [constructor|]. by apply Sorted_insert_string. Qed.

(** X12.  A fitted label encoder holds the distinct values it was fitted on, in
    ascending order.  The code of a fitted value is its position among them:
    decoding the code gives the value back, and two fitted values with the
    same code are equal. *)
Theorem label_encoding_round_trip values :
  let le := label_fit values in
  NoDup (classes_ le) /\
  Sorted.Sorted (fun a b => String.leb a b = true) (classes_ le) /\
  (forall s, s ∈ classes_ le <-> s ∈ values) /\
  (forall s, s ∈ values ->
     exists code, label_transform le [s] = [Some (inject_Z (Z.of_nat code))] /\
                  classes_ le !! code = Some s) /\
  (forall s s', s ∈ values -> s' ∈ values ->
     label_transform le [s] = label_transform le [s'] -> s = s').
Proof.
  intros le. subst le. cbn [label_fit classes_].
  assert (Hin : forall s, s ∈ sort_strings (remove_dups values) <-> s ∈ values).
  { intros s. by rewrite elem_of_sort_strings, elem_of_remove_dups. }
  split_and!.
  - apply NoDup_sort_strings, NoDup_remove_dups.
  - apply Sorted_sort_strings.
  - done.
  - intros s Hs. eexists. split; [reflexivity|]. apply index_of_lookup. by apply Hin.
  - intros s s' Hs Hs'. unfold label_transform. cbn [map classes_].
    intros [= Heq%Nat2Z.inj].
    apply Hin, index_of_lookup in Hs. apply Hin, index_of_lookup in Hs'.
    rewrite Heq in Hs. congruence.
Qed.

End EncoderFacts.

Module PrepareFacts.

Lemma assoc_assoc_set_ne {A} n m (c : A) cols :
  n <> m -> assoc m (assoc_set n c cols) = assoc m cols.
Proof.
  intros Hne. induction cols as [|[k c0] cols IH]; simpl.
  - by apply String.eqb_neq in Hne as ->.
  - destruct (String.eqb_spec k n) as [->|Hkn]; simpl.
    + by apply String.eqb_neq in Hne as ->.
    + destruct (String.eqb k m); [done|apply IH].
Qed.

Lemma assoc_assoc_set_eq {A} n (c : A) cols : assoc n (assoc_set n c cols) = Some c.
Proof.
  induction cols as [|[k c0] cols IH]; simpl.
  - by rewrite String.eqb_refl.
  - destruct (String.eqb_spec k n) as [->|Hkn]; simpl.
    + by rewrite String.eqb_refl.
    + by apply String.eqb_neq in Hkn as ->.
Qed.

Lemma set_columns_keeps t names cols d :
  t ∉ names -> assoc t (columns (set_columns names cols d)) = assoc t (columns d).
Proof.
  revert cols d. induction names as [|n names IH]; intros [|c cols] d Ht; simpl; try done.
  apply not_elem_of_cons in Ht as [Hne Ht]. rewrite IH by done.
  unfold setitem. cbn [columns]. by apply assoc_assoc_set_ne.
Qed.

Section Facts.

Variable Scaler : Type.
Variable scaler_fit_transform : list (list (option Q)) -> Scaler * list (list (option Q)).

Lemma encode_loop_keeps t cats d (self : DataProcessor Scaler) d' self' :
  for_each_SM (encode_step (Some t)) d cats self = (Ok d', self') ->
  assoc t (columns d') = assoc t (columns d).
Proof.
  revert d self. induction cats as [|col cats IH]; intros d self; cbn [for_each_SM].
  - by intros [= <- _].
  - unfold mbind, SM_bind. destruct (encode_step (Some t) d col self) as [[d1|e] self1] eqn:Hstep;
      [|done].
    intros Hrest. rewrite (IH _ _ Hrest). clear Hrest IH.
    unfold encode_step in Hstep. cbn [is_target] in Hstep.
    destruct (String.eqb_spec col t) as [->|Hne].
    + by injection Hstep as <- _.
    + unfold mbind, SM_bind, lift_SM, getitem in Hstep.
      destruct (assoc col (columns d)) as [[cells| | |]|]; try done.
      injection Hstep as <- _. unfold setitem. cbn [columns].
      by apply assoc_assoc_set_ne.
Qed.

(** X13.  A target column with a name is handed back as it was given: it is
    neither encoded nor scaled, whatever its dtype, and it is not among the
    feature columns. *)
Theorem target_column_is_left_alone df t (self : DataProcessor Scaler) r self' :
  t <> "" ->
  prepare_for_ml scaler_fit_transform df (Some t) self = (Ok r, self') ->
  assoc t (columns (data r)) = assoc t (columns df) /\
  (t ∉ feature_columns r) /\
  target_column r = Some t.
Proof.
  intros Ht. unfold prepare_for_ml, mbind, SM_bind.
  destruct (prepare_frame scaler_fit_transform df (Some t) self) as [[d1|e] self1] eqn:Hframe;
    [|done].
  cbn [get_self mret SM_ret]. intros [= <- _]. cbn [data feature_columns target_column].
  split_and!; [|  |done].
  - unfold prepare_frame, mbind, SM_bind in Hframe.
    destruct (for_each_SM _ df _ self) as [[d0|e] self0] eqn:Hloop; [|done].
    rewrite <- (encode_loop_keeps _ _ _ _ _ _ Hloop).
    set (names := if negb (String.eqb t "") && existsb (String.eqb t) (numeric_columns d0)
                  then List.filter (fun n => negb (String.eqb n t)) (numeric_columns d0)
                  else numeric_columns d0) in *.
    assert (Hnames : t ∉ names).
    { unfold names. apply String.eqb_neq in Ht. rewrite Ht. cbn [negb andb].
      destruct (existsb _ _) eqn:Hex.
      - rewrite list_elem_of_In, filter_In, String.eqb_refl. by intros [_ ?].
      - intros Hin%list_elem_of_In. apply not_true_iff_false in Hex. apply Hex.
        apply existsb_exists. exists t. by rewrite String.eqb_refl. }
    destruct names as [|n0 names0] eqn:En.
    + by injection Hframe as <- _.
    + destruct (len d0 =? 0)%nat; [done|].
      cbn [set_scaler mret SM_ret] in Hframe. injection Hframe as <- _.
      exact (set_columns_keeps t (n0 :: names0) _ d0 Hnames).
  - rewrite list_elem_of_In, filter_In. cbn [is_target]. rewrite String.eqb_refl.
    by intros [_ ?].
Qed.

End Facts.

Lemma target_column_is_left_alone_witness :
  let out := prepare_for_ml Sample.scaler_fit_transform Example.survey_frame (Some "age")
               (__init__ unit) in
  ("age" <> "") /\
  exists r self', out = (Ok r, self') /\
    assoc "age" (columns (data r)) = assoc "age" (columns Example.survey_frame) /\
    ("age" ∉ feature_columns r) /\
    target_column r = Some "age".
Proof.
  intros out. split; [discriminate|].
  destruct out as [[r|e] self'] eqn:Hout; [|by vm_compute in Hout].
  exists r, self'. split; [reflexivity|].
  apply (target_column_is_left_alone unit Sample.scaler_fit_transform Example.survey_frame
           "age" (__init__ unit) r self'); [discriminate|exact Hout].
Defined.

End PrepareFacts.

Module EncodingFacts.

Lemma categorical_columns_elem n df :
  n ∈ categorical_columns df -> exists cells, (n, ObjCol cells) ∈ columns df.
Proof.
  unfold categorical_columns. rewrite list_elem_of_omap.
  intros ([m c] & Hin & Hc). simpl in Hc. destruct c; try done.
  injection Hc as ->. eauto.
Qed.

Lemma categorical_columns_intro n cells df :
  (n, ObjCol cells) ∈ columns df -> n ∈ categorical_columns df.
Proof.
  intros Hin. unfold categorical_columns. apply list_elem_of_omap.
  by exists (n, ObjCol cells).
Qed.

Lemma categorical_columns_sublist df : categorical_columns df `sublist_of` column_names df.
Proof.
  unfold categorical_columns, column_names.
  induction (columns df) as [|[n c] cols IH]; csimpl; [done|].
  destruct c; csimpl; by constructor.
Qed.

Lemma numeric_columns_sublist df : numeric_columns df `sublist_of` column_names df.
Proof.
  unfold numeric_columns, column_names.
  induction (columns df) as [|[n c] cols IH]; csimpl; [done|].
  destruct c; csimpl; by constructor.
Qed.

Lemma is_target_true target n : is_target target n = true <-> target = Some n.
Proof.
  destruct target as [t|]; simpl; [|done].
  rewrite String.eqb_eq. split; [by intros ->|by intros [= ->]].
Qed.

Lemma set_columns_shape names cols d :
  (forall n, n ∈ names -> n ∈ column_names d) ->
  index (set_columns names cols d) = index d /\
  column_names (set_columns names cols d) = column_names d /\
  forall n c, assoc n (columns (set_columns names cols d)) = Some c ->
    assoc n (columns d) = Some c \/ is_numeric c = true.
Proof.
  revert cols d. induction names as [|m names IH]; intros [|c0 cols] d Hin; cbn [set_columns];
    try by auto.
  assert (Hm : m ∈ column_names d) by (apply Hin; left).
  destruct (IH cols (setitem m (NumCol c0) d)) as (Hi & Hn & Hc).
  { intros n Hn. rewrite column_names_setitem by done. apply Hin. by right. }
  split_and!.
  - by rewrite Hi.
  - by rewrite Hn, column_names_setitem.
  - intros n c [H|H]%Hc; [|by right].
    unfold setitem in H. cbn [columns] in H.
    destruct (decide (m = n)) as [->|Hne].
    + rewrite PrepareFacts.assoc_assoc_set_eq in H. injection H as <-. by right.
    + rewrite PrepareFacts.assoc_assoc_set_ne in H by done. by left.
Qed.

Section Facts.

Variable Scaler : Type.
Variable scaler_fit_transform : list (list (option Q)) -> Scaler * list (list (option Q)).

Lemma for_each_SM_invariant {S A} (body : S -> A -> SM Scaler S)
    (P : list A -> S -> DataProcessor Scaler -> Prop) xs :
  (forall pre x post s self, xs = pre ++ x :: post -> P pre s self ->
     exists s' self', body s x self = (Ok s', self') /\ P (pre ++ [x]) s' self') ->
  forall s self, P [] s self ->
    exists s' self', for_each_SM body s xs self = (Ok s', self') /\ P xs s' self'.
Proof.
  intros Hstep.
  assert (H : forall ys pre s self, xs = pre ++ ys -> P pre s self ->
                exists s' self', for_each_SM body s ys self = (Ok s', self') /\ P xs s' self').
  { induction ys as [|y ys IH]; intros pre s self Hxs HP; cbn [for_each_SM].
    - rewrite app_nil_r in Hxs. subst pre. by exists s, self.
    - destruct (Hstep pre y ys s self Hxs HP) as (s1 & self1 & Hb & HP1).
      unfold mbind, SM_bind. rewrite Hb. apply (IH (pre ++ [y])); [|done].
      by rewrite <- app_assoc. }
  intros s self HP. by apply (H xs []).
Qed.

(** The encoded form of a text column. *)
Lemma encode_loop df target (self : DataProcessor Scaler) :
  NoDup (column_names df) ->
  exists d' self',
    for_each_SM (encode_step target) df (categorical_columns df) self = (Ok d', self') /\
    scalers self' = scalers self /\
    index d' = index df /\ column_names d' = column_names df /\
    (forall n, n ∉ categorical_columns df \/ target = Some n ->
       assoc n (columns d') = assoc n (columns df)) /\
    (forall n cells, assoc n (columns df) = Some (ObjCol cells) -> target <> Some n ->
       assoc n (columns d')
       = Some (NumCol (label_transform (label_fit (map astype_str cells))
                         (map astype_str cells))) /\
       encoders self' !! n = Some (label_fit (map astype_str cells))).
Proof.
  intros Hnd.
  assert (Hcat : NoDup (categorical_columns df)).
  { eapply sublist_NoDup; [|apply categorical_columns_sublist]. done. }
  pose (P := fun (pre : list string) (d' : DataFrame) (self' : DataProcessor Scaler) =>
    scalers self' = scalers self /\
    index d' = index df /\ column_names d' = column_names df /\
    (forall n, n ∉ pre \/ target = Some n -> assoc n (columns d') = assoc n (columns df)) /\
    (forall n cells, n ∈ pre -> assoc n (columns df) = Some (ObjCol cells) ->
       target <> Some n ->
       assoc n (columns d')
       = Some (NumCol (label_transform (label_fit (map astype_str cells))
                         (map astype_str cells))) /\
       encoders self' !! n = Some (label_fit (map astype_str cells)))).
  destruct (for_each_SM_invariant (encode_step target) P (categorical_columns df))
    with df self as (d' & self' & Hrun & Hs & Hi & Hn & Hkeep & Henc).
  - intros pre x post d1 self1 Hxs (Hs & Hi & Hn & Hkeep & Henc).
    assert (Hx : x ∉ pre).
    { rewrite Hxs in Hcat. apply NoDup_app in Hcat as (_ & Hd & _).
      intros Hin. apply (Hd x Hin). left. }
    assert (Hxin : x ∈ categorical_columns df).
    { rewrite Hxs. apply elem_of_app. right. left. }
    destruct (categorical_columns_elem _ _ Hxin) as [cells Hcells].
    apply assoc_elem_NoDup in Hcells; [|done].
    unfold encode_step. destruct (is_target target x) eqn:Htx.
    + apply is_target_true in Htx. exists d1, self1. split; [done|]. unfold P. split_and!; try done.
      * intros n [Hnot|Ht]; apply Hkeep; [|by right].
        left. intros Hin. apply Hnot. apply elem_of_app. by left.
      * intros n cells' [Hin|Hin%list_elem_of_singleton]%elem_of_app Hc Ht.
        -- by apply Henc.
        -- subst n. done.
    + assert (Hntx : target <> Some x).
      { intros Ht%is_target_true. congruence. }
      unfold mbind, SM_bind, lift_SM, getitem.
      rewrite (Hkeep x (or_introl Hx)), Hcells. cbn [set_encoder mret SM_ret].
      eexists _, _. split; [done|]. unfold P. cbn [scalers encoders]. split_and!; try done.
      * rewrite column_names_setitem; [done|]. rewrite Hn.
        by apply (elem_of_sublist _ _ _ Hxin (categorical_columns_sublist df)).
      * intros n Hcase. unfold setitem. cbn [columns].
        assert (Hne : x <> n).
        { intros ->. destruct Hcase as [Hnot|Ht]; [|done].
          apply Hnot. apply elem_of_app. right. left. }
        rewrite PrepareFacts.assoc_assoc_set_ne by done. apply Hkeep.
        destruct Hcase as [Hnot|Ht]; [|by right].
        left. intros Hin. apply Hnot. apply elem_of_app. by left.
      * intros n cells' Hin Hc Ht. unfold setitem. cbn [columns].
        apply elem_of_app in Hin as [Hin|Hin%list_elem_of_singleton].
        -- assert (Hne : x <> n) by (by intros ->).
           rewrite PrepareFacts.assoc_assoc_set_ne by done.
           rewrite lookup_insert_ne by done. by apply Henc.
        -- subst n. rewrite Hcells in Hc. injection Hc as <-.
           by rewrite PrepareFacts.assoc_assoc_set_eq, lookup_insert_eq.
  - unfold P. split_and!; try done. intros n cells Hin. by apply elem_of_nil in Hin.
  - exists d', self'. split_and!; try done.
    intros n cells Hc Ht. apply Henc; [|done|done].
    apply (categorical_columns_intro n cells). by apply assoc_Some_elem.
Qed.

Lemma astype_str_present texts : map astype_str (map Some texts) = texts.
Proof. induction texts as [|s texts IH]; [done|]. cbn. by rewrite IH. Qed.

(** X14.  On a frame with distinct column names and at least one row
    [prepare_for_ml] returns.  The prepared frame has the rows and the column
    names of the argument; no text column is left in it except the target;
    and for every text column without a missing cell, other than the target,
    the instance, and the result, hold the encoder fitted on the texts of
    its cells. *)
Theorem prepare_for_ml_encodes_text df target (self : DataProcessor Scaler) :
  NoDup (column_names df) ->
  index df <> [] ->
  exists r self',
    prepare_for_ml scaler_fit_transform df target self = (Ok r, self') /\
    index (data r) = index df /\
    column_names (data r) = column_names df /\
    (forall n, n ∈ categorical_columns (data r) -> target = Some n) /\
    (forall n texts, assoc n (columns df) = Some (ObjCol (map Some texts)) ->
       target <> Some n ->
       encoders self' !! n = Some (label_fit texts) /\
       result_encoders r !! n = Some (label_fit texts)).
Proof.
  intros Hnd Hrows.
  destruct (encode_loop df target self Hnd)
    as (d1 & self1 & Hrun & Hs & Hi & Hn & Hkeep & Henc).
  assert (Hframe : exists d2 self2,
            prepare_frame scaler_fit_transform df target self = (Ok d2, self2) /\
            encoders self2 = encoders self1 /\
            index d2 = index d1 /\ column_names d2 = column_names d1 /\
            forall n c, assoc n (columns d2) = Some c ->
              assoc n (columns d1) = Some c \/ is_numeric c = true).
  { unfold prepare_frame, mbind, SM_bind. rewrite Hrun.
    set (names := match target with
                  | Some t =>
                      if negb (String.eqb t "") && existsb (String.eqb t) (numeric_columns d1)
                      then List.filter (fun n => negb (String.eqb n t)) (numeric_columns d1)
                      else numeric_columns d1
                  | None => numeric_columns d1
                  end).
    assert (Hnames : forall n, n ∈ names -> n ∈ column_names d1).
    { intros n Hin.
      apply (elem_of_sublist (numeric_columns d1)); [|apply numeric_columns_sublist].
      unfold names in Hin. destruct target as [t|]; [|done].
      destruct (_ && _); [|done].
      by apply list_elem_of_In, filter_In, proj1, list_elem_of_In in Hin. }
    assert (Hlen : (len d1 =? 0)%nat = false).
    { apply Nat.eqb_neq. unfold len. rewrite Hi. by destruct (index df). }
    destruct names as [|n0 names0] eqn:En.
    - exists d1, self1. split_and!; try done. auto.
    - rewrite Hlen. cbn [set_scaler mret SM_ret].
      destruct (set_columns_shape (n0 :: names0)
                  (scaler_fit_transform (map (numeric_cells d1) (n0 :: names0))).2 d1 Hnames)
        as (H1 & H2 & H3).
      eexists _, _. split; [done|]. cbn [encoders]. by split_and!. }
  destruct Hframe as (d2 & self2 & Hframe & He & Hi2 & Hn2 & Hc2).
  unfold prepare_for_ml, mbind, SM_bind. rewrite Hframe. cbn [get_self mret SM_ret].
  eexists _, _. split; [done|]. cbn [data result_encoders]. split_and!.
  - by rewrite Hi2.
  - by rewrite Hn2.
  - intros n [cells Hin]%categorical_columns_elem.
    assert (Hnd2 : NoDup (column_names d2)) by (by rewrite Hn2, Hn).
    apply assoc_elem_NoDup in Hin; [|done].
    destruct (Hc2 _ _ Hin) as [Hd1|?]; [|done].
    destruct (decide (target = Some n)) as [?|Ht]; [done|]. exfalso.
    destruct (decide (n ∈ categorical_columns df)) as [Hcat|Hcat].
    + apply categorical_columns_elem in Hcat as [cells0 Hc0].
      apply assoc_elem_NoDup in Hc0; [|done].
      destruct (Henc n cells0 Hc0 Ht) as [Hnum _]. congruence.
    + apply Hcat. apply (categorical_columns_intro n cells).
      apply assoc_Some_elem. rewrite <- Hkeep by (by left). done.
  - intros n texts Hc Ht. rewrite He. destruct (Henc n _ Hc Ht) as [_ H].
    rewrite astype_str_present in H. by split.
Qed.

End Facts.

Lemma prepare_for_ml_encodes_text_witness :
  NoDup (column_names Example.steady_frame) /\
  index Example.steady_frame <> [] /\
  exists r self',
    prepare_for_ml Sample.scaler_fit_transform Example.steady_frame None (__init__ unit)
    = (Ok r, self') /\
    index (data r) = index Example.steady_frame /\
    column_names (data r) = column_names Example.steady_frame /\
    (forall n, n ∈ categorical_columns (data r) -> None = Some n) /\
    (forall n texts,
       assoc n (columns Example.steady_frame) = Some (ObjCol (map Some texts)) ->
       None <> Some n ->
       encoders self' !! n = Some (label_fit texts) /\
       result_encoders r !! n = Some (label_fit texts)).
Proof.
  pose proof (wf_frame_NoDup Example.steady_frame eq_refl) as Hnd.
  assert (Hrows : index Example.steady_frame <> []) by discriminate.
  split; [exact Hnd|]. split; [exact Hrows|].
  apply (prepare_for_ml_encodes_text unit Sample.scaler_fit_transform
           Example.steady_frame None (__init__ unit) Hnd Hrows).
Defined.

End EncodingFacts.

(** * Facts about the choice of a chart *)

Module PlotFacts.
Import Agent Plot.

Lemma name_of_Some o s : name_of o = Some s -> o = Some (JStr s) /\ s <> "".
Proof.
  destruct o as [[| | |s'| |]|]; simpl; try done.
  destruct (String.eqb_spec s' ""); [done|]. by intros [= ->].
Qed.

Lemma length_select_numeric df : length (columns (select_numeric df)) = length (numeric_columns df).
Proof.
  unfold select_numeric, numeric_columns. cbn [columns].
  induction (columns df) as [|[n c] cols IH]; csimpl; [done|].
  destruct c; csimpl; by rewrite ?IH.
Qed.

Lemma get_app_last config key v : get (config ++ [(key, v)]) key = Some v.
Proof. unfold get. rewrite rev_app_distr. simpl. by rewrite String.eqb_refl. Qed.

Lemma get_app_other config key key' v :
  key <> key' -> get (config ++ [(key, v)]) key' = get config key'.
Proof.
  intros Hne. unfold get. rewrite rev_app_distr. simpl.
  by apply String.eqb_neq in Hne as ->.
Qed.

Lemma select_pair_len data x y d :
  select_pair data x y = Some d -> index d = index data.
Proof.
  unfold select_pair. destruct (assoc x _); [|done]. destruct (assoc y _); [|done].
  by intros [= <-].
Qed.

Lemma is_str_true value text : is_str value text = true -> value = JStr text.
Proof. destruct value; simpl; try done. by intros ->%String.eqb_eq. Qed.

Lemma take_present_length {A} (l : list (option A)) :
  (length (take_mask (map notna l) l) + isnull_sum l = length l)%nat.
Proof.
  unfold isnull_sum. induction l as [|[x|] l IH]; simpl; [done| |]; lia.
Qed.

Lemma col_take_present_length c :
  (col_length (col_take (col_notna c) c) + col_isnull_sum c = col_length c)%nat.
Proof.
  unfold col_length. destruct c as [l|l|l|l]; simpl; rewrite !length_map;
    try apply take_present_length.
  rewrite Nat.add_0_r. f_equal. induction l; simpl; by f_equal.
Qed.

Section Facts.

Variable Figure : Type.
Variable draw_scatter : DataFrame -> string -> string -> json -> bool -> option Figure.
Variable draw_bar : DataFrame -> string -> string -> json -> option Figure.
Variable draw_line : DataFrame -> string -> string -> json -> option Figure.
Variable draw_histogram : column -> string -> json -> json -> option Figure.
Variable draw_heatmap : DataFrame -> json -> option Figure.
Variable draw_box : DataFrame -> option string -> string -> json -> option Figure.
Variable groupby_mean : DataFrame -> string -> string -> option DataFrame.
Variable sort_values_by : string -> DataFrame -> option DataFrame.
Variable savefig : Figure -> Z -> list Byte.byte.
Variable self : Chart.ChartGenerator.

Lemma xy_columns_Some data config x y :
  xy_columns data config = Some (x, y) ->
  name_of (get config "x_column") = Some x /\ name_of (get config "y_column") = Some y /\
  x ∈ column_names data /\ y ∈ column_names data.
Proof.
  unfold xy_columns.
  destruct (name_of (get config "x_column")) as [x'|]; [|done].
  destruct (name_of (get config "y_column")) as [y'|]; [|done].
  cbn [mbind option_bind].
  destruct (bool_decide (x' ∈ _)) eqn:Hx; [|done].
  destruct (bool_decide (y' ∈ _)) eqn:Hy; [|done].
  apply bool_decide_eq_true in Hx, Hy. by intros [= <- <-].
Qed.

Lemma generate_chart_Some data_files chart_config chart :
  generate_chart Figure draw_scatter draw_bar draw_line draw_histogram draw_heatmap
    draw_box groupby_mean sort_values_by savefig self data_files chart_config
  = Some chart ->
  exists config src df,
    chart_config = JObj config /\
    name_of (get config "data_source") = Some src /\
    data_files !! src = Some (PFrame df) /\
    (exists img, chart = "data:image/png;base64," +:+ Chart.b64encode img) /\
    let chart_type := default (JStr "scatter") (get config "type") in
    (is_str chart_type "heatmap" = true -> (2 <= length (numeric_columns df))%nat) /\
    (is_str chart_type "histogram" = true ->
       exists x c, name_of (get config "x_column") = Some x /\
         assoc x (columns df) = Some c /\ (col_isnull_sum c < col_length c)%nat) /\
    (is_str chart_type "box" = true ->
       exists y, name_of (get config "y_column") = Some y /\ y ∈ column_names df) /\
    (is_str chart_type "heatmap" = false -> is_str chart_type "histogram" = false ->
     is_str chart_type "box" = false -> xy_resolve df config).
Proof.
  unfold generate_chart. cbv zeta. destruct chart_config as [| | | | |config]; try done.
  destruct (name_of (get config "data_source")) as [src|] eqn:Hsrc; [|done].
  cbn [mbind option_bind].
  destruct (data_files !! src) as [[df| | |]|] eqn:Hdf; try done.
  cbn [mbind option_bind].
  set (chart_type := default (JStr "scatter") (get config "type")).
  match goal with
  | |- (?fig ≫= _) = _ -> _ => destruct fig as [f|] eqn:Hfig; [|done]
  end.
  cbn [mbind option_bind]. intros [= <-].
  exists config, src, df. fold chart_type.
  do 3 (split; [done|]). split.
  { unfold Chart._fig_to_base64. destruct (_ <? _)%Z; cbn [Chart.uri]; eauto. }
  assert (Hxy : forall g, (x ← xy_columns df config; g x) = Some f -> xy_resolve df config).
  { intros g. destruct (xy_columns df config) as [[x y]|] eqn:Hxy; [|done].
    intros _. exists x, y. by apply xy_columns_Some. }
  destruct (is_str chart_type "scatter") eqn:H1.
  { apply is_str_true in H1. rewrite H1. cbn [is_str String.eqb Ascii.eqb Bool.eqb].
    split_and!; try done. intros _ _ _. revert Hfig. apply Hxy. }
  destruct (is_str chart_type "bar") eqn:H2.
  { apply is_str_true in H2. rewrite H2. cbn [is_str String.eqb Ascii.eqb Bool.eqb].
    split_and!; try done. intros _ _ _. revert Hfig. apply Hxy. }
  destruct (is_str chart_type "line") eqn:H3.
  { apply is_str_true in H3. rewrite H3. cbn [is_str String.eqb Ascii.eqb Bool.eqb].
    split_and!; try done. intros _ _ _. revert Hfig. apply Hxy. }
  destruct (is_str chart_type "histogram") eqn:H4.
  { apply is_str_true in H4. rewrite H4. cbn [is_str String.eqb Ascii.eqb Bool.eqb].
    split_and!; try done. intros _. unfold _create_histogram in Hfig.
    destruct (name_of (get config "x_column")) as [x|]; [|done].
    cbn [mbind option_bind] in Hfig.
    destruct (assoc x (columns df)) as [c|] eqn:Hc; [|done].
    cbn [mbind option_bind] in Hfig.
    destruct (Nat.eqb_spec (col_length (col_take (col_notna c) c)) 0) as [?|Hlen]; [done|].
    exists x, c. split_and!; try done. pose proof (col_take_present_length c). lia. }
  destruct (is_str chart_type "heatmap") eqn:H5.
  { apply is_str_true in H5. rewrite H5. cbn [is_str String.eqb Ascii.eqb Bool.eqb].
    split_and!; try done. intros _. unfold _create_heatmap in Hfig.
    destruct (Nat.ltb_spec (length (columns (select_numeric df))) 2) as [?|Hlen]; [done|].
    by rewrite length_select_numeric in Hlen. }
  destruct (is_str chart_type "box") eqn:H6.
  { split_and!; try done. intros _. unfold _create_box_plot in Hfig.
    destruct (name_of (get config "y_column")) as [y|]; [|done].
    cbn [mbind option_bind] in Hfig.
    destruct (bool_decide (y ∈ column_names df)) eqn:Hy; [|done].
    apply bool_decide_eq_true in Hy. by exists y. }
  split_and!; try done. intros _ _ _. revert Hfig. apply Hxy.
Qed.

(** X20.  A chart comes out only when the configuration is an object whose
    data source is the name of a table of the bundle and whose columns
    resolve in it: a heatmap needs two numeric columns, a histogram an x
    column with a present value, a box plot a y column, every other chart an
    x and a y column.  What comes out is the data URI of a PNG image. *)
Theorem chart_needs_resolved_references data_files chart_config chart :
  generate_chart Figure draw_scatter draw_bar draw_line draw_histogram draw_heatmap
    draw_box groupby_mean sort_values_by savefig self data_files chart_config
  = Some chart ->
  exists config src df,
    chart_config = JObj config /\
    name_of (get config "data_source") = Some src /\
    data_files !! src = Some (PFrame df) /\
    (exists img, chart = "data:image/png;base64," +:+ Chart.b64encode img) /\
    let chart_type := default (JStr "scatter") (get config "type") in
    (is_str chart_type "heatmap" = true -> (2 <= length (numeric_columns df))%nat) /\
    (is_str chart_type "histogram" = true ->
       exists x c, name_of (get config "x_column") = Some x /\
         assoc x (columns df) = Some c /\ (col_isnull_sum c < col_length c)%nat) /\
    (is_str chart_type "box" = true ->
       exists y, name_of (get config "y_column") = Some y /\ y ∈ column_names df) /\
    (is_str chart_type "heatmap" = false -> is_str chart_type "histogram" = false ->
     is_str chart_type "box" = false -> xy_resolve df config).
Proof. apply generate_chart_Some. Qed.

Lemma create_scatter_plot_ext data config config' :
  (forall key, key ∈ ["x_column"; "y_column"; "title"; "add_regression"] ->
     get config' key = get config key) ->
  _create_scatter_plot Figure draw_scatter data config'
  = _create_scatter_plot Figure draw_scatter data config.
Proof.
  intros H. unfold _create_scatter_plot, xy_columns, title_of.
  rewrite !H; [done|set_solver..].
Qed.

(** X21.  A chart type that is none of the six known ones is not refused: the
    chart is the scatter plot of the same configuration. *)
Theorem unknown_chart_type_is_scatter data_files config :
  (forall t, t ∈ chart_types -> get config "type" <> Some (JStr t)) ->
  generate_chart Figure draw_scatter draw_bar draw_line draw_histogram draw_heatmap
    draw_box groupby_mean sort_values_by savefig self data_files (JObj config)
  = generate_chart Figure draw_scatter draw_bar draw_line draw_histogram draw_heatmap
      draw_box groupby_mean sort_values_by savefig self data_files
      (JObj (config ++ [("type", JStr "scatter")])).
Proof.
  intros Htype. unfold generate_chart.
  rewrite get_app_last, get_app_other by done.
  destruct (name_of (get config "data_source")) as [src|]; [|done].
  cbn [mbind option_bind].
  destruct (data_files !! src) as [[df| | |]|]; try done.
  cbn [mbind option_bind default is_str String.eqb Ascii.eqb Bool.eqb].
  rewrite (create_scatter_plot_ext df config (config ++ [("type", JStr "scatter")]))
    by (intros key Hkey; apply get_app_other; intros <-;
        repeat (apply elem_of_cons in Hkey as [Hkey|Hkey]; [discriminate|]);
        by apply elem_of_nil in Hkey).
  assert (Hno : forall t, t ∈ chart_types ->
                  is_str (default (JStr "scatter") (get config "type")) t = true ->
                  get config "type" = None).
  { intros t Ht Hs. apply is_str_true in Hs.
    destruct (get config "type") as [j|] eqn:Hj; [|done].
    simpl in Hs. subst j. by destruct (Htype t Ht). }
  destruct (is_str _ "scatter") eqn:H1; [done|].
  destruct (is_str _ "bar") eqn:H2.
  { rewrite (Hno "bar") in H1 by (done || set_solver). done. }
  destruct (is_str _ "line") eqn:H3.
  { rewrite (Hno "line") in H1 by (done || set_solver). done. }
  destruct (is_str _ "histogram") eqn:H4.
  { rewrite (Hno "histogram") in H1 by (done || set_solver). done. }
  destruct (is_str _ "heatmap") eqn:H5.
  { rewrite (Hno "heatmap") in H1 by (done || set_solver). done. }
  destruct (is_str _ "box") eqn:H6.
  { rewrite (Hno "box") in H1 by (done || set_solver). done. }
  done.
Qed.

Section Handler.

Variable float_of_str : string -> option Q.
Variable json_loads : string -> option json.
Variable chat_completion : string -> gmap string payload -> res string.

(** X22.  The request handler with this chart generator: either the response is
    the analysis as it is, or the analysis asks for a visualization, its
    chart configuration names a table of the bundle, and the response is the
    analysis with the data URI of a PNG image under the key 'chart'. *)
Theorem chart_entry_of_response questions data_files :
  let analysis_result := analyze float_of_str json_loads chat_completion questions data_files in
  let response :=
    analyze_data float_of_str json_loads chat_completion
      (generate_chart Figure draw_scatter draw_bar draw_line draw_histogram draw_heatmap
         draw_box groupby_mean sort_values_by savefig self)
      questions data_files in
  response = analysis_result \/
  exists config src df img,
    truthy (get_json analysis_result "needs_visualization" (JBool false)) = true /\
    get_json analysis_result "chart_config" (JObj []) = JObj config /\
    name_of (get config "data_source") = Some src /\
    data_files !! src = Some (PFrame df) /\
    response = <["chart" := VChart ("data:image/png;base64," +:+ Chart.b64encode img)]>
                 analysis_result.
Proof.
  intros analysis_result response. subst response. unfold analyze_data.
  fold analysis_result.
  destruct (truthy (get_json analysis_result "needs_visualization" (JBool false))) eqn:Hv;
    [|by left].
  destruct (generate_chart _ _ _ _ _ _ _ _ _ _ _ data_files _) as [chart|] eqn:Hchart;
    [|by left].
  destruct (generate_chart_Some _ _ _ Hchart)
    as (config & src & df & Hcfg & Hsrc & Hdf & [img ->] & _).
  right. exists config, src, df, img. split_and!; try done.
Qed.

End Handler.

End Facts.
End PlotFacts.

Module PlotChecks.
Import Agent Plot.

Lemma chart_needs_resolved_references_witness :
  let files : gmap string payload := {["data.csv" := PFrame Example.xy_frame]} in
  let chart_config :=
    JObj [("type", JStr "line"); ("data_source", JStr "data.csv");
          ("x_column", JStr "x"); ("y_column", JStr "y")] in
  exists chart,
    PlotSample.generate_chart files chart_config = Some chart /\
    exists config src df,
      chart_config = JObj config /\
      name_of (get config "data_source") = Some src /\
      files !! src = Some (PFrame df) /\
      (exists img, chart = "data:image/png;base64," +:+ Chart.b64encode img) /\
      let chart_type := default (JStr "scatter") (get config "type") in
      (is_str chart_type "heatmap" = true -> (2 <= length (numeric_columns df))%nat) /\
      (is_str chart_type "histogram" = true ->
         exists x c, name_of (get config "x_column") = Some x /\
           assoc x (columns df) = Some c /\ (col_isnull_sum c < col_length c)%nat) /\
      (is_str chart_type "box" = true ->
         exists y, name_of (get config "y_column") = Some y /\ y ∈ column_names df) /\
      (is_str chart_type "heatmap" = false -> is_str chart_type "histogram" = false ->
       is_str chart_type "box" = false -> xy_resolve df config).
Proof.
  intros files chart_config.
  destruct (PlotSample.generate_chart files chart_config) as [chart|] eqn:Hchart;
    [|by vm_compute in Hchart].
  exists chart. split; [reflexivity|].
  exact (PlotFacts.chart_needs_resolved_references _ _ _ _ _ _ _ _ _ _ _ _ _ _ Hchart).
Defined.

Lemma unknown_chart_type_is_scatter_witness :
  let files : gmap string payload := {["data.csv" := PFrame Example.xy_frame]} in
  let config :=
    [("type", JStr "pie"); ("data_source", JStr "data.csv");
     ("x_column", JStr "x"); ("y_column", JStr "y")] in
  (forall t, t ∈ chart_types -> get config "type" <> Some (JStr t)) /\
  PlotSample.generate_chart files (JObj config)
  = PlotSample.generate_chart files (JObj (config ++ [("type", JStr "scatter")])).
Proof.
  intros files config.
  assert (H : forall t, t ∈ chart_types -> get config "type" <> Some (JStr t)).
  { intros t Ht. unfold chart_types in Ht.
    repeat (apply elem_of_cons in Ht as [->|Ht]); try discriminate.
    by apply elem_of_nil in Ht. }
  split; [exact H|].
  exact (PlotFacts.unknown_chart_type_is_scatter _ _ _ _ _ _ _ _ _ _ _ _ _ H).
Defined.

End PlotChecks.

(** * Facts about the file processor *)

Module FilesFacts.
Import Agent Files.

Lemma lower_char_keeps (c c' : ascii) :
  c = "."%char \/ c = "/"%char -> Ascii.eqb (lower_char c') c = Ascii.eqb c' c.
Proof.
  intros [->| ->]; destruct c' as [[] [] [] [] [] [] [] []]; reflexivity.
Qed.

Lemma rfind_from_lower c s i last :
  c = "."%char \/ c = "/"%char -> rfind_from c (lower s) i last = rfind_from c s i last.
Proof.
  intros Hc. revert i last. induction s as [|c' s IH]; intros i last; simpl; try done.
  by rewrite lower_char_keeps, IH.
Qed.

Lemma get_lower i s : String.get i (lower s) = lower_char <$> String.get i s.
Proof.
  revert i. induction s as [|c s IH]; intros [|i]; simpl; try done.
Qed.

Lemma string_drop_lower n s : string_drop n (lower s) = lower (string_drop n s).
Proof.
  revert s. induction n as [|n IH]; intros [|c s]; simpl; try done.
Qed.

(** The extension of the lowered path is the lowered extension. *)
Lemma splitext_ext_lower p : splitext_ext (lower p) = lower (splitext_ext p).
Proof.
  unfold splitext_ext, rfind. rewrite !rfind_from_lower by auto.
  set (range := seq _ _).
  assert (Hex : existsb (fun filenameIndex =>
                           match String.get filenameIndex (lower p) with
                           | Some c => negb (Ascii.eqb c ".")
                           | None => false
                           end) range
                = existsb (fun filenameIndex =>
                             match String.get filenameIndex p with
                             | Some c => negb (Ascii.eqb c ".")
                             | None => false
                             end) range).
  { induction range as [|i range IH]; simpl; [done|].
    rewrite IH, get_lower. f_equal.
    destruct (String.get i p) as [c|]; simpl; [|done].
    by rewrite lower_char_keeps by auto. }
  rewrite Hex. destruct (_ && _); [apply string_drop_lower|done].
Qed.

Lemma unsupported_is_not_failed ext what e_text :
  "Unsupported file type: " +:+ ext <> "Failed to process " +:+ what +:+ " file: " +:+ e_text.
Proof. discriminate. Qed.

Section Facts.

Variable Exc : Type.
Variable str : Exc -> string.
Variable NameError : string -> Exc.
Variable path_exists : string -> bool.
Variable st_size : string -> Z.
Variable read_csv : string -> option string -> option string -> Exc + DataFrame.
Variable read_excel : string -> option string -> Exc + DataFrame.
Variable read_text : string -> string -> Exc + string.
Variable json_load : string -> Exc + json.
Variable frame_of_records : list json -> Exc + DataFrame.
Variable image_open :
  string -> Exc + (option string * list (string * json) * list Byte.byte).
Variable round2 : Q -> Q.

Lemma run_failed p filepath message :
  run Exc str NameError read_csv read_excel read_text json_load frame_of_records image_open
    p filepath = Fail (ValueError message) ->
  exists what e, message = "Failed to process " +:+ what +:+ " file: " +:+ str e.
Proof.
  destruct p; simpl.
  - unfold _process_csv. destruct (first_wide _ _ _ _); [done|].
    destruct (read_csv filepath None None); [|done]. intros [= <-]. eauto.
  - unfold _process_excel. destruct (read_excel _ _); [|done]. intros [= <-]. eauto.
  - unfold _process_json. destruct (json_load filepath) as [e|data].
    + intros [= <-]. eauto.
    + destruct data as [| | | |[|[| | | | |fields] items]|]; try done.
      destruct (frame_of_records _); [|done]. intros [= <-]. eauto.
  - unfold _process_text. destruct (read_text filepath "utf-8"); [|done].
    destruct (first_readable _ _ _ _); [done|]. intros [= <-]. eauto.
  - unfold _process_tsv. destruct (read_csv _ _ _); [|done]. intros [= <-]. eauto.
  - unfold _process_image. destruct (image_open filepath) as [e|[[format info] saved]].
    + intros [= <-]. eauto.
    + destruct (global _ _ _); [|done]. intros [= <-]. eauto.
Qed.

(** X24.  For a file that exists, with a path of ASCII text (where [lower] is
    [str.lower]), [get_file_info] reports it as not supported exactly when
    [process_file] refuses it as an unsupported file type: the two methods
    derive the extension in different ways (one lowers the path, the other
    the extension) and agree. *)
Theorem supported_agrees_with_dispatch filepath info :
  is_ascii filepath = true ->
  get_file_info path_exists st_size round2 filepath = Some info ->
  (supported info = false <->
   process_file Exc str NameError path_exists read_csv read_excel read_text json_load
     frame_of_records image_open filepath
   = Fail (ValueError ("Unsupported file type: " +:+ lower (extension info)))).
Proof.
  intros _. unfold get_file_info, process_file.
  destruct (path_exists filepath); [|done]. cbn [negb]. intros [= <-].
  cbn [supported extension]. rewrite splitext_ext_lower.
  destruct (assoc (lower (splitext_ext filepath)) supported_extensions) as [p|] eqn:Hp.
  - split.
    + intros Hno%bool_decide_eq_false. destruct Hno.
      apply assoc_Some_elem in Hp.
      change (lower (splitext_ext filepath) ∈ supported_extensions.*1).
      apply list_elem_of_fmap. by exists (lower (splitext_ext filepath), p).
    + intros (what & e & Hmsg)%run_failed.
      by apply unsupported_is_not_failed in Hmsg.
  - split; [done|]. intros _. apply bool_decide_eq_false.
    change (lower (splitext_ext filepath) ∉ supported_extensions.*1).
    by apply assoc_None_notin.
Qed.

(** X25.  An image can never be processed: for every path of ASCII text with the
    extension of an image, whatever the file holds, [process_file] raises a
    [ValueError] that says the image could not be processed; when the image
    itself is readable the cause is the name [base64], which the module uses
    and does not import.  [get_file_info] reports such a file as supported. *)
Theorem image_files_are_never_processed filepath :
  is_ascii filepath = true ->
  path_exists filepath = true ->
  splitext_ext (lower filepath) ∈ [".png"; ".jpg"; ".jpeg"] ->
  (exists e,
     process_file Exc str NameError path_exists read_csv read_excel read_text json_load
       frame_of_records image_open filepath
     = Fail (ValueError ("Failed to process image file: " +:+ str e)) /\
     (forall opened, image_open filepath = inr opened -> e = NameError "base64")) /\
  (exists info,
     get_file_info path_exists st_size round2 filepath = Some info /\
     supported info = true).
Proof.
  intros _ Hex Hext. split.
  - unfold process_file. rewrite Hex. cbn [negb].
    assert (Hp : assoc (splitext_ext (lower filepath)) supported_extensions
                 = Some process_image).
    { repeat (apply elem_of_cons in Hext as [->|Hext]); try reflexivity.
      by apply elem_of_nil in Hext. }
    rewrite Hp. cbn [run]. unfold _process_image.
    destruct (image_open filepath) as [e|[[format info] saved]].
    + exists e. split; [done|]. done.
    + exists (NameError "base64"). split; [done|]. done.
  - unfold get_file_info. rewrite Hex. cbn [negb]. eexists. split; [done|].
    cbn [supported]. rewrite <- splitext_ext_lower. apply bool_decide_eq_true.
    repeat (apply elem_of_cons in Hext as [->|Hext]);
      [set_solver..|by apply elem_of_nil in Hext].
Qed.

Lemma first_wide_spec filepath attempts :
  match first_wide Exc read_csv filepath attempts with
  | Some df =>
      exists i encoding sep,
        attempts !! i = Some (encoding, sep) /\
        read_csv filepath (Some sep) (Some encoding) = inr df /\
        (1 < length (columns df))%nat /\
        forall j a, (j < i)%nat -> attempts !! j = Some a ->
          passed_over Exc read_csv filepath a = true
  | None => forall a, a ∈ attempts -> passed_over Exc read_csv filepath a = true
  end.
Proof.
  induction attempts as [|[encoding sep] attempts IH]; cbn [first_wide].
  - intros a Ha. by apply elem_of_nil in Ha.
  - assert (Hskip : passed_over Exc read_csv filepath (encoding, sep) = true ->
              match first_wide Exc read_csv filepath attempts with
              | Some df =>
                  exists i encoding0 sep0,
                    ((encoding, sep) :: attempts) !! i = Some (encoding0, sep0) /\
                    read_csv filepath (Some sep0) (Some encoding0) = inr df /\
                    (1 < length (columns df))%nat /\
                    forall j a, (j < i)%nat -> ((encoding, sep) :: attempts) !! j = Some a ->
                      passed_over Exc read_csv filepath a = true
              | None => forall a, a ∈ (encoding, sep) :: attempts ->
                          passed_over Exc read_csv filepath a = true
              end).
    { intros Hpass. destruct (first_wide Exc read_csv filepath attempts) as [df|].
      - destruct IH as (i & e0 & s0 & Hi & Hread & Hwide & Hbefore).
        exists (S i), e0, s0. split_and!; try done.
        intros [|j] a Hj; cbn [lookup list_lookup]; [by intros [= <-]|].
        apply Hbefore. lia.
      - intros a [->|Ha]%elem_of_cons; [done|by apply IH]. }
    unfold passed_over in Hskip. cbn [fst snd] in Hskip.
    destruct (read_csv filepath (Some sep) (Some encoding)) as [e|df] eqn:Hread.
    + by apply Hskip.
    + destruct (Nat.ltb_spec 1 (length (columns df))) as [Hwide|Hnarrow].
      * exists 0%nat, encoding, sep. split_and!; try done. intros j a Hj. lia.
      * apply Hskip. apply Nat.leb_le. lia.
Qed.

(** X26.  [_process_csv] tries nine ways of reading the file, the three
    separators for each of the three encodings, encoding by encoding, and
    returns the first table with more than one column.  Only when every one
    of the nine raises or gives at most one column is the file read with the
    defaults of pandas, and that table is returned however narrow it is;
    the exception of this last read is the only one that is reported. *)
Theorem csv_first_wide_table_wins filepath :
  csv_attempts
  = [ ("utf-8", ","); ("utf-8", ";"); ("utf-8", String "009" "")
    ; ("latin-1", ","); ("latin-1", ";"); ("latin-1", String "009" "")
    ; ("cp1252", ","); ("cp1252", ";"); ("cp1252", String "009" "") ] /\
  match _process_csv Exc str read_csv filepath with
  | Done (Table df) =>
      (exists i encoding sep,
         csv_attempts !! i = Some (encoding, sep) /\
         read_csv filepath (Some sep) (Some encoding) = inr df /\
         (1 < length (columns df))%nat /\
         forall j a, (j < i)%nat -> csv_attempts !! j = Some a ->
           passed_over Exc read_csv filepath a = true) \/
      (read_csv filepath None None = inr df /\
       forall a, a ∈ csv_attempts -> passed_over Exc read_csv filepath a = true)
  | Done _ => False
  | Fail e =>
      exists exc, read_csv filepath None None = inl exc /\
        e = failed Exc str "CSV" exc /\
        forall a, a ∈ csv_attempts -> passed_over Exc read_csv filepath a = true
  end.
Proof.
  split; [reflexivity|]. unfold _process_csv.
  pose proof (first_wide_spec filepath csv_attempts) as H.
  destruct (first_wide Exc read_csv filepath csv_attempts) as [df|].
  - by left.
  - destruct (read_csv filepath None None) as [e|df] eqn:Hread.
    + by exists e.
    + by right.
Qed.

End Facts.

Lemma supported_agrees_with_dispatch_witness :
  is_ascii "uploads/Report.PDF" = true /\
  exists info,
    FilesSample.get_file_info "uploads/Report.PDF" = Some info /\
    (supported info = false <->
     FilesSample.process_file "uploads/Report.PDF"
     = Fail (ValueError ("Unsupported file type: " +:+ lower (extension info)))).
Proof.
  split; [reflexivity|]. eexists. split; [reflexivity|].
  apply (supported_agrees_with_dispatch FilesSample.Exc FilesSample.str FilesSample.NameError
           FilesSample.path_exists FilesSample.st_size FilesSample.read_csv
           FilesSample.read_excel FilesSample.read_text FilesSample.json_load
           FilesSample.frame_of_records FilesSample.image_open FilesSample.round2
           "uploads/Report.PDF"); reflexivity.
Defined.

Lemma image_files_are_never_processed_witness :
  is_ascii "uploads/Plot.PNG" = true /\
  FilesSample.path_exists "uploads/Plot.PNG" = true /\
  (splitext_ext (lower "uploads/Plot.PNG") ∈ [".png"; ".jpg"; ".jpeg"]) /\
  (exists e,
     FilesSample.process_file "uploads/Plot.PNG"
     = Fail (ValueError ("Failed to process image file: " +:+ FilesSample.str e)) /\
     (forall opened, FilesSample.image_open "uploads/Plot.PNG" = inr opened ->
        e = FilesSample.NameError "base64")) /\
  (exists info,
     FilesSample.get_file_info "uploads/Plot.PNG" = Some info /\ supported info = true).
Proof.
  assert (Hext : splitext_ext (lower "uploads/Plot.PNG") ∈ [".png"; ".jpg"; ".jpeg"]) by left.
  split; [reflexivity|]. split; [reflexivity|]. split; [exact Hext|].
  exact (image_files_are_never_processed FilesSample.Exc FilesSample.str
           FilesSample.NameError FilesSample.path_exists FilesSample.st_size
           FilesSample.read_csv FilesSample.read_excel FilesSample.read_text
           FilesSample.json_load FilesSample.frame_of_records FilesSample.image_open
           FilesSample.round2 "uploads/Plot.PNG" eq_refl eq_refl Hext).
Defined.

End FilesFacts.

Module MultiFacts.
Import Agent Plot.

(** The grid has room for up to six charts and leaves at most one axis
    unused. *)
Lemma layout_room n :
  (1 <= n)%nat ->
  let axes := ((layout n).1 * (layout n).2)%nat in
  (Nat.min n 6 <= axes)%nat /\ (axes <= 6)%nat /\ (n <= 6 -> axes <= n + 1)%nat.
Proof.
  intros Hn. unfold layout.
  destruct (Nat.eqb_spec n 1) as [->|H1]; [simpl; lia|].
  destruct (Nat.eqb_spec n 2) as [->|H2]; [simpl; lia|].
  destruct (Nat.leb_spec n 4); simpl; lia.
Qed.

Lemma layout_many n : (5 <= n)%nat -> layout n = (3, 2)%nat.
Proof.
  intros Hn. unfold layout.
  destruct (Nat.eqb_spec n 1); [lia|]. destruct (Nat.eqb_spec n 2); [lia|].
  destruct (Nat.leb_spec n 4); [lia|done].
Qed.

Section Facts.

Variable Drawing : Type.
Variable subplot_scatter : DataFrame -> string -> string -> option Drawing.
Variable subplot_bar_grouped : DataFrame -> string -> option json -> option Drawing.
Variable subplot_bar : DataFrame -> string -> string -> option Drawing.
Variable subplot_histogram : column -> string -> option Drawing.
Variable str_title : string -> string.
Variable savefig_grid : nat * nat -> list (option (option Drawing * json)) -> list nat
                        -> Z -> list Byte.byte.
Variable self : Chart.ChartGenerator.

Lemma subplots_fails data chart_configs i config :
  chart_configs !! i = Some config ->
  _create_subplot Drawing subplot_scatter subplot_bar_grouped subplot_bar subplot_histogram
    str_title data config = None ->
  subplots Drawing subplot_scatter subplot_bar_grouped subplot_bar subplot_histogram
    str_title data chart_configs = None.
Proof.
  revert i. induction chart_configs as [|c l IH]; intros [|i]; cbn [lookup list_lookup subplots];
    try done.
  - intros [= ->] ->. done.
  - intros Hi Hc. rewrite (IH i Hi Hc). by destruct (_create_subplot _ _ _ _ _ _ _ c).
Qed.

Lemma subplots_length data chart_configs drawn :
  subplots Drawing subplot_scatter subplot_bar_grouped subplot_bar subplot_histogram
    str_title data chart_configs = Some drawn ->
  length drawn = length chart_configs.
Proof.
  revert drawn. induction chart_configs as [|c l IH]; intros drawn; cbn [subplots].
  - by intros [= <-].
  - destruct (_create_subplot _ _ _ _ _ _ _ c); [|done]. cbn [mbind option_bind].
    destruct (subplots _ _ _ _ _ _ _ l) as [rest|]; [|done]. cbn [mbind option_bind].
    intros [= <-]. cbn [length]. by rewrite (IH rest).
Qed.

(** X23.  A figure of several charts shows at most six of them: the charts after
    the sixth are left out without a word.  Every axis of the grid is drawn
    on or hidden, none is both, and at most one is hidden.  A configuration
    among the first six that is no object, or whose type is no text, leaves
    the caller without any figure. *)
Theorem multi_chart_shows_at_most_six data chart_configs :
  let create :=
    create_multi_chart Drawing subplot_scatter subplot_bar_grouped subplot_bar
      subplot_histogram str_title savefig_grid self data in
  let run :=
    subplots Drawing subplot_scatter subplot_bar_grouped subplot_bar subplot_histogram
      str_title data in
  let num_charts := length chart_configs in
  let axes := ((layout num_charts).1 * (layout num_charts).2)%nat in
  (* the charts after the sixth *)
  ((6 <= num_charts)%nat -> create chart_configs = create (take 6 chart_configs)) /\
  (* the axes *)
  (forall drawn, (1 <= num_charts)%nat -> run (take axes chart_configs) = Some drawn ->
     seq 0 (length drawn) ++ seq num_charts (axes - num_charts) = seq 0 axes /\
     (axes - num_charts <= 1)%nat /\ length drawn = Nat.min num_charts 6) /\
  (* a configuration that cannot be read *)
  (forall i config, chart_configs !! i = Some config -> (i < 6)%nat ->
     _create_subplot Drawing subplot_scatter subplot_bar_grouped subplot_bar
       subplot_histogram str_title data config = None ->
     create chart_configs = None).
Proof.
  intros create run num_charts axes. subst create run. split_and!.
  - intros Hn. unfold create_multi_chart.
    assert (Hlen : length (take 6 chart_configs) = 6%nat).
    { rewrite length_take. fold num_charts. lia. }
    rewrite Hlen. fold num_charts.
    destruct (Nat.eqb_spec num_charts 0); [lia|].
    rewrite (layout_many num_charts) by lia. cbn [Nat.eqb layout Nat.leb Nat.mul Nat.add].
    rewrite take_take. cbn [Nat.min].
    replace (6 - num_charts)%nat with 0%nat by lia. done.
  - intros drawn Hn Hrun. apply subplots_length in Hrun.
    rewrite length_take in Hrun. fold num_charts in Hrun.
    destruct (layout_room num_charts Hn) as (H1 & H2 & H3). fold axes in H1, H2, H3.
    assert (Hd : length drawn = Nat.min num_charts 6) by lia.
    split_and!; [|lia|done].
    rewrite Hd. destruct (decide (num_charts <= 6)%nat) as [Hle|Hgt].
    + replace (Nat.min num_charts 6) with num_charts by lia.
      replace axes with (num_charts + (axes - num_charts))%nat at 2 by lia.
      by rewrite seq_app.
    + replace (axes - num_charts)%nat with 0%nat by lia.
      replace (Nat.min num_charts 6) with axes by lia.
      by rewrite app_nil_r.
  - intros i config Hi Hlt Hbad. unfold create_multi_chart. fold num_charts.
    assert (Hn : (1 <= num_charts)%nat).
    { apply lookup_lt_Some in Hi. fold num_charts in Hi. lia. }
    destruct (Nat.eqb_spec num_charts 0); [lia|].
    destruct (layout num_charts) as [rows cols] eqn:Hl.
    assert (Hroom : (i < rows * cols)%nat).
    { destruct (layout_room num_charts Hn) as (H1 & _). rewrite Hl in H1. cbn [fst snd] in H1.
      apply lookup_lt_Some in Hi. fold num_charts in Hi. lia. }
    rewrite (subplots_fails data (take (rows * cols) chart_configs) i config); [done| |done].
    by rewrite lookup_take_lt.
Qed.

End Facts.
End MultiFacts.

(** * The helper methods and the store *)

Module CopyFacts.

Section Facts.

Variable to_numeric : string -> option Q.
Variable to_datetime : string -> option Z.
Variable median_datetime : list (option Z) -> option Z.

(** X11.  Each of [_handle_missing_values], [_convert_data_types] and
    [_remove_outliers] works on a copy: run on the store, it ends like the
    function on frames, its result lives in an object that did not exist
    before, and every frame that was in the store, the argument among them,
    is as it was, also where a column is assigned in place and also when
    the method raises. *)
Theorem helper_methods_work_on_copies σ df d strategy method :
  σ !! df = Some d ->
  matches σ (Store._handle_missing_values median_datetime df strategy σ)
            (_handle_missing_values median_datetime d strategy) /\
  matches σ (Store._convert_data_types to_numeric to_datetime df σ)
            (_convert_data_types to_numeric to_datetime d) /\
  matches σ (Store._remove_outliers df method σ) (_remove_outliers d method).
Proof.
  intros Hd. split_and!.
  - by apply handle_missing_values_matches; [apply agree_refl|].
  - by apply convert_data_types_matches; [apply agree_refl|].
  - by apply remove_outliers_matches; [apply agree_refl|].
Qed.

End Facts.

Lemma helper_methods_work_on_copies_witness :
  let σ : gmap loc DataFrame := {[ 0%nat := Example.survey_frame ]} in
  σ !! 0%nat = Some Example.survey_frame /\
  matches σ (Store._handle_missing_values Sample.median_datetime 0%nat "forward_fill" σ)
            (_handle_missing_values Sample.median_datetime Example.survey_frame
               "forward_fill") /\
  matches σ (Store._convert_data_types Sample.to_numeric Sample.to_datetime 0%nat σ)
            (_convert_data_types Sample.to_numeric Sample.to_datetime Example.survey_frame) /\
  matches σ (Store._remove_outliers 0%nat "iqr" σ)
            (_remove_outliers Example.survey_frame "iqr").
Proof.
  intros σ.
  assert (H : σ !! 0%nat = Some Example.survey_frame) by apply lookup_singleton_eq.
  split; [exact H|].
  exact (helper_methods_work_on_copies Sample.to_numeric Sample.to_datetime
           Sample.median_datetime σ 0%nat Example.survey_frame "forward_fill" "iqr" H).
Defined.

End CopyFacts.

(** * The handler and a failed analysis *)

Module HandlerFacts.
Import Agent.

Section Facts.

Variable float_of_str : string -> option Q.
Variable json_loads : string -> option json.
Variable chat_completion : string -> gmap string payload -> res string.
Variable generate_chart : gmap string payload -> json -> option string.

(** X19.  The analysis fails when the collaborator raises, and when the plan
    requires computations and gives for them a value that cannot be iterated
    (null, a number, a truth value).  In both cases the response of the
    handler is the failure dictionary alone, with ['success'] false: no
    chart is asked for, whatever the chart generator would have drawn. *)
Theorem failed_analysis_gets_no_chart questions data_files e :
  chat_completion questions data_files = Raise e \/
  (exists text fields,
     chat_completion questions data_files = Ok text /\
     _parse_analysis_response json_loads text = JObj fields /\
     truthy (get_json (dict_of fields) "requires_computation" (JBool false)) = true /\
     (get_json (dict_of fields) "computations" (JArr []) = JNull \/
      (exists q, get_json (dict_of fields) "computations" (JArr []) = JNum q) \/
      (exists b, get_json (dict_of fields) "computations" (JArr []) = JBool b)) /\
     e = TypeError "plan field") ->
  analyze_data float_of_str json_loads chat_completion generate_chart questions data_files
  = failure e /\
  failure e !! "success" = Some (VJson (JBool false)) /\
  failure e !! "chart" = None.
Proof.
  intros H.
  assert (Ha : analyze float_of_str json_loads chat_completion questions data_files
               = failure e).
  { unfold analyze.
    destruct H as [->|(text & fields & -> & -> & -> & Hc & ->)]; [done|].
    by destruct Hc as [->|[[q ->]|[b ->]]]. }
  unfold analyze_data. rewrite Ha. split_and!; reflexivity.
Qed.

End Facts.

Lemma failed_analysis_gets_no_chart_witness :
  let e := ValueError "Connection error." in
  (chat_down "How many rows?" ∅ = Raise e \/
   (exists text fields,
      chat_down "How many rows?" ∅ = Ok text /\
      _parse_analysis_response Sample.json_loads text = JObj fields /\
      truthy (get_json (dict_of fields) "requires_computation" (JBool false)) = true /\
      (get_json (dict_of fields) "computations" (JArr []) = JNull \/
       (exists q, get_json (dict_of fields) "computations" (JArr []) = JNum q) \/
       (exists b, get_json (dict_of fields) "computations" (JArr []) = JBool b)) /\
      e = TypeError "plan field")) /\
  analyze_data Sample.to_numeric Sample.json_loads chat_down PlotSample.generate_chart
    "How many rows?" ∅ = failure e /\
  failure e !! "success" = Some (VJson (JBool false)) /\
  failure e !! "chart" = None.
Proof.
  intros e.
  assert (H : chat_down "How many rows?" ∅ = Raise e) by reflexivity.
  split; [by left|].
  exact (failed_analysis_gets_no_chart Sample.to_numeric Sample.json_loads chat_down
           PlotSample.generate_chart "How many rows?" ∅ e (or_introl H)).
Defined.

End HandlerFacts.

(** * Cleaning twice *)

Module TwiceFacts.

Lemma columnwise_idem (g : column -> option column) d :
  (forall c c', g c = Some c' -> g c' = Some c') ->
  columnwise g (columnwise g d) = columnwise g d.
Proof.
  intros Hg. unfold columnwise. cbn [index columns]. f_equal.
  induction (columns d) as [|[n c] cols IH]; csimpl; [done|].
  destruct (g c) as [c'|] eqn:Hc; csimpl; [|done].
  rewrite (Hg _ _ Hc). csimpl. by rewrite IH.
Qed.

Lemma ffill_from_idem {A} (last : option A) l :
  ffill_from last (ffill_from last l) = ffill_from last l.
Proof.
  revert last. induction l as [|[x|] l IH]; intros last; cbn [ffill_from]; [done| |].
  - by rewrite IH.
  - destruct last as [y|]; cbn [ffill_from]; by rewrite IH.
Qed.

Lemma bfill_idem {A} (l : list (option A)) : bfill (bfill l) = bfill l.
Proof. unfold bfill, ffill. by rewrite rev_involutive, ffill_from_idem. Qed.

Lemma col_ffill_idem c : col_ffill (col_ffill c) = col_ffill c.
Proof. destruct c; simpl; f_equal; try done; apply ffill_from_idem. Qed.

Lemma col_bfill_idem c : col_bfill (col_bfill c) = col_bfill c.
Proof. destruct c; simpl; f_equal; try done; apply bfill_idem. Qed.

Lemma convert_column_idem tn td c :
  convert_column tn td (convert_column tn td c) = convert_column tn td c.
Proof.
  destruct c as [l|l|l|l]; simpl; try done.
  destruct (_is_date_column l) eqn:Hd; simpl; [done|].
  destruct (mostly_numeric _) eqn:Hn; simpl; [done|]. by rewrite Hd, Hn.
Qed.

Lemma fill_auto_complete md c c' :
  fill_auto md c = c' -> col_isnull_sum c' = 0%nat \/ c' = c.
Proof.
  intros <-. destruct c as [l|l|l|l]; cbn [fill_auto col_isnull_sum].
  - left. destruct (mode l); cbn [col_isnull_sum]; apply Pipeline.isnull_sum_fillna.
  - destruct (median l); [left; apply Pipeline.isnull_sum_fillna|by right].
  - destruct (md l); [left; apply Pipeline.isnull_sum_fillna|by right].
  - by left.
Qed.

Lemma auto_column_idem md n c c' :
  auto_column md n c = Some c' -> auto_column md n c' = Some c'.
Proof.
  unfold auto_column.
  destruct (Nat.eqb_spec (col_isnull_sum c) 0) as [H0|H0].
  - intros [= <-]. by apply Nat.eqb_eq in H0 as ->.
  - destruct (n <? 2 * col_isnull_sum c)%nat eqn:Hn; [done|]. intros [= <-].
    destruct (fill_auto_complete md c _ eq_refl) as [Hz|Heq].
    + by rewrite Hz.
    + rewrite Heq. apply Nat.eqb_neq in H0. by rewrite H0, Hn, Heq.
Qed.

Section Facts.

Variable to_numeric : string -> option Q.
Variable to_datetime : string -> option Z.
Variable median_datetime : list (option Z) -> option Z.

Lemma complete_frame_is_kept d strategy :
  (forall n c, (n, c) ∈ columns d -> col_isnull_sum c = 0%nat) ->
  _handle_missing_values median_datetime d strategy = Ok d.
Proof.
  intros Hfull. unfold _handle_missing_values. apply for_each_fixed. intros n Hn.
  unfold handle_missing_step, getitem.
  destruct (assoc_is_Some n (columns d) Hn) as [c Hc]. rewrite Hc. cbn [mbind res_bind].
  by rewrite (Hfull n c (assoc_Some_elem _ _ _ Hc)).
Qed.

(** X7.  Handling the missing values a second time changes nothing: on a
    well-formed frame, the result of [_handle_missing_values] is a frame the
    same strategy returns as it is. *)
Theorem handle_missing_values_twice d strategy d1 :
  wf_frame d = true ->
  _handle_missing_values median_datetime d strategy = Ok d1 ->
  _handle_missing_values median_datetime d1 strategy = Ok d1.
Proof.
  intros Hwf. pose proof (wf_frame_NoDup d Hwf) as Hnd.
  destruct (decide (strategy ∈ known_strategies)) as [Hin|Hout].
  - unfold known_strategies in Hin.
    repeat (apply elem_of_cons in Hin as [->|Hin]); [| | | |by apply elem_of_nil in Hin].
    + rewrite handle_missing_auto_columnwise by done. intros [= <-].
      rewrite handle_missing_auto_columnwise by (by apply NoDup_columnwise).
      f_equal. apply (columnwise_idem (auto_column median_datetime (len d))).
      apply auto_column_idem.
    + rewrite FillFrames.drop_strategy_take_rows by done. intros [= <-].
      apply complete_frame_is_kept. by apply StrategyFacts.complete_rows_have_no_gap.
    + rewrite FillFrames.forward_fill_columnwise by done. intros [= <-].
      rewrite FillFrames.forward_fill_columnwise by (by apply NoDup_columnwise).
      f_equal. apply columnwise_idem. intros c c' [= <-]. by rewrite col_ffill_idem.
    + rewrite FillFrames.backward_fill_columnwise by done. intros [= <-].
      rewrite FillFrames.backward_fill_columnwise by (by apply NoDup_columnwise).
      f_equal. apply columnwise_idem. intros c c' [= <-]. by rewrite col_bfill_idem.
  - rewrite Cleaning.unknown_strategy_fixed by done. intros [= <-].
    by apply Cleaning.unknown_strategy_fixed.
Qed.

(** X8.  Converting the data types a second time changes nothing: a column that
    was promoted stays as it is, and a text column that was not promoted is
    judged again on the same cells. *)
Theorem convert_data_types_twice d d1 :
  NoDup (column_names d) ->
  _convert_data_types to_numeric to_datetime d = Ok d1 ->
  _convert_data_types to_numeric to_datetime d1 = Ok d1.
Proof.
  intros Hnd. rewrite convert_data_types_columnwise by done. intros [= <-].
  rewrite convert_data_types_columnwise by (by apply NoDup_columnwise).
  f_equal. apply columnwise_idem. intros c c' [= <-]. by rewrite convert_column_idem.
Qed.

End Facts.

Lemma handle_missing_values_twice_witness :
  wf_frame Example.survey_frame = true /\
  exists d1,
    _handle_missing_values Sample.median_datetime Example.survey_frame "auto" = Ok d1 /\
    _handle_missing_values Sample.median_datetime d1 "auto" = Ok d1.
Proof.
  split; [reflexivity|]. eexists. split; [reflexivity|].
  apply (handle_missing_values_twice Sample.median_datetime Example.survey_frame "auto");
    reflexivity.
Defined.

Lemma convert_data_types_twice_witness :
  NoDup (column_names Example.amounts_money_frame) /\
  exists d1,
    _convert_data_types Sample.to_numeric Sample.to_datetime Example.amounts_money_frame
    = Ok d1 /\
    _convert_data_types Sample.to_numeric Sample.to_datetime d1 = Ok d1.
Proof.
  pose proof (wf_frame_NoDup Example.amounts_money_frame eq_refl) as Hnd.
  split; [exact Hnd|]. eexists. split; [reflexivity|].
  apply (convert_data_types_twice Sample.to_numeric Sample.to_datetime
           Example.amounts_money_frame _ Hnd).
  reflexivity.
Defined.

End TwiceFacts.

(** * Date-like values *)

Module DateFacts.

Lemma eat_digits_app n s r t :
  eat_digits n s = Some r -> eat_digits n (s +:+ t) = Some (r +:+ t).
Proof.
  revert s. induction n as [|n IH]; intros s; cbn [eat_digits].
  - by intros [= ->].
  - destruct s as [|c s]; [done|]. rewrite SearchFacts.append_cons.
    destruct (is_digit c); [apply IH|done].
Qed.

Lemma eat_char_app c s r t :
  eat_char c s = Some r -> eat_char c (s +:+ t) = Some (r +:+ t).
Proof.
  destruct s as [|c' s]; cbn [eat_char]; [done|]. rewrite SearchFacts.append_cons.
  cbn [eat_char]. destruct (Ascii.eqb c c'); [|done]. by intros [= ->].
Qed.

Lemma match_date_pattern_app a sep b c s t :
  match_date_pattern a sep b c s = true -> match_date_pattern a sep b c (s +:+ t) = true.
Proof.
  unfold match_date_pattern.
  destruct (eat_digits a s) as [s1|] eqn:H1; [|done]. rewrite (eat_digits_app _ _ _ t H1).
  cbn [mbind option_bind].
  destruct (eat_char sep s1) as [s2|] eqn:H2; [|done]. rewrite (eat_char_app _ _ _ t H2).
  cbn [mbind option_bind].
  destruct (eat_digits b s2) as [s3|] eqn:H3; [|done]. rewrite (eat_digits_app _ _ _ t H3).
  cbn [mbind option_bind].
  destruct (eat_char sep s3) as [s4|] eqn:H4; [|done]. rewrite (eat_char_app _ _ _ t H4).
  cbn [mbind option_bind].
  destruct (eat_digits c s4) as [s5|] eqn:H5; [|done]. by rewrite (eat_digits_app _ _ _ t H5).
Qed.

(** X27.  A column is date-like as soon as one of its first ten present values
    begins with a date in one of the three formats: what follows the date in
    that value, and what the other cells hold, does not matter. *)
Theorem date_at_the_start_suffices (cells : list (option string)) (date rest : string) :
  existsb (fun pattern => pattern date) date_patterns = true ->
  date +:+ rest ∈ take 10 (dropna cells) ->
  _is_date_column cells = true.
Proof.
  intros Hdate Hin. unfold _is_date_column. apply existsb_exists.
  exists (date +:+ rest). split; [by apply list_elem_of_In|].
  unfold date_patterns in *. cbn [existsb] in *.
  repeat (apply orb_prop in Hdate as [Hdate|Hdate]);
    try (rewrite (match_date_pattern_app _ _ _ _ _ rest Hdate));
    rewrite ?orb_true_r; done.
Qed.

Lemma date_at_the_start_suffices_witness :
  let cells := [None; Some "n/a"; Some "2024-03-01T09:30"; Some "tomorrow"] in
  existsb (fun pattern => pattern "2024-03-01") date_patterns = true /\
  ("2024-03-01" +:+ "T09:30" ∈ take 10 (dropna cells)) /\
  _is_date_column cells = true.
Proof.
  intros cells.
  assert (Hin : "2024-03-01" +:+ "T09:30" ∈ take 10 (dropna cells)).
  { right. left. }
  split; [reflexivity|]. split; [exact Hin|].
  exact (date_at_the_start_suffices cells "2024-03-01" "T09:30" eq_refl Hin).
Defined.

End DateFacts.
